(** * Fantasy-basketball analytics: valuation and recommendation pipeline

    A shallow embedding of the pure computation of the repository
    (z-score engine, trend detector, streaming planner, trade scorer and
    consistency estimator) together with the properties stated about it.

    Conventions of the embedding.
    - Numbers.  Where a property is about which entries exist, the order
      of a list, a bound or a sum of given values, a JavaScript number is
      a rational [Q]: arithmetic is exact, there is no NaN and no
      infinity, and [toFixed] rounds the exact decimal value.  Every
      division of the embedded code is guarded by the code itself (games
      played, standard deviation, attempts), so no division by zero is
      ever evaluated on the paths the theorems speak about.  Where a
      property states a stored value or a label that rounding decides
      (the scores and totals of the z-score engine, the status of a
      trend, the risk level), the code is embedded over the binary64
      numbers of the machine (modules [Double], [ZScoreDouble],
      [TrendDouble] and [ConsistencyDouble]).
    - A JavaScript object used as a dictionary is a [gmap string _]; a
      missing key is [None] ([undefined]).  [Object.keys]/[Object.entries]
      enumerate [map_to_list].
    - A JavaScript [Set] of strings is a [gset string].
    - An array is a [list]. *)

From Stdlib Require Import QArith Qround Qabs Lqa ZArith Lia List Ascii String Sorted Permutation.
From Stdlib Require OrderedTypeEx.
From Stdlib Require Floats.
From stdpp Require Import gmap strings list fin_maps pretty.
Import ListNotations.

(** ** Numbers *)

Module Num.

Local Open Scope Q_scope.

Definition Qlt_bool (x y : Q) : bool := negb (Qle_bool y x).

(** [Math.max] and [Math.min] on two numbers. *)
Definition Qmax (x y : Q) : Q := if Qle_bool x y then y else x.
Definition Qmin (x y : Q) : Q := if Qle_bool x y then x else y.

(** Nearest integer, ties away from zero: the integer [n] that
    [Number.prototype.toFixed] selects for the scaled magnitude. *)
Definition roundHalfAway (x : Q) : Z :=
  if Qle_bool 0 x then Qfloor (x + (1 # 2)) else (- Qfloor (- x + (1 # 2)))%Z.

(** [parseFloat(x.toFixed(2))], [parseFloat(x.toFixed(1))] and
    [parseFloat(x.toFixed(3))]. *)
Definition toFixed2 (x : Q) : Q := roundHalfAway (x * 100) # 100.
Definition toFixed1 (x : Q) : Q := roundHalfAway (x * 10) # 10.
Definition toFixed3 (x : Q) : Q := roundHalfAway (x * 1000) # 1000.

(** [Math.sqrt].  The IEEE square root is correctly rounded, hence exact
    whenever the root is representable.  On rationals the model is exact
    whenever the root is rational, and otherwise truncates the root to 53
    fractional bits; it is zero on non-positive arguments and positive on
    positive ones. *)
Definition sqrtBits : positive := 53.

Definition Qsqrt (x : Q) : Q :=
  let r := Qred x in
  let n := Qnum r in
  let d := Qden r in
  if (n <=? 0)%Z then 0
  else Z.sqrt (n * Zpos d * 4 ^ Zpos sqrtBits) # (d * 2 ^ sqrtBits).

(** Sum of an array, as the [add] fold of mathjs. *)
Definition Qsum (l : list Q) : Q := fold_left Qplus l 0.

(** mathjs [mean] of a non-empty array. *)
Definition mean (values : list Q) : Q :=
  Qsum values / inject_Z (Z.of_nat (length values)).

(** mathjs [variance] with its default normalization, ['unbiased']: the
    sum of squared deviations divided by [n - 1], and [0] for a single
    value. *)
Definition sumSquares (values : list Q) : Q :=
  let m := mean values in
  Qsum (map (fun v => (v - m) * (v - m)) values).

Definition variance (values : list Q) : Q :=
  if (length values =? 1)%nat then 0
  else sumSquares values / inject_Z (Z.of_nat (length values) - 1).

(** mathjs [std(values)]: the square root of [variance values]. *)
Definition std (values : list Q) : Q := Qsqrt (variance values).

End Num.
Import Num.

(** ** Shared data model (types/sleeper.ts) *)

(** A roster of the league.  [players] and [starters] are optional
    properties. *)
Record Roster := {
  roster_id : Z;
  players : option (list string);
  starters : option (list string)
}.

(** The raw stat record of one player: the optional display name and the
    numeric properties ([gp], [pts], [fgm], ...), read by key. *)
Record PlayerStats := {
  player_name : option string;
  statFields : gmap string Q
}.

(** The computed z-scores of one player. *)
Record PlayerZScore := {
  name : string;
  scores : gmap string Q;
  totalZ : Q
}.

(** [Array.prototype.includes] on an array of strings. *)
Definition includes (l : list string) (k : string) : bool :=
  existsb (String.eqb k) l.

(** [Array.prototype.sort] with a numeric comparator.  The sort of the
    language is stable, so for a consistent comparator its result is the
    one stable arrangement; it is computed here by stable insertion: an
    element stays in front of a later one whenever the comparator does not
    return a positive number for the pair. *)
Fixpoint insertBy {A : Type} (cmp : A -> A -> Q) (x : A) (l : list A) : list A :=
  match l with
  | [] => [x]
  | y :: ys => if Qle_bool (cmp x y) 0 then x :: y :: ys else y :: insertBy cmp x ys
  end.

Definition sortBy {A : Type} (cmp : A -> A -> Q) (l : list A) : list A :=
  fold_right (insertBy cmp) [] l.

(** A string is truthy when it is not empty. *)
Definition truthy (s : string) : bool := negb (String.eqb s "").

(** ** The z-score engine (utils/zScoreCalculator) *)

Module ZScore.

Local Open Scope Q_scope.

Definition SETTINGS_TO_STATS_MAP : gmap string string :=
  list_to_map
    [("pts", "pts"); ("reb", "reb"); ("ast", "ast"); ("st", "stl");
     ("stl", "stl"); ("blk", "blk"); ("to", "to"); ("turnovers", "to");
     ("fg3m", "fg3m"); ("tpm", "fg3m"); ("fg_pct", "calculated_fg");
     ("ft_pct", "calculated_ft"); ("fg3_pct", "calculated_3pt");
     ("ast_to", "ast_to")]%string.

Definition PURE_RATIO_STATS : list string := ["ast_to"; "stl_to"]%string.

Definition IMPACT_STATS : list string :=
  ["calculated_fg"; "calculated_ft"; "calculated_3pt"]%string.

Definition IGNORED_KEYS : list string :=
  ["bonus_ast_15p"; "bonus_pt_40p"; "bonus_pt_50p"; "bonus_reb_20p"; "qd"]%string.

(** [Number(player[key] || 0)]: a missing property reads as [0]. *)
Definition statNumber (player : PlayerStats) (key : string) : Q :=
  default 0 (statFields player !! key).

(** The ['fg' | 'ft' | '3pt'] argument of [getSplitStats]. *)
Inductive SplitType := fg | ft | threePt.

Definition getSplitStats (player : PlayerStats) (type : SplitType) : Q * Q :=
  match type with
  | fg => (statNumber player "fgm", statNumber player "fga")
  | ft => (statNumber player "ftm", statNumber player "fta")
  | threePt => (statNumber player "fg3m", statNumber player "fg3a")
  end.

Record ActiveCat := {
  settingKey : string;
  statKey : string;
  weight : Q
}.

(** Step 1.  [Object.keys(scoringSettings)] filtered on the weight and the
    ignore list, mapped to the category record, filtered on a truthy
    [statKey]. *)
Definition activeCats (scoringSettings : gmap string Q) : list ActiveCat :=
  List.filter (fun cat => negb (String.eqb (statKey cat) ""))
    (map (fun kw : string * Q =>
            {| settingKey := fst kw;
               statKey := default (fst kw) (SETTINGS_TO_STATS_MAP !! fst kw);
               weight := snd kw |})
       (List.filter
          (fun kw : string * Q =>
             negb (Qeq_bool (snd kw) 0) && negb (includes IGNORED_KEYS (fst kw)))
          (map_to_list scoringSettings))).

(** Step 2.  Every roster pushes its [players] array, when it has one. *)
Definition populationIds (leagueRosters : list Roster) : list string :=
  flat_map (fun roster => default [] (players roster)) leagueRosters.

(** [Number(stat.gp) > 0]; a missing [gp] is NaN and fails the test. *)
Definition gpPositive (stat : PlayerStats) : bool :=
  match statFields stat !! "gp" with
  | Some g => Qlt_bool 0 g
  | None => false
  end.

(** Step 3.  Look every id up, drop [undefined], keep [gp > 0]. *)
Definition populationStats (populationIds : list string)
    (allStats : gmap string PlayerStats) : list PlayerStats :=
  List.filter gpPositive (omap (fun id => allStats !! id) populationIds).

Record Baseline := {
  avg : Q;
  std : Q;
  avgPct : Q
}.

Definition impactType (statKey : string) : SplitType :=
  if String.eqb statKey "calculated_fg" then fg
  else if String.eqb statKey "calculated_ft" then ft
  else threePt.

(** The [totalM]/[totalA] accumulation over the population. *)
Definition splitTotals (type : SplitType) (populationStats : list PlayerStats) : Q * Q :=
  fold_left
    (fun (acc : Q * Q) p =>
       let '(m, a) := getSplitStats p type in (fst acc + m, snd acc + a))
    populationStats (0, 0).

Definition leagueAvgPct (type : SplitType) (populationStats : list PlayerStats) : Q :=
  let '(totalM, totalA) := splitTotals type populationStats in
  if Qlt_bool 0 totalA then totalM / totalA else 0.

(** Step 4, per category: the value set of the population, with the
    league make rate ([0] for a category that is not an Impact one). *)
Definition categoryValues (cat : ActiveCat) (populationStats : list PlayerStats)
    : list Q * Q :=
  if includes IMPACT_STATS (statKey cat) then
    let type := impactType (statKey cat) in
    let pct := leagueAvgPct type populationStats in
    (map (fun p =>
            let '(m, a) := getSplitStats p type in
            let gp := statNumber p "gp" in
            let pgMade := m / gp in
            let pgAtt := a / gp in
            pgMade - pgAtt * pct)
       populationStats, pct)
  else
    (map (fun p =>
            let rawVal := statNumber p (statKey cat) in
            if includes PURE_RATIO_STATS (statKey cat) then rawVal
            else rawVal / statNumber p "gp")
       populationStats, 0).

Definition baselineOf (cat : ActiveCat) (populationStats : list PlayerStats) : Baseline :=
  let '(values, pct) := categoryValues cat populationStats in
  let stdDev := Num.std values in
  {| avg := mean values;
     std := if Qeq_bool stdDev 0 then 1 else stdDev;
     avgPct := pct |}.

(** The [leagueMath] object after the loop over the active categories. *)
Definition leagueMath (cats : list ActiveCat) (populationStats : list PlayerStats)
    : gmap string Baseline :=
  fold_left (fun m cat => <[settingKey cat := baselineOf cat populationStats]> m)
    cats ∅.

(** Step 5, per player and category: the value [val].  The make rate is
    read from the baseline, [math.avgPct || 0], which is [math.avgPct] for
    every number. *)
Definition playerValue (cat : ActiveCat) (math : Baseline) (pStats : PlayerStats) : Q :=
  let gp := statNumber pStats "gp" in
  if includes IMPACT_STATS (statKey cat) then
    let type := impactType (statKey cat) in
    let '(m, a) := getSplitStats pStats type in
    let pgMade := m / gp in
    let pgAtt := a / gp in
    pgMade - pgAtt * avgPct math
  else
    let rawVal := statNumber pStats (statKey cat) in
    if includes PURE_RATIO_STATS (statKey cat) then rawVal else rawVal / gp.

(** The weighted, unrounded [z] of one category. *)
Definition categoryZ (cat : ActiveCat) (math : Baseline) (pStats : PlayerStats) : Q :=
  let val := playerValue cat math pStats in
  let z := (val - avg math) / std math in
  let z := if Qlt_bool (weight cat) 0 then z * -1 else z in
  z * Qabs (weight cat).

(** [leagueMath[cat.settingKey]].  The entry exists for every active
    category ([leagueMath_lookup] below), so the fallback is never read. *)
Definition mathOf (lm : gmap string Baseline) (cat : ActiveCat) : Baseline :=
  default {| avg := 0; std := 1; avgPct := 0 |} (lm !! settingKey cat).

(** The loop over the active categories for one player: the [scores]
    object and the running, unrounded [totalZ]. *)
Definition scoreLoop (cats : list ActiveCat) (lm : gmap string Baseline)
    (pStats : PlayerStats) : gmap string Q * Q :=
  fold_left
    (fun (acc : gmap string Q * Q) cat =>
       let z := categoryZ cat (mathOf lm cat) pStats in
       (<[settingKey cat := toFixed2 z]> (fst acc), snd acc + z))
    cats (∅, 0).

Definition playerEntry (cats : list ActiveCat) (lm : gmap string Baseline)
    (pStats : PlayerStats) : PlayerZScore :=
  let '(scores, totalZ) := scoreLoop cats lm pStats in
  {| name := match player_name pStats with
             | Some n => if String.eqb n "" then "Unknown Player" else n
             | None => "Unknown Player"
             end;
     scores := scores;
     totalZ := toFixed2 totalZ |}.

(** [!pStats.gp] is false: [gp] is present and not [0]. *)
Definition gpTruthy (pStats : PlayerStats) : bool :=
  match statFields pStats !! "gp" with
  | Some g => negb (Qeq_bool g 0)
  | None => false
  end.

Definition calculateZScores (leagueRosters : list Roster)
    (allStats : gmap string PlayerStats) (scoringSettings : gmap string Q)
    : gmap string PlayerZScore :=
  let cats := activeCats scoringSettings in
  if (length cats =? 0)%nat then ∅
  else
    let ids := populationIds leagueRosters in
    let pop := populationStats ids allStats in
    if (length pop =? 0)%nat then ∅
    else
      let lm := leagueMath cats pop in
      fold_left
        (fun result id =>
           match allStats !! id with
           | None => result
           | Some pStats =>
               if gpTruthy pStats then <[id := playerEntry cats lm pStats]> result
               else result
           end)
        ids ∅.

(** *** Quantities the properties are stated with *)

(** The qualifying population of a run and its baselines. *)
Definition population (leagueRosters : list Roster)
    (allStats : gmap string PlayerStats) : list PlayerStats :=
  populationStats (populationIds leagueRosters) allStats.

Definition baselines (leagueRosters : list Roster)
    (allStats : gmap string PlayerStats) (scoringSettings : gmap string Q)
    : gmap string Baseline :=
  leagueMath (activeCats scoringSettings) (population leagueRosters allStats).

Definition made (type : SplitType) (p : PlayerStats) : Q := fst (getSplitStats p type).
Definition attempted (type : SplitType) (p : PlayerStats) : Q := snd (getSplitStats p type).

Definition totalMade (type : SplitType) (pop : list PlayerStats) : Q :=
  Qsum (map (made type) pop).
Definition totalAttempted (type : SplitType) (pop : list PlayerStats) : Q :=
  Qsum (map (attempted type) pop).

Definition perGameMade (type : SplitType) (p : PlayerStats) : Q :=
  made type p / statNumber p "gp".
Definition perGameAttempted (type : SplitType) (p : PlayerStats) : Q :=
  attempted type p / statNumber p "gp".

(** The volume-weighted impact of a player against a league make rate. *)
Definition impactValue (type : SplitType) (pct : Q) (p : PlayerStats) : Q :=
  perGameMade type p - perGameAttempted type p * pct.

(** Direction and magnitude of a weight applied to a raw z. *)
Definition weighted (w rawZ : Q) : Q :=
  (if Qlt_bool w 0 then - rawZ else rawZ) * Qabs w.

(** The standard deviation as stored in a baseline: [1] in place of [0]. *)
Definition flooredStd (s : Q) : Q := if Qeq_bool s 0 then 1 else s.

(** The population standard deviation: the root of the mean squared
    deviation, the divisor being the number of values. *)
Definition populationStd (values : list Q) : Q :=
  Qsqrt (sumSquares values / inject_Z (Z.of_nat (length values))).

(** The sample standard deviation: the divisor is one less than the
    number of values, and a single value has deviation [0]. *)
Definition sampleStd (values : list Q) : Q :=
  match values with
  | [_] => 0
  | _ => Qsqrt (sumSquares values / (inject_Z (Z.of_nat (length values)) - 1))
  end.

(** The ids of the rosters, in order and with their repetitions, whose
    record exists with [gp > 0]. *)
Definition qualifies (allStats : gmap string PlayerStats) (id : string) : bool :=
  match allStats !! id with
  | Some p => gpPositive p
  | None => false
  end.

Definition qualifyingIds (leagueRosters : list Roster)
    (allStats : gmap string PlayerStats) : list string :=
  List.filter (qualifies allStats) (populationIds leagueRosters).

(** The population with set semantics: every id of the rosters once. *)
Definition distinctPopulation (leagueRosters : list Roster)
    (allStats : gmap string PlayerStats) : list PlayerStats :=
  populationStats (remove_dups (populationIds leagueRosters)) allStats.

End ZScore.


(** ** The trend detector (utils/trendAnalysis.ts) *)

Module Trend.

Local Open Scope Q_scope.

Inductive TrendStatus := BUY_LOW | SELL_HIGH | NEUTRAL | BREAKOUT | DECLINE.

(** The [reasoning] text is presentation only and is left out. *)
Record PlayerTrend := {
  playerId : string;
  playerName : string;
  status : TrendStatus;
  seasonZ : Q;
  recentZ : Q;
  zDifference : Q;
  confidenceScore : Q
}.

Record TrendAnalysis := {
  trends : list PlayerTrend;
  buyLowCandidates : list PlayerTrend;
  sellHighCandidates : list PlayerTrend;
  breakouts : list PlayerTrend;
  declines : list PlayerTrend
}.

Definition BUY_LOW_THRESHOLD : Q := - (15 # 10).
Definition SELL_HIGH_THRESHOLD : Q := 15 # 10.

(** The [if]/[else if] chain that sets [status]. *)
Definition classify (seasonTotalZ recentTotalZ : Q) : TrendStatus :=
  let zDifference := recentTotalZ - seasonTotalZ in
  if Qlt_bool (5 # 10) seasonTotalZ && Qlt_bool zDifference BUY_LOW_THRESHOLD
  then BUY_LOW
  else if Qlt_bool seasonTotalZ (- (5 # 10)) && Qlt_bool SELL_HIGH_THRESHOLD zDifference
  then SELL_HIGH
  else if Qlt_bool (seasonTotalZ + 1) recentTotalZ && Qlt_bool seasonTotalZ (5 # 10)
  then BREAKOUT
  else if Qlt_bool recentTotalZ (seasonTotalZ - 1) && Qlt_bool (5 # 10) seasonTotalZ
  then DECLINE
  else NEUTRAL.

(** [stats[playerId]?.gp || 0]. *)
Definition gpOrZero (stats : gmap string PlayerStats) (playerId : string) : Q :=
  match stats !! playerId with
  | Some p => default 0 (statFields p !! "gp")
  | None => 0
  end.

Definition confidence (recentGP seasonGP zDifference : Q) : Q :=
  let recentConfidence := Qmin 100 (recentGP / Qmax seasonGP 1 * 100) in
  let magnitudeConfidence := Qmin 100 (Qabs zDifference * 10) in
  recentConfidence * (6 # 10) + magnitudeConfidence * (4 # 10).

(** The record pushed for a player found in both maps. *)
Definition trendOf (seasonStats recentStats : gmap string PlayerStats)
    (playerId : string) (seasonZ recentZ : PlayerZScore) : PlayerTrend :=
  let seasonTotalZ := totalZ seasonZ in
  let recentTotalZ := totalZ recentZ in
  let zDifference := recentTotalZ - seasonTotalZ in
  let recentGP := gpOrZero recentStats playerId in
  let seasonGP := gpOrZero seasonStats playerId in
  {| playerId := playerId;
     playerName := name seasonZ;
     status := classify seasonTotalZ recentTotalZ;
     seasonZ := toFixed2 seasonTotalZ;
     recentZ := toFixed2 recentTotalZ;
     zDifference := toFixed2 zDifference;
     confidenceScore := toFixed1 (confidence recentGP seasonGP zDifference) |}.

Definition statusIs (s : TrendStatus) (t : PlayerTrend) : bool :=
  match s, status t with
  | BUY_LOW, BUY_LOW | SELL_HIGH, SELL_HIGH | NEUTRAL, NEUTRAL
  | BREAKOUT, BREAKOUT | DECLINE, DECLINE => true
  | _, _ => false
  end.

(** The loop over [Object.keys(seasonZScores)]: a player missing from the
    recent map returns early and pushes nothing. *)
Definition collectTrends (seasonZScores recentZScores : gmap string PlayerZScore)
    (seasonStats recentStats : gmap string PlayerStats) : list PlayerTrend :=
  omap (fun entry : string * PlayerZScore =>
          match recentZScores !! fst entry with
          | None => None
          | Some recentZ =>
              Some (trendOf seasonStats recentStats (fst entry) (snd entry) recentZ)
          end)
    (map_to_list seasonZScores).

Definition calculateTrends (seasonZScores recentZScores : gmap string PlayerZScore)
    (seasonStats recentStats : gmap string PlayerStats) : TrendAnalysis :=
  let trends := collectTrends seasonZScores recentZScores seasonStats recentStats in
  {| trends := trends;
     buyLowCandidates :=
       sortBy (fun a b => confidenceScore b - confidenceScore a)
         (List.filter (statusIs BUY_LOW) trends);
     sellHighCandidates :=
       sortBy (fun a b => confidenceScore b - confidenceScore a)
         (List.filter (statusIs SELL_HIGH) trends);
     breakouts :=
       sortBy (fun a b => recentZ b - recentZ a)
         (List.filter (statusIs BREAKOUT) trends);
     declines :=
       sortBy (fun a b => recentZ a - recentZ b)
         (List.filter (statusIs DECLINE) trends) |}.

End Trend.

(** ** The consistency estimator (utils/consistencyRating) *)

Module Consistency.

Local Open Scope Q_scope.

Record ConsistencyMetrics := {
  mean : Q;
  std : Q;
  cv : Q;
  riskLevel : string
}.

(** [playerStats[key] || 0]. *)
Definition field (playerStats : PlayerStats) (key : string) : Q :=
  default 0 (statFields playerStats !! key).

Definition ppg (playerStats : PlayerStats) (gp : Q) : Q := field playerStats "pts" / gp.
Definition rpg (playerStats : PlayerStats) (gp : Q) : Q := field playerStats "reb" / gp.
Definition apg (playerStats : PlayerStats) (gp : Q) : Q := field playerStats "ast" / gp.

Definition usageScore (playerStats : PlayerStats) (gp : Q) : Q :=
  ppg playerStats gp + rpg playerStats gp * (5 # 10) + apg playerStats gp * (7 # 10).

(** The final value of the variable [estimatedCV]. *)
Definition estimatedCV (playerStats : PlayerStats) (gp : Q) : Q :=
  let usage := usageScore playerStats gp in
  let base :=
    if Qlt_bool 20 usage then 15 # 100
    else if Qlt_bool 12 usage then 22 # 100
    else if Qlt_bool 6 usage then 35 # 100
    else 5 # 10 in
  let statVariance :=
    Qabs (ppg playerStats gp - rpg playerStats gp - apg playerStats gp)
    / Qmax usage 1 in
  base + statVariance * (5 # 100).

Definition riskLevelOf (estimatedCV : Q) : string :=
  if Qlt_bool (4 # 10) estimatedCV then "High"
  else if Qlt_bool (25 # 100) estimatedCV then "Medium"
  else "Low".

Definition notAvailable : ConsistencyMetrics :=
  {| mean := 0; std := 0; cv := 0; riskLevel := "N/A" |}.

(** The argument is [None] for a null or undefined record. *)
Definition calculateConsistency (playerStats : option PlayerStats) : ConsistencyMetrics :=
  match playerStats with
  | None => notAvailable
  | Some ps =>
      match statFields ps !! "gp" with
      | None => notAvailable
      | Some gp =>
          if Qeq_bool gp 0 then notAvailable
          else
            let est := estimatedCV ps gp in
            {| mean := toFixed2 (ppg ps gp);
               std := toFixed2 est;
               cv := toFixed3 est;
               riskLevel := riskLevelOf est |}
      end
  end.

End Consistency.

(** ** The trade scorer (utils/tradeRecommender.ts) *)

Module Trade.

Local Open Scope Q_scope.

Record TradeStats := {
  needCategoryZ : Q;
  spareCategoryZ : Q;
  tradeScore : Q
}.

Record TradeRecommendation := {
  playerId : string;
  playerName : string;
  rosters : list Roster;
  rosterIndex : nat;
  ownerName : string;
  stats : TradeStats
}.

(** [ownerDisplayNames?.[String(roster.roster_id)] || `Team ${roster.roster_id}`]. *)
Definition ownerNameOf (ownerDisplayNames : option (gmap string string))
    (roster : Roster) : string :=
  let fallback := ("Team " +:+ pretty (roster_id roster))%string in
  match ownerDisplayNames with
  | None => fallback
  | Some names =>
      match names !! pretty (roster_id roster) with
      | Some n => if truthy n then n else fallback
      | None => fallback
      end
  end.

(** The recommendation pushed for one player of another roster, when the
    player has a z-score entry. *)
Definition recommendationOf (leagueRosters : list Roster)
    (playerZScores : gmap string PlayerZScore) (needCategory spareCategory : string)
    (ownerDisplayNames : option (gmap string string))
    (rosterIndex : nat) (roster : Roster) (playerId : string)
    : option TradeRecommendation :=
  match playerZScores !! playerId with
  | None => None
  | Some playerData =>
      let needCategoryZ := default 0 (scores playerData !! needCategory) in
      let spareCategoryZ := default 0 (scores playerData !! spareCategory) in
      let tradeScore := needCategoryZ - spareCategoryZ in
      Some {| playerId := playerId;
              playerName := name playerData;
              rosters := leagueRosters;
              rosterIndex := rosterIndex;
              ownerName := ownerNameOf ownerDisplayNames roster;
              stats := {| needCategoryZ := needCategoryZ;
                          spareCategoryZ := spareCategoryZ;
                          tradeScore := tradeScore |} |}
  end.

(** The [recommendations] array after the two nested loops, before the
    sort. *)
Definition collectRecommendations (myRosterId : Z) (leagueRosters : list Roster)
    (playerZScores : gmap string PlayerZScore) (needCategory spareCategory : string)
    (ownerDisplayNames : option (gmap string string)) : list TradeRecommendation :=
  concat
    (imap (fun rosterIndex roster =>
             if (roster_id roster =? myRosterId)%Z then []
             else
               omap (recommendationOf leagueRosters playerZScores needCategory
                       spareCategory ownerDisplayNames rosterIndex roster)
                 (default [] (players roster)))
       leagueRosters).

Definition recommendTrades (myRosterId : Z) (leagueRosters : list Roster)
    (playerZScores : gmap string PlayerZScore) (needCategory spareCategory : string)
    (ownerDisplayNames : option (gmap string string)) : list TradeRecommendation :=
  match List.find (fun r => (roster_id r =? myRosterId)%Z) leagueRosters with
  | None => []
  | Some myRoster =>
      sortBy (fun a b => tradeScore (stats b) - tradeScore (stats a))
        (collectRecommendations myRosterId leagueRosters playerZScores needCategory
           spareCategory ownerDisplayNames)
  end.

(** *** Quantities the properties are stated with *)

(** Whether a player has a z-score entry. *)
Definition hasEntry (playerZScores : gmap string PlayerZScore) (pid : string) : bool :=
  match playerZScores !! pid with
  | Some _ => true
  | None => false
  end.

End Trade.

(** ** The streaming planner (utils/streamingLogic.ts) *)

Module Streaming.

Local Open Scope Q_scope.

Record NBAGameSummary := {
  gameId : string;
  gameDate : string;
  tipoffUTC : string;
  homeTeam : string;
  awayTeam : string
}.

Record DailySchedule := {
  date : string;
  isoDate : string;
  games : list NBAGameSummary;
  teamsPlaying : list string
}.

(** The properties of a [playersMap] entry that [getPlayerMeta] reads. *)
Record PlayerMeta := {
  full_name : option string;
  first_name : option string;
  last_name : option string;
  search_full_name : option string;
  meta_team : option string;
  position : option string;
  fantasy_positions : option (list string)
}.

(** [StreamCandidate] extends [PlayerStreamingInfo] with [reason]; the
    one record has the property optional. *)
Record PlayerStreamingInfo := {
  playerId : string;
  name : string;
  team : string;
  positions : list string;
  isStarter : bool;
  zScore : Q;
  upcomingGames : list NBAGameSummary;
  reason : option string
}.

(** [dayLabel] is a locale rendering of the date and is left out. *)
Record StreamingDayPlan := {
  dayDate : string;
  nbaGames : nat;
  dayTeamsPlaying : list string;
  dayActiveSlots : nat;
  playersAvailable : nat;
  holes : Z;
  ownPlayers : list PlayerStreamingInfo;
  recommendations : list PlayerStreamingInfo
}.

Record Metadata := {
  activeSlots : nat;
  benchSlots : nat;
  totalRosterPlayers : nat
}.

(** [generatedAt] is the wall clock and is left out. *)
Record StreamingPlan := {
  rosterId : option Z;
  leagueId : option string;
  metadata : Metadata;
  days : list StreamingDayPlan
}.

Record Matchup := {
  matchup_roster_id : Z;
  matchup_starters : option (list string)
}.

Record StreamingInput := {
  roster : option Roster;
  allRosters : list Roster;
  rosterPositions : list string;
  playerZScores : gmap string PlayerZScore;
  playersMap : gmap string PlayerMeta;
  dailySchedule : list DailySchedule;
  teamGameMap : gmap string (list NBAGameSummary);
  matchups : option (list Matchup);
  inputLeagueId : option string
}.

Definition BENCH_CODES : gset string := list_to_set ["BN"; "IR"; "IR+"; "NA"]%string.

(** [String.prototype.toUpperCase] on the ASCII letters. *)
Definition upperAscii (c : ascii) : ascii :=
  let n := nat_of_ascii c in
  if ((97 <=? n) && (n <=? 122))%nat then ascii_of_nat (n - 32) else c.

Fixpoint toUpperCase (s : string) : string :=
  match s with
  | EmptyString => EmptyString
  | String c rest => String (upperAscii c) (toUpperCase rest)
  end.

Definition isBench (slot : string) : bool :=
  bool_decide (toUpperCase slot ∈ BENCH_CODES).

Definition getActiveSlotCount (rosterPositions : list string) : nat :=
  length (List.filter (fun slot => truthy slot && negb (isBench slot)) rosterPositions).

Definition getBenchSlotCount (rosterPositions : list string) : nat :=
  length (List.filter isBench rosterPositions).

Definition buildStarterSet (matchups : option (list Matchup)) (rosterId : option Z)
    (fallbackStarters : option (list string)) : gset string :=
  let fallback : gset string := list_to_set (default [] fallbackStarters) in
  match matchups, rosterId with
  | Some ms, Some rid =>
      if (rid =? 0)%Z then fallback
      else
        match List.find (fun m => (matchup_roster_id m =? rid)%Z) ms with
        | Some {| matchup_starters := Some (s :: rest) |} =>
            list_to_set (List.filter truthy (s :: rest))
        | _ => fallback
        end
  | _, _ => fallback
  end.

Definition buildRosteredSet (allRosters : list Roster) : gset string :=
  list_to_set (flat_map (fun team => default [] (players team)) allRosters).

Definition emptyMeta : PlayerMeta :=
  {| full_name := None; first_name := None; last_name := None;
     search_full_name := None; meta_team := None; position := None;
     fantasy_positions := None |}.

Definition truthyOpt (o : option string) : option string :=
  match o with
  | Some s => if truthy s then Some s else None
  | None => None
  end.

(** Name, positions and team of a player, with the fallbacks of the
    source; a player without metadata resolves to the empty team. *)
Definition getPlayerMeta (playerId : string) (playersMap : gmap string PlayerMeta)
    : string * list string * string :=
  let meta := default emptyMeta (playersMap !! playerId) in
  let positions :=
    match fantasy_positions meta with
    | Some (p :: ps) => p :: ps
    | _ => match truthyOpt (position meta) with
           | Some p => [p]
           | None => []
           end
    end in
  let name :=
    match truthyOpt (full_name meta) with
    | Some n => n
    | None =>
        match truthyOpt (first_name meta), truthyOpt (last_name meta) with
        | Some f, Some l => (f +:+ " " +:+ l)%string
        | _, _ =>
            match truthyOpt (search_full_name meta) with
            | Some n => n
            | None => playerId
            end
        end
    end in
  (name, positions, default ""%string (meta_team meta)).

Definition collectFreeAgents (playerZScores : gmap string PlayerZScore)
    (playersMap : gmap string PlayerMeta) (rosteredSet : gset string)
    : list PlayerStreamingInfo :=
  let agents :=
    omap (fun entry : string * PlayerZScore =>
            let playerId := fst entry in
            if bool_decide (playerId ∈ rosteredSet) then None
            else
              let '(name, positions, team) := getPlayerMeta playerId playersMap in
              if negb (truthy team) then None
              else
                Some {| playerId := playerId;
                        name := name;
                        team := team;
                        positions := positions;
                        isStarter := false;
                        zScore := totalZ (snd entry);
                        upcomingGames := [];
                        reason := Some "Top free agent by z-score"%string |})
      (map_to_list playerZScores) in
  firstn 200 (sortBy (fun a b => zScore b - zScore a) agents).

Definition withGames (entry : PlayerStreamingInfo) (games : list NBAGameSummary)
    : PlayerStreamingInfo :=
  {| playerId := playerId entry;
     name := name entry;
     team := team entry;
     positions := positions entry;
     isStarter := isStarter entry;
     zScore := zScore entry;
     upcomingGames := games;
     reason := reason entry |}.

Definition withReason (entry : PlayerStreamingInfo) (r : string) : PlayerStreamingInfo :=
  {| playerId := playerId entry;
     name := name entry;
     team := team entry;
     positions := positions entry;
     isStarter := isStarter entry;
     zScore := zScore entry;
     upcomingGames := upcomingGames entry;
     reason := Some r |}.

Definition enrichWithUpcomingGames (entries : list PlayerStreamingInfo)
    (teamGameMap : gmap string (list NBAGameSummary)) (referenceDate : string)
    (limit : nat) : list PlayerStreamingInfo :=
  map (fun entry =>
         let games :=
           firstn limit
             (List.filter (fun game => String.leb referenceDate (gameDate game))
                (default [] (teamGameMap !! team entry))) in
         withGames entry games)
    entries.

Definition playsOn (dayTeams : gset string) (player : PlayerStreamingInfo) : bool :=
  truthy (team player) && bool_decide (team player ∈ dayTeams).

(** The comparator of the [ownPlayers] sort. *)
Definition ownPlayerOrder (a b : PlayerStreamingInfo) : Q :=
  if Bool.eqb (isStarter a) (isStarter b) then zScore b - zScore a
  else if isStarter a then -1 else 1.

Definition rosterPlayersOf (roster : option Roster)
    (playerZScores : gmap string PlayerZScore) (playersMap : gmap string PlayerMeta)
    (starters : gset string) : list PlayerStreamingInfo :=
  map (fun playerId =>
         let '(name, positions, team) := getPlayerMeta playerId playersMap in
         {| playerId := playerId;
            name := name;
            team := team;
            positions := positions;
            isStarter := bool_decide (playerId ∈ starters);
            zScore := match playerZScores !! playerId with
                      | Some z => totalZ z
                      | None => 0
                      end;
            upcomingGames := [];
            reason := None |})
    (default [] (roster ≫= players)).

(** The plan of one day of the schedule. *)
Definition dayPlan (activeSlots : nat) (freeAgents rosterPlayers : list PlayerStreamingInfo)
    (teamGameMap : gmap string (list NBAGameSummary)) (day : DailySchedule)
    : StreamingDayPlan :=
  let dayTeams : gset string := list_to_set (teamsPlaying day) in
  let playersAvailable := List.filter (playsOn dayTeams) rosterPlayers in
  let holes := Z.max 0 (Z.of_nat activeSlots - Z.of_nat (length playersAvailable)) in
  let enrichedOwnPlayers :=
    enrichWithUpcomingGames playersAvailable teamGameMap (date day) 2 in
  let recommendations :=
    if (0 <? holes)%Z then
      let faOptions := List.filter (playsOn dayTeams) freeAgents in
      let enrichedCandidates :=
        map (fun entry =>
               withReason entry
                 ("Plays on " +:+ date day
                  +:+ " and ranks among top available z-scores")%string)
          (enrichWithUpcomingGames faOptions teamGameMap (date day) 3) in
      firstn (Z.to_nat (Z.min (holes * 2) 5)) enrichedCandidates
    else [] in
  {| dayDate := date day;
     nbaGames := length (games day);
     dayTeamsPlaying := teamsPlaying day;
     dayActiveSlots := activeSlots;
     playersAvailable := length playersAvailable;
     holes := holes;
     ownPlayers := sortBy ownPlayerOrder enrichedOwnPlayers;
     recommendations := recommendations |}.

Definition buildStreamingPlan (input : StreamingInput) : StreamingPlan :=
  let activeSlots := getActiveSlotCount (rosterPositions input) in
  let benchSlots := getBenchSlotCount (rosterPositions input) in
  let starters :=
    buildStarterSet (matchups input) (roster_id <$> roster input)
      (roster input ≫= starters) in
  let rosteredSet := buildRosteredSet (allRosters input) in
  let freeAgents :=
    collectFreeAgents (playerZScores input) (playersMap input) rosteredSet in
  let rosterPlayers :=
    rosterPlayersOf (roster input) (playerZScores input) (playersMap input) starters in
  {| rosterId := roster_id <$> roster input;
     leagueId := inputLeagueId input;
     metadata :=
       {| activeSlots := activeSlots;
          benchSlots := benchSlots;
          totalRosterPlayers := length (default [] (roster input ≫= players)) |};
     days := map (dayPlan activeSlots freeAgents rosterPlayers (teamGameMap input))
               (dailySchedule input) |}.

(** *** Quantities the properties are stated with *)

(** The team a player id resolves to. *)
Definition teamOf (playersMap : gmap string PlayerMeta) (playerId : string) : string :=
  snd (getPlayerMeta playerId playersMap).

(** The number of players of the target roster whose team plays on the
    day. *)
Definition playingCount (input : StreamingInput) (day : DailySchedule) : nat :=
  length
    (List.filter
       (fun playerId =>
          truthy (teamOf (playersMap input) playerId)
          && bool_decide (teamOf (playersMap input) playerId ∈ teamsPlaying day))
       (default [] (roster input ≫= players))).

(** The free-agent pool of a run. *)
Definition freeAgentPool (input : StreamingInput) : list PlayerStreamingInfo :=
  collectFreeAgents (playerZScores input) (playersMap input)
    (buildRosteredSet (allRosters input)).

(** A player on some roster of the league. *)
Definition rostered (allRosters : list Roster) (playerId : string) : Prop :=
  exists team, In team allRosters /\ In playerId (default [] (players team)).

End Streaming.

(** ** Sample leagues *)

Module Samples.

Import ZScore.
Local Open Scope Q_scope.

Definition statsOf (n : string) (l : list (string * Q)) : PlayerStats :=
  {| player_name := Some n; statFields := list_to_map l |}.

Definition rosterOf (i : Z) (ids : list string) : Roster :=
  {| roster_id := i; players := Some ids; starters := None |}.

(** Two rosters, three players. *)
Definition league : list Roster :=
  [rosterOf 1 ["a"; "b"]; rosterOf 2 ["c"]]%string.

(** Shooting volumes: the league makes 15 of 30 field goals. *)
Definition shooting : gmap string PlayerStats :=
  list_to_map
    [("a", statsOf "A" [("gp", 2); ("fgm", 8); ("fga", 10)]);
     ("b", statsOf "B" [("gp", 1); ("fgm", 2); ("fga", 8)]);
     ("c", statsOf "C" [("gp", 4); ("fgm", 5); ("fga", 12)])]%string.

Definition fgSettings : gmap string Q := list_to_map [("fg_pct", 1)]%string.

Definition fgCat : ActiveCat :=
  {| settingKey := "fg_pct"; statKey := "calculated_fg"; weight := 1 |}.

(** Turnovers of 1, 2 and 3 per game: mean 2, deviation 1. *)
Definition turnovers : gmap string PlayerStats :=
  list_to_map
    [("a", statsOf "A" [("gp", 1); ("to", 1); ("pts", 1); ("reb", 1)]);
     ("b", statsOf "B" [("gp", 1); ("to", 2); ("pts", 2); ("reb", 2)]);
     ("c", statsOf "C" [("gp", 1); ("to", 3); ("pts", 3); ("reb", 3)])]%string.

Definition toSettings : gmap string Q := list_to_map [("to", - (1))]%string.

Definition toCat : ActiveCat :=
  {| settingKey := "to"; statKey := "to"; weight := - (1) |}.

(** Turnovers weighted by -0.125. *)
Definition eighthSettings : gmap string Q := list_to_map [("to", - (1 # 8))]%string.

Definition eighthCat : ActiveCat :=
  {| settingKey := "to"; statKey := "to"; weight := - (1 # 8) |}.

(** Points and rebounds, each weighted by 0.004. *)
Definition tinySettings : gmap string Q :=
  list_to_map [("pts", 4 # 1000); ("reb", 4 # 1000)]%string.

(** One roster with the two players whose turnovers are 1 and 3. *)
Definition pair : list Roster := [rosterOf 1 ["a"; "c"]]%string.

(** Player "a" listed on two rosters. *)
Definition overlapping : list Roster :=
  [rosterOf 1 ["a"; "b"]; rosterOf 2 ["a"]]%string.

Definition ptsSettings : gmap string Q := list_to_map [("pts", 1)]%string.

Definition ptsCat : ActiveCat :=
  {| settingKey := "pts"; statKey := "pts"; weight := 1 |}.

Definition zOf (n : string) (total : Q) : PlayerZScore :=
  {| name := n; scores := ∅; totalZ := total |}.

(** Season and recent z-scores: "a" is in both maps, "b" only in the
    season map, "d" only in the recent one. *)
Definition seasonZ : gmap string PlayerZScore :=
  list_to_map [("a", zOf "A" 1); ("b", zOf "B" 2)]%string.

Definition recentZ : gmap string PlayerZScore :=
  list_to_map [("a", zOf "A" (- (1))); ("d", zOf "D" 3)]%string.

(** A bench player, a starter, and a record without games. *)
Definition benchPlayer : PlayerStats :=
  statsOf "Bench" [("gp", 10); ("pts", 30); ("reb", 20); ("ast", 10)].

Definition unplayed : PlayerStats :=
  statsOf "Unplayed" [("gp", 0); ("pts", 0)].

(** A streaming input: roster 1 of the sample league, two active slots
    and a bench slot, two days of schedule. *)
Definition metaOf (n t : string) : Streaming.PlayerMeta :=
  {| Streaming.full_name := Some n; Streaming.first_name := None;
     Streaming.last_name := None; Streaming.search_full_name := None;
     Streaming.meta_team := Some t; Streaming.position := Some "G"%string;
     Streaming.fantasy_positions := None |}.

Definition dayOf (d : string) (teams : list string) : Streaming.DailySchedule :=
  {| Streaming.date := d; Streaming.isoDate := d; Streaming.games := [];
     Streaming.teamsPlaying := teams |}.

Definition streamingInput : Streaming.StreamingInput :=
  {| Streaming.roster := Some (rosterOf 1 ["a"; "b"]%string);
     Streaming.allRosters := league;
     Streaming.rosterPositions := ["PG"; "SG"; "bn"]%string;
     Streaming.playerZScores :=
       list_to_map
         [("a", zOf "A" 1); ("x", zOf "X" 2); ("y", zOf "Y" 3);
          ("w", zOf "W" 5)]%string;
     Streaming.playersMap :=
       list_to_map
         [("a", metaOf "A" "LAL"); ("b", metaOf "B" "BOS");
          ("x", metaOf "X" "NYK"); ("y", metaOf "Y" "LAL");
          ("w", metaOf "W" "")]%string;
     Streaming.dailySchedule :=
       [dayOf "2025-01-01" ["LAL"; "NYK"]; dayOf "2025-01-02" ["LAL"; "BOS"]]%string;
     Streaming.teamGameMap := ∅;
     Streaming.matchups := None;
     Streaming.inputLeagueId := None |}.

End Samples.

(** ** Injury status (utils/injuryCache) *)

Module Injury.

(** The properties of a player record that the two helpers read. *)
Record PlayerData := {
  injury_status : option string;
  active : option bool;
  injury_start_date : option string;
  injury : option string;
  injury_details : option string
}.

Record InjuryDetails := {
  status : string;
  details : string
}.

(** A string property that is present and not empty. *)
Definition truthyText (o : option string) : option string :=
  match o with
  | Some s => if truthy s then Some s else None
  | None => None
  end.

(** The argument is [None] for a null or undefined record. *)
Definition getPlayerInjuryStatus (playerData : option PlayerData) : option string :=
  match playerData with
  | None => None
  | Some d =>
      match truthyText (injury_status d) with
      | Some s => Some s
      | None =>
          match active d with
          | Some false => Some "Inactive"%string
          | _ =>
              match truthyText (injury_start_date d) with
              | Some _ => Some "Injured"%string
              | None => None
              end
          end
      end
  end.

Definition getPlayerInjuryDetails (playerData : option PlayerData)
    : option InjuryDetails :=
  match playerData with
  | None => None
  | Some d =>
      match getPlayerInjuryStatus (Some d) with
      | None => None
      | Some status =>
          let details :=
            match truthyText (injury d) with
            | Some t => t
            | None =>
                match truthyText (injury_details d) with
                | Some t => t
                | None => "No details available"%string
                end
            end in
          Some {| status := status; details := details |}
      end
  end.

(** The [injuryMap] a roster view builds from the cached records: an
    entry for every player with injury details. *)
Definition injuryMap (injuriesData : gmap string PlayerData)
    : gmap string InjuryDetails :=
  fold_left
    (fun (m : gmap string InjuryDetails) (e : string * PlayerData) =>
       match getPlayerInjuryDetails (Some (snd e)) with
       | Some d => <[fst e := d]> m
       | None => m
       end)
    (map_to_list injuriesData) ∅.

End Injury.

(** ** Merging weekly stats (utils/recentStatsCache.ts, utils/sleeperStats.ts)

    Both files define [fetchLast14DaysStats]; after the fetch, each merges
    the array [weeklyData] of per-week stat objects into one object.  The
    merge loops are embedded as functions of [weeklyData]. *)

Module WeeklyStats.

Local Open Scope Q_scope.

(** [Number(record[key]) || 0] and [record[key] || 0]. *)
Definition numberOr0 (record : PlayerStats) (key : string) : Q :=
  default 0 (statFields record !! key).

Definition setField (record : PlayerStats) (key : string) (v : Q) : PlayerStats :=
  {| player_name := player_name record;
     statFields := <[key := v]> (statFields record) |}.

(** The keys summed without a condition, in the order of the source. *)
Definition summedKeys : list string :=
  ["gp"; "pts"; "reb"; "ast"; "stl"; "blk"; "to";
   "fgm"; "fga"; "ftm"; "fta"; "fg3m"; "fg3a"]%string.

(** The block that sums one week's record [pData] into [target]; [tf] is
    added only when the week's value is truthy. *)
Definition sumInto (target pData : PlayerStats) : PlayerStats :=
  let summed :=
    fold_left
      (fun t key => setField t key (numberOr0 t key + numberOr0 pData key))
      summedKeys target in
  match statFields pData !! "tf"%string with
  | Some tf =>
      if Qeq_bool tf 0 then summed
      else setField summed "tf" (numberOr0 summed "tf" + tf)
  | None => summed
  end.

(** The loop over the players of one week and the loop over the weeks,
    for an initial record that may depend on the week's record. *)
Definition mergeWeek (initial : PlayerStats -> PlayerStats)
    (mergedStats : gmap string PlayerStats) (weekStats : gmap string PlayerStats)
    : gmap string PlayerStats :=
  fold_left
    (fun (merged : gmap string PlayerStats) (e : string * PlayerStats) =>
       let target :=
         match merged !! fst e with
         | Some t => t
         | None => initial (snd e)
         end in
       <[fst e := sumInto target (snd e)]> merged)
    (map_to_list weekStats) mergedStats.

Definition mergeWeeks (initial : PlayerStats -> PlayerStats)
    (weeklyData : list (gmap string PlayerStats)) : gmap string PlayerStats :=
  fold_left (mergeWeek initial) weeklyData ∅.

(** utils/recentStatsCache.ts: a new player starts from a record of
    zeros with an empty name. *)
Definition zeroRecord : PlayerStats :=
  {| player_name := Some ""%string;
     statFields :=
       list_to_map
         [("gp", 0); ("pts", 0); ("reb", 0); ("ast", 0); ("stl", 0);
          ("blk", 0); ("to", 0); ("fgm", 0); ("fga", 0); ("ftm", 0);
          ("fta", 0); ("fg3m", 0); ("fg3a", 0); ("tf", 0)]%string |}.

Definition mergeRecentStats (weeklyData : list (gmap string PlayerStats))
    : gmap string PlayerStats :=
  mergeWeeks (fun _ => zeroRecord) weeklyData.

(** utils/sleeperStats.ts: a new player starts from
    [{ gp: 0, player_name: '', ...pData }], whose twelve counters are
    then reset to 0; [gp] is not among them. *)
Definition resetKeys : list string :=
  ["pts"; "reb"; "ast"; "stl"; "blk"; "to";
   "fgm"; "fga"; "ftm"; "fta"; "fg3m"; "fg3a"]%string.

Definition spreadRecord (pData : PlayerStats) : PlayerStats :=
  let copied :=
    {| player_name := match player_name pData with
                      | Some n => Some n
                      | None => Some ""%string
                      end;
       statFields := match statFields pData !! "gp"%string with
                     | Some _ => statFields pData
                     | None => <["gp"%string := 0]> (statFields pData)
                     end |} in
  fold_left (fun t key => setField t key 0) resetKeys copied.

Definition mergeSleeperStats (weeklyData : list (gmap string PlayerStats))
    : gmap string PlayerStats :=
  mergeWeeks spreadRecord weeklyData.

(** *** Quantities the properties are stated with *)

(** What a week reports for a player and key: [0] for a player or key
    the week does not have. *)
Definition weekValue (playerId key : string) (weekStats : gmap string PlayerStats)
    : Q :=
  match weekStats !! playerId with
  | Some pData => numberOr0 pData key
  | None => 0
  end.

Definition appearsIn (playerId : string) (weekStats : gmap string PlayerStats)
    : Prop :=
  is_Some (weekStats !! playerId).

End WeeklyStats.

(** ** Helpers of the roster view (ui/components/RosterView) *)

Module RosterView.

Local Open Scope Q_scope.

(** [getCategoryColor]. *)
Definition getCategoryColor (score : Q) : string :=
  if Qlt_bool 12 score then "#00ff00"
  else if Qle_bool 5 score then "#4caf50"
  else if Qle_bool (- (1)) score && Qle_bool score 1 then "#999999"
  else if Qlt_bool score (- (5)) then "#8b0000"
  else "#f44336".





End RosterView.

(** ** Display helpers of the consistency estimator (utils/consistencyRating) *)

Module ConsistencyDisplay.

Local Open Scope Q_scope.

Definition getRiskColor (riskLevel : string) : string :=
  if String.eqb riskLevel "Low" then "#4caf50"
  else if String.eqb riskLevel "Medium" then "#ff9800"
  else if String.eqb riskLevel "High" then "#f44336"
  else "#999999".

Definition formatConsistency (cv : Q) : string :=
  if Qeq_bool cv 0 then "N/A"
  else if Qlt_bool cv (15 # 100) then "Very Consistent"
  else if Qlt_bool cv (25 # 100) then "Consistent"
  else if Qlt_bool cv (5 # 10) then "Moderate"
  else "Highly Volatile".

End ConsistencyDisplay.

(** ** The schedule window (services/scheduleService)

    [getScheduleWindow] groups the games of the season that fall into a
    window of days by their date string.  A [Date] is its time stamp in
    milliseconds.  Reading a date string ([parseDateOnly], [None] for an
    Invalid Date) and printing a time stamp ([toISOString]) belong to
    the language and are parameters; the games are the list that
    [loadSchedule] resolves to.  The model covers the [daily] part of
    the result, which [teamGameMap] does not influence. *)

Module Schedule.

Import Streaming.

Local Open Scope Z_scope.

Definition DAY_MS : Z := 86400000.

(** [toStartOfDayUTC]: the midnight at or before a time stamp, for the
    time stamps a [Date] holds from the year 100 on (for the years 0 to
    99 [Date.UTC] reads the year as one of the 1900s). *)
Definition toStartOfDayUTC (date : Z) : Z := DAY_MS * (date / DAY_MS).

(** [Array.from(new Set(xs))] appended to what was seen already:
    the first occurrence of each element, in order. *)
Fixpoint uniqueInto (seen xs : list string) : list string :=
  match xs with
  | [] => seen
  | x :: rest =>
      if includes seen x then uniqueInto seen rest
      else uniqueInto (seen ++ [x]) rest
  end.

Definition unique (xs : list string) : list string := uniqueInto [] xs.

(** [[game.homeTeam, game.awayTeam].filter(Boolean)] *)
Definition teamsOf (game : NBAGameSummary) : list string :=
  List.filter truthy [homeTeam game; awayTeam game].

(** The two updates of the day entry of a game. *)
Definition addGame (game : NBAGameSummary) (dayEntry : DailySchedule) : DailySchedule :=
  {| date := date dayEntry;
     isoDate := isoDate dayEntry;
     games := games dayEntry ++ [game];
     teamsPlaying := unique (teamsPlaying dayEntry ++ teamsOf game) |}.

(** [dailyMap] is a [Map] keyed by date string: its entries in the
    order of their insertion. *)
Definition has (dailyMap : list DailySchedule) (d : string) : bool :=
  existsb (fun dayEntry => String.eqb (date dayEntry) d) dailyMap.

Fixpoint update (d : string) (f : DailySchedule -> DailySchedule)
    (dailyMap : list DailySchedule) : list DailySchedule :=
  match dailyMap with
  | [] => []
  | dayEntry :: rest =>
      if String.eqb (date dayEntry) d then f dayEntry :: rest
      else dayEntry :: update d f rest
  end.

Section Window.

Variable parseDateOnly : string -> option Z.
Variable toISOString : Z -> string.

(** One round of the loop over the games.  A comparison with an Invalid
    Date is false, so such a game is not skipped, and [toISOString]
    throws on it when its day entry has to be created: [None]. *)
Definition addToWindow (start end_ : Z) (dailyMap : list DailySchedule)
    (game : NBAGameSummary) : option (list DailySchedule) :=
  let gameDay := parseDateOnly (gameDate game) in
  let skipped :=
    match gameDay with
    | Some t => (t <? start) || (end_ <=? t)
    | None => false
    end in
  if skipped then Some dailyMap
  else
    let created :=
      if has dailyMap (gameDate game) then Some dailyMap
      else
        match gameDay with
        | Some t =>
            Some (dailyMap ++
                    [{| date := gameDate game; isoDate := toISOString t;
                        games := []; teamsPlaying := [] |}])
        | None => None
        end in
    match created with
    | Some dailyMap' => Some (update (gameDate game) (addGame game) dailyMap')
    | None => None
    end.

Fixpoint collectDays (start end_ : Z) (dailyMap : list DailySchedule)
    (games : list NBAGameSummary) : option (list DailySchedule) :=
  match games with
  | [] => Some dailyMap
  | game :: rest =>
      match addToWindow start end_ dailyMap game with
      | Some dailyMap' => collectDays start end_ dailyMap' rest
      | None => None
      end
  end.

(** The comparator of the chronological sort: [a.date > b.date ? 1 : -1]. *)
Definition byDate (a b : DailySchedule) : Q :=
  if String.ltb (date b) (date a) then 1%Q else (-1)%Q.

(** The [daily] list of [getScheduleWindow(days, startDate)]; [None]
    when the call throws. *)
Definition getScheduleWindow_daily (days startDate : Z)
    (games : list NBAGameSummary) : option (list DailySchedule) :=
  let start := toStartOfDayUTC startDate in
  let end_ := start + days * DAY_MS in
  match collectDays start end_ [] games with
  | Some dailyMap => Some (sortBy byDate dailyMap)
  | None => None
  end.

(** A game is in the window when its day is read and lies in it. *)
Definition inWindow (days startDate : Z) (game : NBAGameSummary) : bool :=
  match parseDateOnly (gameDate game) with
  | Some t =>
      (toStartOfDayUTC startDate <=? t)
      && (t <? toStartOfDayUTC startDate + days * DAY_MS)
  | None => false
  end.

(** *** What the loop keeps true

    After the games [seen], a day entry holds the seen games of its
    date, its date lies in the window, and its teams are those of its
    games, each once. *)
Definition entryOk (start end_ : Z) (seen : list NBAGameSummary)
    (dayEntry : DailySchedule) : Prop :=
  games dayEntry
  = List.filter (fun game => String.eqb (gameDate game) (date dayEntry)) seen /\
  games dayEntry <> [] /\
  (exists t, parseDateOnly (date dayEntry) = Some t /\ start <= t < end_ /\
             isoDate dayEntry = toISOString t) /\
  List.NoDup (teamsPlaying dayEntry) /\
  (forall team, In team (teamsPlaying dayEntry) <->
                exists game, In game (games dayEntry) /\ In team (teamsOf game)).

Definition loopInv (start end_ : Z) (seen : list NBAGameSummary)
    (dailyMap : list DailySchedule) : Prop :=
  List.NoDup (map date dailyMap) /\
  List.Forall (entryOk start end_ seen) dailyMap /\
  (forall game, In game seen ->
     exists t, parseDateOnly (gameDate game) = Some t /\
               (start <= t < end_ -> In (gameDate game) (map date dailyMap))).

End Window.

End Schedule.

(** ** Further sample data *)

Module MoreSamples.

Import ZScore.
Local Open Scope Q_scope.

(** Blocks, which no record of [Samples.turnovers] carries. *)
Definition blkSettings : gmap string Q := list_to_map [("blk", 2)]%string.

Definition blkCat : ActiveCat :=
  {| settingKey := "blk"; statKey := "blk"; weight := 2 |}.

(** Steals configured under both of their setting keys. *)
Definition stealSettings : gmap string Q :=
  list_to_map [("st", 1); ("stl", 1)]%string.

Definition stCat : ActiveCat :=
  {| settingKey := "st"; statKey := "stl"; weight := 1 |}.

Definition stlCat : ActiveCat :=
  {| settingKey := "stl"; statKey := "stl"; weight := 1 |}.

(** An all-star line: 30 points, 8 rebounds and 8 assists a game. *)
Definition allStar : PlayerStats :=
  Samples.statsOf "Star" [("gp", 10); ("pts", 300); ("reb", 80); ("ast", 80)].

(** Two weeks of stats: "a" plays in both, "b" in the first only and
    "c" in the second only. *)
Definition weekOne : gmap string PlayerStats :=
  list_to_map
    [("a", Samples.statsOf "A" [("gp", 2); ("pts", 20); ("tf", 1)]);
     ("b", Samples.statsOf "B" [("gp", 1); ("pts", 5)])]%string.

Definition weekTwo : gmap string PlayerStats :=
  list_to_map
    [("a", Samples.statsOf "A" [("gp", 3); ("pts", 30)]);
     ("c", Samples.statsOf "C" [("gp", 1); ("pts", 9)])]%string.

(** A stretch of schedule around the new year of 2025: the days it
    names with their time stamps, and the ISO form of those. *)
Definition newYear : Z := 1735689600000.

(** One o'clock in the morning of that day. *)
Definition oneAM : Z := (newYear + 3600000)%Z.

Definition parseSample (dateStr : string) : option Z :=
  if String.eqb dateStr "2025-01-01" then Some newYear
  else if String.eqb dateStr "2025-01-02" then Some (newYear + 86400000)%Z
  else if String.eqb dateStr "2025-01-09" then Some (newYear + 8 * 86400000)%Z
  else None.

Definition isoSample (t : Z) : string :=
  if (t =? newYear)%Z then "2025-01-01T00:00:00.000Z"
  else if (t =? newYear + 86400000)%Z then "2025-01-02T00:00:00.000Z"
  else "2025-01-09T00:00:00.000Z".

Definition gameOf (id d home away : string) : Streaming.NBAGameSummary :=
  {| Streaming.gameId := id; Streaming.gameDate := d;
     Streaming.tipoffUTC := (d +:+ "T19:00:00Z")%string;
     Streaming.homeTeam := home; Streaming.awayTeam := away |}.

(** Four games: the second day comes first, one game lacks its away
    team, and the last lies beyond a window of seven days. *)
Definition sampleGames : list Streaming.NBAGameSummary :=
  [gameOf "1" "2025-01-02" "BOS" "LAL"; gameOf "2" "2025-01-01" "LAL" "NYK";
   gameOf "3" "2025-01-01" "GSW" ""; gameOf "4" "2025-01-09" "LAL" "BOS"]%string.

(** The sample streaming input over another schedule. *)
Definition scheduledInput (daily : list Streaming.DailySchedule)
    : Streaming.StreamingInput :=
  {| Streaming.roster := Streaming.roster Samples.streamingInput;
     Streaming.allRosters := Streaming.allRosters Samples.streamingInput;
     Streaming.rosterPositions := Streaming.rosterPositions Samples.streamingInput;
     Streaming.playerZScores := Streaming.playerZScores Samples.streamingInput;
     Streaming.playersMap := Streaming.playersMap Samples.streamingInput;
     Streaming.dailySchedule := daily;
     Streaming.teamGameMap := Streaming.teamGameMap Samples.streamingInput;
     Streaming.matchups := Streaming.matchups Samples.streamingInput;
     Streaming.inputLeagueId := Streaming.inputLeagueId Samples.streamingInput |}.

(** The sample streaming input with the team index of the sample
    games. *)
Definition gamesInput : Streaming.StreamingInput :=
  {| Streaming.roster := Streaming.roster Samples.streamingInput;
     Streaming.allRosters := Streaming.allRosters Samples.streamingInput;
     Streaming.rosterPositions := Streaming.rosterPositions Samples.streamingInput;
     Streaming.playerZScores := Streaming.playerZScores Samples.streamingInput;
     Streaming.playersMap := Streaming.playersMap Samples.streamingInput;
     Streaming.dailySchedule := Streaming.dailySchedule Samples.streamingInput;
     Streaming.teamGameMap :=
       list_to_map
         [("LAL",
           [gameOf "2" "2025-01-01" "LAL" "NYK"; gameOf "1" "2025-01-02" "BOS" "LAL";
            gameOf "4" "2025-01-09" "LAL" "BOS"]);
          ("NYK", [gameOf "2" "2025-01-01" "LAL" "NYK"]);
          ("BOS",
           [gameOf "1" "2025-01-02" "BOS" "LAL"; gameOf "4" "2025-01-09" "LAL" "BOS"]);
          ("GSW", [gameOf "3" "2025-01-01" "GSW" ""])]%string;
     Streaming.matchups := Streaming.matchups Samples.streamingInput;
     Streaming.inputLeagueId := Streaming.inputLeagueId Samples.streamingInput |}.

End MoreSamples.

Set Warnings "-inexact-float".

(** * The engine on binary64 numbers

    The stored values of the z-score engine, the status of a trend and
    the tier of the consistency estimate depend on how a JavaScript
    number rounds.  The code of these three functions is embedded here a
    second time with a number being an IEEE 754 binary64 value, the
    arithmetic of the language being the arithmetic of the machine. *)

(** ** Numbers *)

Module Double.

Import FloatClass PrimFloat FloatOps SpecFloat.
Local Open Scope float_scope.

(** The number of an integer, as of a count or an array length. *)
Definition ofZ (z : Z) : float := SF2Prim (binary_normalize prec emax z 0 false).
Definition ofNat (n : nat) : float := ofZ (Z.of_nat n).

(** A number is truthy unless it is NaN, [0] or [-0]. *)
Definition truthyNumber (x : float) : bool := negb (is_nan x || (x =? 0)).

(** [x || 0] *)
Definition orZero (x : float) : float := if truthyNumber x then x else 0.

Definition isNegZero (x : float) : bool :=
  match classify x with
  | NZero => true
  | _ => false
  end.

Definition isPosZero (x : float) : bool :=
  match classify x with
  | PZero => true
  | _ => false
  end.

(** [Math.max] and [Math.min] on two numbers: NaN when an argument is
    NaN, and [-0] counts as smaller than [0]. *)
Definition Math_max (a b : float) : float :=
  if is_nan a || is_nan b then nan
  else if a <? b then b
  else if b <? a then a
  else if isNegZero a then b else a.

Definition Math_min (a b : float) : float :=
  if is_nan a || is_nan b then nan
  else if a <? b then a
  else if b <? a then b
  else if isPosZero a then b else a.

(** The integer [n] that [Number.prototype.toFixed] selects for the
    magnitude [m * 2^e]: [n / 10^digits] is as close to it as possible,
    and of two such [n] the larger. *)
Definition scaledInteger (digits : nat) (m : positive) (e : Z) : Z :=
  let scale := (10 ^ Z.of_nat digits)%Z in
  ((2 * (Zpos m * scale) * 2 ^ Z.max e 0 + 2 ^ Z.max (- e) 0)
   / 2 ^ (Z.max (- e) 0 + 1))%Z.

(** [parseFloat(x.toFixed(digits))].  [toFixed] prints the decimal
    [n / 10^digits] with the sign of [x], and [parseFloat] reads it back
    as the nearest number; NaN and the infinities print and read as
    themselves, and so does a magnitude of [1e21] or more. *)
Definition toFixed (digits : nat) (x : float) : float :=
  match Prim2SF x with
  | S754_finite s m e =>
      match scaledInteger digits m e with
      | Zpos n =>
          SF2Prim (SFdiv prec emax (S754_finite s n 0)
                     (S754_finite false (Z.to_pos (10 ^ Z.of_nat digits)) 0))
      | _ => if s then (-0) else 0
      end
  | S754_zero _ => 0
  | _ => x
  end.

(** A running total that starts at [0]: [total += v] for every value. *)
Definition total (values : list float) : float := fold_left add values 0.

(** The [add] fold of mathjs over a non-empty array: it starts from the
    first value.  mathjs throws on an empty array, which the embedded
    code never passes. *)
Definition sum (values : list float) : float :=
  match values with
  | [] => 0
  | v :: rest => fold_left add rest v
  end.

(** mathjs [mean]. *)
Definition mean (values : list float) : float :=
  sum values / ofNat (length values).

(** mathjs [variance] with its default normalization, ['unbiased']: the
    sum of the squared deviations from the mean divided by [n - 1], and
    [0] for a single value. *)
Definition sumSquares (values : list float) : float :=
  let m := mean values in
  sum (map (fun v => (v - m) * (v - m)) values).

Definition variance (values : list float) : float :=
  let s := sumSquares values in
  if is_nan s then s
  else if (length values =? 1)%nat then 0
  else s / ofNat (length values - 1).

(** mathjs [std(values)]. *)
Definition std (values : list float) : float := sqrt (variance values).

(** The population standard deviation, mathjs [std(values,
    'uncorrected')]: the divisor is the number of values. *)
Definition populationStd (values : list float) : float :=
  let s := sumSquares values in
  sqrt (if is_nan s then s else s / ofNat (length values)).

End Double.

(** ** The z-score engine *)

Module ZScoreDouble.

Import PrimFloat.
Local Open Scope float_scope.

(** The raw stat record of a player and the computed z-scores, with
    their numbers. *)
Record PlayerStats := {
  player_name : option string;
  statFields : gmap string float
}.

Record PlayerZScore := {
  name : string;
  scores : gmap string float;
  totalZ : float
}.

(** [Number(player[key] || 0)] *)
Definition statNumber (player : PlayerStats) (key : string) : float :=
  match statFields player !! key with
  | Some v => Double.orZero v
  | None => 0
  end.

(** [Number(p.gp)]: NaN when the property is missing. *)
Definition gpNumber (p : PlayerStats) : float :=
  default nan (statFields p !! "gp"%string).

Definition getSplitStats (player : PlayerStats) (type : ZScore.SplitType)
    : float * float :=
  match type with
  | ZScore.fg => (statNumber player "fgm", statNumber player "fga")
  | ZScore.ft => (statNumber player "ftm", statNumber player "fta")
  | ZScore.threePt => (statNumber player "fg3m", statNumber player "fg3a")
  end.

Record ActiveCat := {
  settingKey : string;
  statKey : string;
  weight : float
}.

(** Step 1.  [scoringSettings] is the list of the properties of the
    object in the order of [Object.keys]; its keys are distinct. *)
Definition activeCats (scoringSettings : list (string * float)) : list ActiveCat :=
  List.filter (fun cat => truthy (statKey cat))
    (map (fun kw : string * float =>
            {| settingKey := fst kw;
               statKey := default (fst kw) (ZScore.SETTINGS_TO_STATS_MAP !! fst kw);
               weight := snd kw |})
       (List.filter
          (fun kw : string * float =>
             negb (snd kw =? 0) && negb (includes ZScore.IGNORED_KEYS (fst kw)))
          scoringSettings)).

(** [Number(stat.gp) > 0] *)
Definition gpPositive (stat : PlayerStats) : bool := 0 <? gpNumber stat.

(** Step 3. *)
Definition populationStats (populationIds : list string)
    (allStats : gmap string PlayerStats) : list PlayerStats :=
  List.filter gpPositive (omap (fun id => allStats !! id) populationIds).

Record Baseline := {
  avg : float;
  std : float;
  avgPct : float
}.

(** The [totalM]/[totalA] accumulation over the population. *)
Definition splitTotals (type : ZScore.SplitType) (populationStats : list PlayerStats)
    : float * float :=
  fold_left
    (fun (acc : float * float) p =>
       let '(m, a) := getSplitStats p type in (fst acc + m, snd acc + a))
    populationStats (0, 0).

Definition leagueAvgPct (type : ZScore.SplitType) (populationStats : list PlayerStats)
    : float :=
  let '(totalM, totalA) := splitTotals type populationStats in
  if 0 <? totalA then totalM / totalA else 0.

(** Step 4, per category: the values of the population and the league
    make rate. *)
Definition categoryValues (cat : ActiveCat) (populationStats : list PlayerStats)
    : list float * float :=
  if includes ZScore.IMPACT_STATS (statKey cat) then
    let type := ZScore.impactType (statKey cat) in
    let pct := leagueAvgPct type populationStats in
    (map (fun p =>
            let '(m, a) := getSplitStats p type in
            let gp := gpNumber p in
            let pgMade := m / gp in
            let pgAtt := a / gp in
            pgMade - pgAtt * pct)
       populationStats, pct)
  else
    (map (fun p =>
            let rawVal := statNumber p (statKey cat) in
            if includes ZScore.PURE_RATIO_STATS (statKey cat) then rawVal
            else rawVal / gpNumber p)
       populationStats, 0).

Definition baselineOf (cat : ActiveCat) (populationStats : list PlayerStats) : Baseline :=
  let '(values, pct) := categoryValues cat populationStats in
  let stdDev := Double.std values in
  {| avg := Double.mean values;
     std := if stdDev =? 0 then 1 else stdDev;
     avgPct := pct |}.

Definition leagueMath (cats : list ActiveCat) (populationStats : list PlayerStats)
    : gmap string Baseline :=
  fold_left (fun m cat => <[settingKey cat := baselineOf cat populationStats]> m)
    cats ∅.

(** Step 5, per player and category: the value [val], with the make
    rate read as [math.avgPct || 0]. *)
Definition playerValue (cat : ActiveCat) (math : Baseline) (pStats : PlayerStats)
    : float :=
  let gp := gpNumber pStats in
  if includes ZScore.IMPACT_STATS (statKey cat) then
    let type := ZScore.impactType (statKey cat) in
    let '(m, a) := getSplitStats pStats type in
    let pgMade := m / gp in
    let pgAtt := a / gp in
    pgMade - pgAtt * Double.orZero (avgPct math)
  else
    let rawVal := statNumber pStats (statKey cat) in
    if includes ZScore.PURE_RATIO_STATS (statKey cat) then rawVal else rawVal / gp.

(** The weighted, unrounded [z] of one category. *)
Definition categoryZ (cat : ActiveCat) (math : Baseline) (pStats : PlayerStats)
    : float :=
  let val := playerValue cat math pStats in
  let z := (val - avg math) / std math in
  let z := if weight cat <? 0 then z * (-1) else z in
  z * abs (weight cat).

(** [leagueMath[cat.settingKey]]; the entry exists for every active
    category, so the fallback is never read. *)
Definition mathOf (lm : gmap string Baseline) (cat : ActiveCat) : Baseline :=
  default {| avg := 0; std := 1; avgPct := 0 |} (lm !! settingKey cat).

Definition scoreLoop (cats : list ActiveCat) (lm : gmap string Baseline)
    (pStats : PlayerStats) : gmap string float * float :=
  fold_left
    (fun (acc : gmap string float * float) cat =>
       let z := categoryZ cat (mathOf lm cat) pStats in
       (<[settingKey cat := Double.toFixed 2 z]> (fst acc), snd acc + z))
    cats (∅, 0).

Definition playerEntry (cats : list ActiveCat) (lm : gmap string Baseline)
    (pStats : PlayerStats) : PlayerZScore :=
  let '(scores, totalZ) := scoreLoop cats lm pStats in
  {| name := match player_name pStats with
             | Some n => if truthy n then n else "Unknown Player"
             | None => "Unknown Player"
             end;
     scores := scores;
     totalZ := Double.toFixed 2 totalZ |}.

(** [!pStats.gp] is false. *)
Definition gpTruthy (pStats : PlayerStats) : bool :=
  match statFields pStats !! "gp"%string with
  | Some g => Double.truthyNumber g
  | None => false
  end.

Definition calculateZScores (leagueRosters : list Roster)
    (allStats : gmap string PlayerStats) (scoringSettings : list (string * float))
    : gmap string PlayerZScore :=
  let cats := activeCats scoringSettings in
  if (length cats =? 0)%nat then ∅
  else
    let ids := ZScore.populationIds leagueRosters in
    let pop := populationStats ids allStats in
    if (length pop =? 0)%nat then ∅
    else
      let lm := leagueMath cats pop in
      fold_left
        (fun result id =>
           match allStats !! id with
           | None => result
           | Some pStats =>
               if gpTruthy pStats then <[id := playerEntry cats lm pStats]> result
               else result
           end)
        ids ∅.

(** *** Quantities the properties are stated with *)

(** The ids of the rosters, in order and with their repetitions, whose
    record exists with [gp > 0], and their records. *)
Definition qualifies (allStats : gmap string PlayerStats) (id : string) : bool :=
  match allStats !! id with
  | Some p => gpPositive p
  | None => false
  end.

Definition qualifyingIds (leagueRosters : list Roster)
    (allStats : gmap string PlayerStats) : list string :=
  List.filter (qualifies allStats) (ZScore.populationIds leagueRosters).

Definition population (leagueRosters : list Roster)
    (allStats : gmap string PlayerStats) : list PlayerStats :=
  omap (fun id => allStats !! id) (qualifyingIds leagueRosters allStats).

(** The baselines of a run. *)
Definition baselines (leagueRosters : list Roster)
    (allStats : gmap string PlayerStats) (scoringSettings : list (string * float))
    : gmap string Baseline :=
  leagueMath (activeCats scoringSettings) (population leagueRosters allStats).

(** The population with set semantics: every id of the rosters once. *)
Definition distinctPopulation (leagueRosters : list Roster)
    (allStats : gmap string PlayerStats) : list PlayerStats :=
  omap (fun id => allStats !! id)
    (List.filter (qualifies allStats)
       (remove_dups (ZScore.populationIds leagueRosters))).

Definition made (type : ZScore.SplitType) (p : PlayerStats) : float :=
  fst (getSplitStats p type).
Definition attempted (type : ZScore.SplitType) (p : PlayerStats) : float :=
  snd (getSplitStats p type).

Definition totalMade (type : ZScore.SplitType) (pop : list PlayerStats) : float :=
  Double.total (map (made type) pop).
Definition totalAttempted (type : ZScore.SplitType) (pop : list PlayerStats) : float :=
  Double.total (map (attempted type) pop).

(** The league make rate of an Impact category. *)
Definition leagueRate (type : ZScore.SplitType) (pop : list PlayerStats) : float :=
  if 0 <? totalAttempted type pop
  then totalMade type pop / totalAttempted type pop
  else 0.

Definition perGameMade (type : ZScore.SplitType) (p : PlayerStats) : float :=
  made type p / gpNumber p.
Definition perGameAttempted (type : ZScore.SplitType) (p : PlayerStats) : float :=
  attempted type p / gpNumber p.

(** The volume-weighted impact of a player against a make rate. *)
Definition impactValue (type : ZScore.SplitType) (rate : float) (p : PlayerStats)
    : float :=
  perGameMade type p - perGameAttempted type p * rate.

(** The category value of a member of the population [pop]. *)
Definition categoryValue (cat : ActiveCat) (pop : list PlayerStats) (p : PlayerStats)
    : float :=
  if includes ZScore.IMPACT_STATS (statKey cat) then
    impactValue (ZScore.impactType (statKey cat))
      (leagueRate (ZScore.impactType (statKey cat)) pop) p
  else if includes ZScore.PURE_RATIO_STATS (statKey cat) then statNumber p (statKey cat)
  else statNumber p (statKey cat) / gpNumber p.

(** Direction and magnitude of a weight applied to a raw z. *)
Definition weighted (w rawZ : float) : float :=
  (if w <? 0 then rawZ * (-1) else rawZ) * abs w.

(** The standard deviation as stored in a baseline: [1] in place of [0]. *)
Definition flooredStd (s : float) : float := if s =? 0 then 1 else s.

End ZScoreDouble.

(** ** The trend detector *)

Module TrendDouble.

Import PrimFloat.
Import ZScoreDouble.
Local Open Scope float_scope.

(** The [reasoning] text is presentation only and is left out. *)
Record PlayerTrend := {
  playerId : string;
  playerName : string;
  status : Trend.TrendStatus;
  seasonZ : float;
  recentZ : float;
  zDifference : float;
  confidenceScore : float
}.

Definition BUY_LOW_THRESHOLD : float := -1.5.
Definition SELL_HIGH_THRESHOLD : float := 1.5.

(** The [if]/[else if] chain that sets [status]. *)
Definition classify (seasonTotalZ recentTotalZ : float) : Trend.TrendStatus :=
  let zDifference := recentTotalZ - seasonTotalZ in
  if (0.5 <? seasonTotalZ) && (zDifference <? BUY_LOW_THRESHOLD)
  then Trend.BUY_LOW
  else if (seasonTotalZ <? -0.5) && (SELL_HIGH_THRESHOLD <? zDifference)
  then Trend.SELL_HIGH
  else if (seasonTotalZ + 1.0 <? recentTotalZ) && (seasonTotalZ <? 0.5)
  then Trend.BREAKOUT
  else if (recentTotalZ <? seasonTotalZ - 1.0) && (0.5 <? seasonTotalZ)
  then Trend.DECLINE
  else Trend.NEUTRAL.

(** [stats[playerId]?.gp || 0] *)
Definition gpOrZero (stats : gmap string PlayerStats) (playerId : string) : float :=
  match stats !! playerId with
  | Some p =>
      match statFields p !! "gp"%string with
      | Some g => Double.orZero g
      | None => 0
      end
  | None => 0
  end.

Definition confidence (recentGP seasonGP zDifference : float) : float :=
  let recentConfidence :=
    Double.Math_min 100 (recentGP / Double.Math_max seasonGP 1 * 100) in
  let magnitudeConfidence := Double.Math_min 100 (abs zDifference * 10) in
  recentConfidence * 0.6 + magnitudeConfidence * 0.4.

(** The record pushed for a player found in both maps. *)
Definition trendOf (seasonStats recentStats : gmap string PlayerStats)
    (playerId : string) (seasonZ recentZ : PlayerZScore) : PlayerTrend :=
  let seasonTotalZ := totalZ seasonZ in
  let recentTotalZ := totalZ recentZ in
  let zDifference := recentTotalZ - seasonTotalZ in
  let recentGP := gpOrZero recentStats playerId in
  let seasonGP := gpOrZero seasonStats playerId in
  {| playerId := playerId;
     playerName := name seasonZ;
     status := classify seasonTotalZ recentTotalZ;
     seasonZ := Double.toFixed 2 seasonTotalZ;
     recentZ := Double.toFixed 2 recentTotalZ;
     zDifference := Double.toFixed 2 zDifference;
     confidenceScore := Double.toFixed 1 (confidence recentGP seasonGP zDifference) |}.

(** The [trends] array of [calculateTrends]: the loop over
    [Object.keys(seasonZScores)], where [seasonZScores] is the list of
    the properties of the object in that order, with distinct keys.  A
    player missing from the recent map pushes nothing.  The four
    candidate lists are filters and sorts of this array. *)
Definition calculateTrends_trends (seasonZScores : list (string * PlayerZScore))
    (recentZScores : gmap string PlayerZScore)
    (seasonStats recentStats : gmap string PlayerStats) : list PlayerTrend :=
  omap (fun entry : string * PlayerZScore =>
          match recentZScores !! fst entry with
          | None => None
          | Some recentZ =>
              Some (trendOf seasonStats recentStats (fst entry) (snd entry) recentZ)
          end)
    seasonZScores.

End TrendDouble.

(** ** The consistency estimator *)

Module ConsistencyDouble.

Import PrimFloat.
Import ZScoreDouble.
Local Open Scope float_scope.

Record ConsistencyMetrics := {
  mean : float;
  std : float;
  cv : float;
  riskLevel : string
}.

(** [playerStats[key] || 0] *)
Definition field (playerStats : PlayerStats) (key : string) : float :=
  match statFields playerStats !! key with
  | Some v => Double.orZero v
  | None => 0
  end.

Definition ppg (playerStats : PlayerStats) (gp : float) : float :=
  field playerStats "pts" / gp.
Definition rpg (playerStats : PlayerStats) (gp : float) : float :=
  field playerStats "reb" / gp.
Definition apg (playerStats : PlayerStats) (gp : float) : float :=
  field playerStats "ast" / gp.

Definition usageScore (playerStats : PlayerStats) (gp : float) : float :=
  ppg playerStats gp + rpg playerStats gp * 0.5 + apg playerStats gp * 0.7.

(** The final value of the variable [estimatedCV]. *)
Definition estimatedCV (playerStats : PlayerStats) (gp : float) : float :=
  let usage := usageScore playerStats gp in
  let base :=
    if 20 <? usage then 0.15
    else if 12 <? usage then 0.22
    else if 6 <? usage then 0.35
    else 0.5 in
  let statVariance :=
    abs (ppg playerStats gp - rpg playerStats gp - apg playerStats gp)
    / Double.Math_max usage 1 in
  base + statVariance * 0.05.

Definition riskLevelOf (estimatedCV : float) : string :=
  if 0.4 <? estimatedCV then "High"
  else if 0.25 <? estimatedCV then "Medium"
  else "Low".

Definition notAvailable : ConsistencyMetrics :=
  {| mean := 0; std := 0; cv := 0; riskLevel := "N/A" |}.

(** The argument is [None] for a null or undefined record.  The guard
    [!playerStats.gp || playerStats.gp === 0] holds for a missing, NaN or
    zero [gp]; past it [playerStats.gp || 1] is [gp]. *)
Definition calculateConsistency (playerStats : option PlayerStats)
    : ConsistencyMetrics :=
  match playerStats with
  | None => notAvailable
  | Some ps =>
      match statFields ps !! "gp"%string with
      | None => notAvailable
      | Some gp =>
          if negb (Double.truthyNumber gp) || (gp =? 0) then notAvailable
          else
            let est := estimatedCV ps gp in
            {| mean := Double.toFixed 2 (ppg ps gp);
               std := Double.toFixed 2 est;
               cv := Double.toFixed 3 est;
               riskLevel := riskLevelOf est |}
      end
  end.

End ConsistencyDouble.

(** ** Sample data on binary64 *)

Module DoubleSamples.

Import PrimFloat.
Import ZScoreDouble.
Local Open Scope float_scope.

Definition statsOf (n : string) (l : list (string * float)) : PlayerStats :=
  {| player_name := Some n; statFields := list_to_map l |}.

(** Shooting volumes: the league makes 16 of 30 field goals. *)
Definition shooterA : PlayerStats :=
  statsOf "A" [("gp", 2); ("fgm", 9); ("fga", 10)]%string.

Definition shooting : gmap string PlayerStats :=
  list_to_map
    [("a", shooterA);
     ("b", statsOf "B" [("gp", 1); ("fgm", 2); ("fga", 8)]);
     ("c", statsOf "C" [("gp", 4); ("fgm", 5); ("fga", 12)])]%string.

Definition fgSettings : list (string * float) := [("fg_pct"%string, 1)].

Definition fgCat : ActiveCat :=
  {| settingKey := "fg_pct"; statKey := "calculated_fg"; weight := 1 |}.

(** Turnovers, points and rebounds of 1, 2 and 3 per game: mean 2,
    deviation 1. *)
Definition playerA : PlayerStats :=
  statsOf "A" [("gp", 1); ("to", 1); ("pts", 1); ("reb", 1)]%string.
Definition playerB : PlayerStats :=
  statsOf "B" [("gp", 1); ("to", 2); ("pts", 2); ("reb", 2)]%string.
Definition playerC : PlayerStats :=
  statsOf "C" [("gp", 1); ("to", 3); ("pts", 3); ("reb", 3)]%string.

Definition turnovers : gmap string PlayerStats :=
  list_to_map [("a", playerA); ("b", playerB); ("c", playerC)]%string.

Definition toSettings : list (string * float) := [("to"%string, -1)].

Definition toCat : ActiveCat :=
  {| settingKey := "to"; statKey := "to"; weight := -1 |}.

(** Turnovers weighted by -0.125. *)
Definition eighthSettings : list (string * float) := [("to"%string, -0.125)].

Definition eighthCat : ActiveCat :=
  {| settingKey := "to"; statKey := "to"; weight := -0.125 |}.

(** Points and rebounds, each weighted by 0.004. *)
Definition tinySettings : list (string * float) :=
  [("pts"%string, 0.004); ("reb"%string, 0.004)].

Definition ptsSettings : list (string * float) := [("pts"%string, 1)].

Definition ptsCat : ActiveCat :=
  {| settingKey := "pts"; statKey := "pts"; weight := 1 |}.

(** Three players who all score 0.1 points a game. *)
Definition tenth (n : string) : PlayerStats :=
  statsOf n [("gp", 1); ("pts", 0.1)]%string.

Definition tenths : gmap string PlayerStats :=
  list_to_map [("a", tenth "A"); ("b", tenth "B"); ("c", tenth "C")]%string.

Definition zOf (n : string) (total : float) : PlayerZScore :=
  {| name := n; scores := ∅; totalZ := total |}.

(** Season and recent z-scores: "a" is in both maps, "b" only in the
    season map, "d" only in the recent one. *)
Definition seasonZ : list (string * PlayerZScore) :=
  [("a", zOf "A" 1); ("b", zOf "B" 2)]%string.

Definition recentZ : gmap string PlayerZScore :=
  list_to_map [("a", zOf "A" (-1)); ("d", zOf "D" 3)]%string.

(** A bench player, a role player whose usage score is a rounding step
    above 6, and a record without games. *)
Definition benchPlayer : PlayerStats :=
  statsOf "Bench" [("gp", 10); ("pts", 30); ("reb", 20); ("ast", 10)]%string.

Definition rolePlayer : PlayerStats :=
  statsOf "Role" [("gp", 3); ("pts", 6); ("reb", 17); ("ast", 5)]%string.

Definition unplayed : PlayerStats :=
  statsOf "Unplayed" [("gp", 0); ("pts", 0)]%string.

End DoubleSamples.

(** * Properties *)

(** ** Facts about the number model *)

Module NumFacts.

Local Open Scope Q_scope.

Lemma Qlt_bool_iff x y : Qlt_bool x y = true <-> x < y.
Proof.
  unfold Qlt_bool. rewrite negb_true_iff. split; intros H.
  - apply Qnot_le_lt. intros Hle. apply Qle_bool_iff in Hle. congruence.
  - destruct (Qle_bool y x) eqn:E; [|reflexivity].
    apply Qle_bool_iff in E. exfalso. apply (Qlt_not_le _ _ H E).
Qed.

Lemma Qlt_bool_false x y : Qlt_bool x y = false <-> y <= x.
Proof.
  unfold Qlt_bool. rewrite negb_false_iff. apply Qle_bool_iff.
Qed.

Lemma Qeq_bool_false x y : Qeq_bool x y = false <-> ~ x == y.
Proof.
  split; intros H.
  - intros E. apply Qeq_bool_iff in E. congruence.
  - destruct (Qeq_bool x y) eqn:E; [|reflexivity].
    apply Qeq_bool_iff in E. contradiction.
Qed.

Lemma Qle_bool_false x y : Qle_bool x y = false <-> y < x.
Proof.
  split; intros H.
  - apply Qnot_le_lt. intros Hle. apply Qle_bool_iff in Hle. congruence.
  - destruct (Qle_bool x y) eqn:E; [|reflexivity].
    apply Qle_bool_iff in E. exfalso. apply (Qlt_not_le _ _ H E).
Qed.

(** Rounding respects the equality of rationals, and yields the same
    representative for equal arguments. *)
Lemma roundHalfAway_comp x y : x == y -> roundHalfAway x = roundHalfAway y.
Proof.
  intros E. unfold roundHalfAway.
  assert (E1 : Qle_bool 0 x = Qle_bool 0 y) by (rewrite E; reflexivity).
  assert (E2 : Qfloor (x + (1 # 2)) = Qfloor (y + (1 # 2))) by (rewrite E; reflexivity).
  assert (E3 : Qfloor (- x + (1 # 2)) = Qfloor (- y + (1 # 2))) by (rewrite E; reflexivity).
  rewrite E1, E2, E3. reflexivity.
Qed.

Lemma toFixed2_comp x y : x == y -> toFixed2 x = toFixed2 y.
Proof.
  intros E. unfold toFixed2.
  rewrite (roundHalfAway_comp (x * 100) (y * 100)); [reflexivity|].
  rewrite E. reflexivity.
Qed.

(** The square root vanishes exactly on the non-positive rationals. *)
Lemma Qsqrt_nonpos x : x <= 0 -> Qsqrt x = 0.
Proof.
  intros H. unfold Qsqrt.
  assert (Hn : (Qnum (Qred x) <= 0)%Z).
  { assert (Hr : Qred x <= 0) by (rewrite Qred_correct; exact H).
    unfold Qle in Hr. simpl in Hr. lia. }
  apply Z.leb_le in Hn. rewrite Hn. reflexivity.
Qed.

Lemma Qsqrt_pos x : 0 < x -> 0 < Qsqrt x.
Proof.
  intros H. unfold Qsqrt.
  assert (Hn : (0 < Qnum (Qred x))%Z).
  { assert (Hr : 0 < Qred x) by (rewrite Qred_correct; exact H).
    unfold Qlt in Hr. simpl in Hr. lia. }
  destruct (Z.leb_spec (Qnum (Qred x)) 0) as [Hle|_]; [lia|].
  unfold Qlt. simpl. rewrite Z.mul_1_r.
  apply Z.sqrt_pos.
  apply Z.mul_pos_pos; [apply Z.mul_pos_pos; lia|].
  apply Z.pow_pos_nonneg; lia.
Qed.

Lemma Qsqrt_zero_iff x : Qsqrt x == 0 <-> x <= 0.
Proof.
  split; intros H.
  - apply Qnot_lt_le. intros Hpos. apply Qsqrt_pos in Hpos.
    rewrite H in Hpos. apply (Qlt_irrefl 0 Hpos).
  - rewrite (Qsqrt_nonpos x H). reflexivity.
Qed.

Lemma Qsqrt_comp x y : x == y -> Qsqrt x = Qsqrt y.
Proof.
  intros E. unfold Qsqrt. rewrite (Qred_complete x y E). reflexivity.
Qed.

Lemma inject_Z_pred z : inject_Z (z - 1) == inject_Z z - 1.
Proof.
  unfold Z.sub. rewrite inject_Z_plus, inject_Z_opp. reflexivity.
Qed.

End NumFacts.

(** ** Facts about the array sort *)

Module SortFacts.

Local Open Scope Q_scope.

Section SortBy.

Context {A : Type} (cmp : A -> A -> Q).

Lemma insertBy_perm x l : Permutation (x :: l) (insertBy cmp x l).
Proof.
  induction l as [|y ys IH]; simpl.
  - reflexivity.
  - destruct (Qle_bool (cmp x y) 0).
    + reflexivity.
    + rewrite perm_swap. constructor. exact IH.
Qed.

Lemma sortBy_perm l : Permutation l (sortBy cmp l).
Proof.
  induction l as [|x l IH]; simpl.
  - reflexivity.
  - etransitivity; [|apply insertBy_perm]. constructor. exact IH.
Qed.

Lemma sortBy_length l : length (sortBy cmp l) = length l.
Proof. symmetry. apply Permutation_length, sortBy_perm. Qed.

Lemma sortBy_In l x : In x (sortBy cmp l) <-> In x l.
Proof.
  split; apply Permutation_in; [symmetry|]; apply sortBy_perm.
Qed.

(** The comparator is total as an order: of two elements one may stay in
    front of the other. *)
Hypothesis cmp_total : forall a b, cmp a b <= 0 \/ cmp b a <= 0.

Lemma insertBy_sorted x l :
  Sorted (fun a b => cmp a b <= 0) l ->
  Sorted (fun a b => cmp a b <= 0) (insertBy cmp x l).
Proof.
  induction l as [|y ys IH]; intros Hs; simpl.
  - repeat constructor.
  - destruct (Qle_bool (cmp x y) 0) eqn:E.
    + apply Qle_bool_iff in E. constructor; [exact Hs|]. constructor. exact E.
    + apply NumFacts.Qle_bool_false in E.
      apply Sorted_inv in Hs. destruct Hs as [Hs Hd].
      constructor; [apply IH; exact Hs|].
      assert (Hyx : cmp y x <= 0).
      { destruct (cmp_total x y) as [H|H]; [|exact H].
        exfalso. apply (Qlt_not_le _ _ E H). }
      destruct ys as [|z zs]; simpl.
      * constructor. exact Hyx.
      * destruct (Qle_bool (cmp x z) 0); constructor; [exact Hyx|].
        apply HdRel_inv in Hd. exact Hd.
Qed.

Lemma sortBy_sorted l : Sorted (fun a b => cmp a b <= 0) (sortBy cmp l).
Proof.
  induction l as [|x l IH]; simpl.
  - constructor.
  - apply insertBy_sorted. exact IH.
Qed.

End SortBy.

(** Sorting by a descending numeric key. *)
Lemma sortBy_descending {A : Type} (key : A -> Q) (l : list A) :
  StronglySorted (fun a b => key b <= key a) (sortBy (fun a b => key b - key a) l).
Proof.
  apply Sorted_StronglySorted.
  - intros a b c Hab Hbc. apply (Qle_trans _ _ _ Hbc Hab).
  - assert (Hs := sortBy_sorted (fun a b => key b - key a)).
    eapply Sorted_ind with (P := fun l => Sorted (fun a b => key b <= key a) l);
      [constructor | | apply Hs].
    + intros a l0 _ IH Hd. constructor; [exact IH|].
      destruct Hd; constructor. lra.
    + intros a b. destruct (Qlt_le_dec (key a) (key b)); [right|left]; lra.
Qed.

Lemma firstn_In {A : Type} (x : A) n l : In x (firstn n l) -> In x l.
Proof.
  revert n. induction l as [|y l IH]; intros n H.
  - rewrite firstn_nil in H. exact H.
  - destruct n; simpl in H; [contradiction|].
    destruct H as [H|H]; [left; exact H|right; eapply IH; exact H].
Qed.

Lemma firstn_StronglySorted {A : Type} (R : A -> A -> Prop) n l :
  StronglySorted R l -> StronglySorted R (firstn n l).
Proof.
  revert n. induction l as [|x l IH]; intros n Hs.
  - rewrite firstn_nil. constructor.
  - destruct n; simpl; [constructor|].
    apply StronglySorted_inv in Hs. destruct Hs as [Hs Hall].
    constructor; [apply IH; exact Hs|].
    rewrite List.Forall_forall in *. intros y Hy.
    apply Hall. eapply firstn_In; exact Hy.
Qed.

End SortFacts.

(** ** The z-score engine *)

Module ZScoreFacts.

Import ZScore.
Local Open Scope Q_scope.

(** *** Loops that fill an object *)

Section FoldInsert.

Context {X V : Type} (key : X -> string) (val : X -> V).

Lemma fold_insert_notin xs (m : gmap string V) k :
  ~ In k (map key xs) ->
  fold_left (fun m x => <[key x := val x]> m) xs m !! k = m !! k.
Proof.
  revert m. induction xs as [|x xs IH]; intros m Hk; simpl; [reflexivity|].
  rewrite IH.
  - apply lookup_insert_ne. intros E. apply Hk. left. exact E.
  - intros H. apply Hk. right. exact H.
Qed.

Lemma fold_insert_in xs (m : gmap string V) x :
  NoDup (map key xs) -> In x xs ->
  fold_left (fun m x => <[key x := val x]> m) xs m !! key x = Some (val x).
Proof.
  revert m. induction xs as [|y xs IH]; intros m Hnd Hin; [destruct Hin|].
  simpl in Hnd. apply NoDup_cons in Hnd. destruct Hnd as [Hy Hnd].
  simpl. destruct Hin as [->|Hin].
  - rewrite fold_insert_notin.
    + apply lookup_insert_eq.
    + intros H. apply Hy. apply list_elem_of_In. exact H.
  - apply IH; assumption.
Qed.

Lemma fold_insert_inv xs (m : gmap string V) k v :
  fold_left (fun m x => <[key x := val x]> m) xs m !! k = Some v ->
  m !! k = Some v \/ exists x, In x xs /\ key x = k /\ val x = v.
Proof.
  revert m. induction xs as [|y xs IH]; intros m H; simpl in H; [left; exact H|].
  apply IH in H. destruct H as [H|(x & Hin & Hk & Hv)].
  - destruct (decide (key y = k)) as [E|E].
    + rewrite E in H. rewrite lookup_insert_eq in H.
      right. exists y. split; [left; reflexivity|]. split; congruence.
    + rewrite lookup_insert_ne in H by exact E. left. exact H.
  - right. exists x. split; [right; exact Hin|]. split; assumption.
Qed.

End FoldInsert.

(** *** Active categories *)

Lemma NoDup_map_filter {A B : Type} (f : A -> B) (p : A -> bool) (l : list A) :
  NoDup (map f l) -> NoDup (map f (List.filter p l)).
Proof.
  induction l as [|x l IH]; simpl; intros H; [exact H|].
  apply NoDup_cons in H. destruct H as [Hx H].
  destruct (p x); simpl; [|apply IH; exact H].
  apply NoDup_cons. split; [|apply IH; exact H].
  intros Hin. apply Hx. apply list_elem_of_In in Hin. apply list_elem_of_In.
  apply in_map_iff in Hin. destruct Hin as (y & Ey & Hy).
  apply filter_In in Hy. apply in_map_iff. exists y. tauto.
Qed.

Lemma activeCats_NoDup (scoringSettings : gmap string Q) :
  NoDup (map settingKey (activeCats scoringSettings)).
Proof.
  unfold activeCats. apply NoDup_map_filter.
  rewrite map_map. simpl.
  apply (NoDup_map_filter fst). apply NoDup_fst_map_to_list.
Qed.

(** An active category carries the configured weight of its key, which is
    not zero, and its key is not ignored. *)
Lemma activeCats_weight (scoringSettings : gmap string Q) cat :
  In cat (activeCats scoringSettings) ->
  scoringSettings !! settingKey cat = Some (weight cat) /\
  ~ weight cat == 0 /\
  includes IGNORED_KEYS (settingKey cat) = false.
Proof.
  unfold activeCats. intros H.
  apply filter_In in H. destruct H as [H _].
  apply in_map_iff in H. destruct H as ([k w] & <- & H).
  apply filter_In in H. destruct H as [H Hf]. simpl in *.
  apply andb_true_iff in Hf. destruct Hf as [Hw Hi].
  apply negb_true_iff in Hw, Hi.
  split; [|split].
  - apply elem_of_map_to_list. apply list_elem_of_In. exact H.
  - apply NumFacts.Qeq_bool_false. exact Hw.
  - exact Hi.
Qed.

(** Every active category has its baseline in [leagueMath]. *)
Lemma leagueMath_lookup (scoringSettings : gmap string Q) pop cat :
  In cat (activeCats scoringSettings) ->
  leagueMath (activeCats scoringSettings) pop !! settingKey cat
  = Some (baselineOf cat pop).
Proof.
  intros H. unfold leagueMath.
  apply (fold_insert_in settingKey (fun c => baselineOf c pop)).
  - apply activeCats_NoDup.
  - exact H.
Qed.

Lemma mathOf_leagueMath (scoringSettings : gmap string Q) pop cat :
  In cat (activeCats scoringSettings) ->
  mathOf (leagueMath (activeCats scoringSettings) pop) cat = baselineOf cat pop.
Proof.
  intros H. unfold mathOf. rewrite leagueMath_lookup by exact H. reflexivity.
Qed.

(** *** The per-player loop *)

Lemma scoreLoop_fst cats lm pStats :
  fst (scoreLoop cats lm pStats)
  = fold_left
      (fun (m : gmap string Q) cat =>
         <[settingKey cat := toFixed2 (categoryZ cat (mathOf lm cat) pStats)]> m)
      cats ∅.
Proof.
  unfold scoreLoop. generalize (∅ : gmap string Q) (0 : Q).
  induction cats as [|c cats IH]; intros m q; simpl; [reflexivity|].
  rewrite IH. reflexivity.
Qed.

Lemma scoreLoop_snd cats lm pStats :
  snd (scoreLoop cats lm pStats)
  = Qsum (map (fun cat => categoryZ cat (mathOf lm cat) pStats) cats).
Proof.
  unfold scoreLoop, Qsum. generalize (∅ : gmap string Q) (0 : Q).
  induction cats as [|c cats IH]; intros m q; simpl; [reflexivity|].
  rewrite IH. reflexivity.
Qed.

Lemma playerEntry_totalZ cats lm pStats :
  totalZ (playerEntry cats lm pStats)
  = toFixed2 (Qsum (map (fun cat => categoryZ cat (mathOf lm cat) pStats) cats)).
Proof.
  unfold playerEntry. rewrite <- scoreLoop_snd.
  destruct (scoreLoop cats lm pStats). reflexivity.
Qed.

Lemma playerEntry_scores cats lm pStats :
  scores (playerEntry cats lm pStats) = fst (scoreLoop cats lm pStats).
Proof.
  unfold playerEntry. destruct (scoreLoop cats lm pStats). reflexivity.
Qed.

(** *** The loop over the population ids *)

Lemma resultLoop_lookup {V : Type} (allStats : gmap string PlayerStats)
    (entry : PlayerStats -> V) ids (m0 : gmap string V) k :
  fold_left
    (fun result id =>
       match allStats !! id with
       | None => result
       | Some pStats =>
           if gpTruthy pStats then <[id := entry pStats]> result else result
       end)
    ids m0 !! k
  = match allStats !! k with
    | Some pStats =>
        if gpTruthy pStats && bool_decide (k ∈ ids) then Some (entry pStats)
        else m0 !! k
    | None => m0 !! k
    end.
Proof.
  revert m0. induction ids as [|id ids IH]; intros m0; simpl.
  - destruct (allStats !! k) as [p|]; [|reflexivity].
    rewrite andb_false_r. reflexivity.
  - rewrite IH. destruct (allStats !! k) as [p|] eqn:Ek.
    + destruct (gpTruthy p) eqn:Eg; simpl.
      * destruct (decide (k = id)) as [->|Hne].
        -- rewrite Ek, Eg. rewrite lookup_insert_eq.
           rewrite (bool_decide_eq_true_2 (id ∈ id :: ids)) by (left).
           destruct (bool_decide (id ∈ ids)); reflexivity.
        -- destruct (bool_decide (k ∈ ids)) eqn:Eb.
           ++ apply bool_decide_eq_true in Eb.
              rewrite (bool_decide_eq_true_2 (k ∈ id :: ids)) by (right; exact Eb).
              reflexivity.
           ++ apply bool_decide_eq_false in Eb.
              rewrite (bool_decide_eq_false_2 (k ∈ id :: ids)).
              2:{ intros H. apply elem_of_cons in H. tauto. }
              destruct (allStats !! id) as [q|]; [|reflexivity].
              destruct (gpTruthy q); [|reflexivity].
              apply lookup_insert_ne. congruence.
      * destruct (allStats !! id) as [q|] eqn:Eq; [|reflexivity].
        destruct (gpTruthy q) eqn:Egq; [|reflexivity].
        apply lookup_insert_ne. intros ->. congruence.
    + destruct (allStats !! id) as [q|] eqn:Eq; [|reflexivity].
      destruct (gpTruthy q); [|reflexivity].
      apply lookup_insert_ne. intros ->. congruence.
Qed.

(** The entries of the result: the players listed on a roster whose
    record has a truthy [gp], provided there are active categories and a
    qualifying population. *)
Lemma calculateZScores_lookup leagueRosters allStats scoringSettings id entry :
  calculateZScores leagueRosters allStats scoringSettings !! id = Some entry <->
  activeCats scoringSettings <> [] /\
  population leagueRosters allStats <> [] /\
  In id (populationIds leagueRosters) /\
  exists pStats,
    allStats !! id = Some pStats /\ gpTruthy pStats = true /\
    entry = playerEntry (activeCats scoringSettings)
              (baselines leagueRosters allStats scoringSettings) pStats.
Proof.
  unfold calculateZScores, baselines, population.
  destruct (activeCats scoringSettings) as [|c cs] eqn:Ec; simpl.
  { rewrite lookup_empty. split; [discriminate|]. intros [H _]. congruence. }
  destruct (populationStats (populationIds leagueRosters) allStats) as [|p ps] eqn:Ep;
    simpl.
  { rewrite lookup_empty. split; [discriminate|]. intros (_ & H & _). congruence. }
  rewrite resultLoop_lookup.
  split.
  - intros H. split; [discriminate|]. split; [discriminate|].
    destruct (allStats !! id) as [q|]; [|rewrite lookup_empty in H; discriminate].
    destruct (gpTruthy q) eqn:Eg; simpl in H;
      [|rewrite lookup_empty in H; discriminate].
    destruct (bool_decide (id ∈ populationIds leagueRosters)) eqn:Eb;
      [|rewrite lookup_empty in H; discriminate].
    apply bool_decide_eq_true in Eb. apply list_elem_of_In in Eb.
    split; [exact Eb|]. exists q. split; [reflexivity|]. split; [exact Eg|].
    congruence.
  - intros (_ & _ & Hin & q & Eq & Eg & ->).
    rewrite Eq, Eg. simpl.
    rewrite bool_decide_eq_true_2 by (apply list_elem_of_In; exact Hin).
    reflexivity.
Qed.

(** *** Impact categories *)

Lemma splitTotals_sums type pop :
  splitTotals type pop = (totalMade type pop, totalAttempted type pop).
Proof.
  unfold splitTotals, totalMade, totalAttempted, Qsum.
  generalize (0 : Q) at 1 3. generalize (0 : Q).
  induction pop as [|p pop IH]; intros a0 m0; simpl; [reflexivity|].
  rewrite <- IH. unfold made, attempted.
  destruct (getSplitStats p type) as [m a]. reflexivity.
Qed.

Lemma leagueAvgPct_spec type pop :
  leagueAvgPct type pop
  = if Qlt_bool 0 (totalAttempted type pop)
    then totalMade type pop / totalAttempted type pop else 0.
Proof.
  unfold leagueAvgPct. rewrite splitTotals_sums. reflexivity.
Qed.

Lemma categoryValues_impact cat pop :
  includes IMPACT_STATS (statKey cat) = true ->
  categoryValues cat pop
  = (map (impactValue (impactType (statKey cat))
            (leagueAvgPct (impactType (statKey cat)) pop)) pop,
     leagueAvgPct (impactType (statKey cat)) pop).
Proof.
  intros H. unfold categoryValues. rewrite H. f_equal.
  apply map_ext. intros p.
  unfold impactValue, perGameMade, perGameAttempted, made, attempted.
  destruct (getSplitStats p (impactType (statKey cat))). reflexivity.
Qed.

Lemma playerValue_impact cat math pStats :
  includes IMPACT_STATS (statKey cat) = true ->
  playerValue cat math pStats
  = impactValue (impactType (statKey cat)) (avgPct math) pStats.
Proof.
  intros H. unfold playerValue. rewrite H.
  unfold impactValue, perGameMade, perGameAttempted, made, attempted.
  destruct (getSplitStats pStats (impactType (statKey cat))). reflexivity.
Qed.

(** The stored [z] is the weighted raw z of the player's value. *)
Lemma categoryZ_weighted cat math pStats :
  categoryZ cat math pStats
  == weighted (weight cat) ((playerValue cat math pStats - avg math) / std math).
Proof.
  unfold categoryZ, weighted.
  destruct (Qlt_bool (weight cat) 0); ring.
Qed.

(** The [scores] entry of an active category. *)
Lemma scores_lookup leagueRosters allStats scoringSettings cat pStats :
  In cat (activeCats scoringSettings) ->
  scores (playerEntry (activeCats scoringSettings)
            (baselines leagueRosters allStats scoringSettings) pStats)
    !! settingKey cat
  = Some (toFixed2
            (categoryZ cat
               (baselineOf cat (population leagueRosters allStats)) pStats)).
Proof.
  intros H. rewrite playerEntry_scores, scoreLoop_fst.
  rewrite (fold_insert_in settingKey
             (fun c => toFixed2
                (categoryZ c
                   (mathOf (baselines leagueRosters allStats scoringSettings) c)
                   pStats))).
  - unfold baselines. rewrite mathOf_leagueMath by exact H. reflexivity.
  - apply activeCats_NoDup.
  - exact H.
Qed.

(** *** Baselines *)

(** The value set of a category is the category value of every member of
    the population, by the rule of the per-player step. *)
Lemma categoryValues_playerValue cat pop :
  fst (categoryValues cat pop) = map (playerValue cat (baselineOf cat pop)) pop.
Proof.
  destruct (includes IMPACT_STATS (statKey cat)) eqn:Himp.
  - rewrite categoryValues_impact by exact Himp. simpl.
    apply map_ext. intros p. rewrite playerValue_impact by exact Himp.
    unfold baselineOf. rewrite categoryValues_impact by exact Himp. reflexivity.
  - unfold categoryValues, playerValue. rewrite Himp. reflexivity.
Qed.

(** mathjs [std] is the sample standard deviation. *)
Lemma std_sample values : Num.std values = sampleStd values.
Proof.
  unfold Num.std, variance, sampleStd.
  destruct values as [|v [|w l]].
  - apply NumFacts.Qsqrt_comp. simpl length. reflexivity.
  - reflexivity.
  - change (length (v :: w :: l) =? 1)%nat with false. cbv iota.
    apply NumFacts.Qsqrt_comp. rewrite NumFacts.inject_Z_pred. reflexivity.
Qed.

Lemma flooredStd_nonzero s : ~ flooredStd s == 0.
Proof.
  unfold flooredStd. destruct (Qeq_bool s 0) eqn:E.
  - discriminate.
  - apply NumFacts.Qeq_bool_false. exact E.
Qed.

(** *** Population *)

Lemma populationStats_qualifying ids (allStats : gmap string PlayerStats) :
  populationStats ids allStats
  = omap (fun id => allStats !! id) (List.filter (qualifies allStats) ids).
Proof.
  unfold populationStats. induction ids as [|id ids IH]; [reflexivity|].
  simpl. unfold qualifies at 1.
  destruct (allStats !! id) as [p|] eqn:E; simpl.
  - destruct (gpPositive p); simpl; rewrite ?E; [f_equal|]; exact IH.
  - exact IH.
Qed.

Lemma omap_lookup_length ids (allStats : gmap string PlayerStats) :
  (forall id, In id ids -> is_Some (allStats !! id)) ->
  length (omap (fun id => allStats !! id) ids) = length ids.
Proof.
  induction ids as [|id ids IH]; intros H; [reflexivity|].
  simpl. destruct (H id (or_introl eq_refl)) as [p ->]. simpl.
  f_equal. apply IH. intros i Hi. apply H. right. exact Hi.
Qed.

Lemma NoDup_filter {A : Type} (p : A -> bool) (l : list A) :
  NoDup l -> NoDup (List.filter p l).
Proof.
  intros H. rewrite <- (map_id (List.filter p l)).
  apply NoDup_map_filter. rewrite map_id. exact H.
Qed.

Lemma gpPositive_gpTruthy p : gpPositive p = true -> gpTruthy p = true.
Proof.
  unfold gpPositive, gpTruthy. destruct (statFields p !! "gp"%string) as [g|];
    [|discriminate].
  intros H. apply NumFacts.Qlt_bool_iff in H.
  apply negb_true_iff. apply NumFacts.Qeq_bool_false.
  intros E. rewrite E in H. apply (Qlt_irrefl 0 H).
Qed.

Lemma populationIds_In leagueRosters id :
  In id (populationIds leagueRosters) <->
  exists roster ids, In roster leagueRosters /\ players roster = Some ids /\ In id ids.
Proof.
  unfold populationIds. rewrite in_flat_map. split.
  - intros (r & Hr & Hid). destruct (players r) as [ids|] eqn:E; [|destruct Hid].
    exists r, ids. auto.
  - intros (r & ids & Hr & E & Hid). exists r. rewrite E. auto.
Qed.

End ZScoreFacts.

(** ** The trend detector *)

Module TrendFacts.

Import Trend.
Local Open Scope Q_scope.

Lemma collectTrends_In seasonZScores recentZScores seasonStats recentStats t :
  In t (collectTrends seasonZScores recentZScores seasonStats recentStats) <->
  exists pid sz rz,
    seasonZScores !! pid = Some sz /\ recentZScores !! pid = Some rz /\
    t = trendOf seasonStats recentStats pid sz rz.
Proof.
  unfold collectTrends. rewrite <- list_elem_of_In, list_elem_of_omap. split.
  - intros ([pid sz] & Hin & Hf). apply elem_of_map_to_list in Hin. simpl in Hf.
    destruct (recentZScores !! pid) as [rz|] eqn:Er; [|discriminate].
    injection Hf as <-. exists pid, sz, rz. auto.
  - intros (pid & sz & rz & Hs & Hr & ->). exists (pid, sz). split.
    + apply elem_of_map_to_list. exact Hs.
    + simpl. rewrite Hr. reflexivity.
Qed.

Lemma collectTrends_NoDup seasonZScores recentZScores seasonStats recentStats :
  NoDup (map playerId
           (collectTrends seasonZScores recentZScores seasonStats recentStats)).
Proof.
  unfold collectTrends.
  assert (H := NoDup_fst_map_to_list seasonZScores).
  induction (map_to_list seasonZScores) as [|[pid sz] l IH]; [constructor|].
  simpl in H. apply NoDup_cons in H. destruct H as [Hx H].
  simpl. destruct (recentZScores !! pid) as [rz|]; [|apply IH; exact H].
  simpl. apply NoDup_cons. split; [|apply IH; exact H].
  intros Hin. apply Hx. apply list_elem_of_In in Hin. apply list_elem_of_In.
  apply in_map_iff in Hin. destruct Hin as (t & Et & Ht).
  apply list_elem_of_In, list_elem_of_omap in Ht.
  destruct Ht as ([k v] & Hk & Hf). simpl in Hf.
  destruct (recentZScores !! k); [|discriminate]. injection Hf as <-.
  simpl in Et. subst k. apply in_map_iff. exists (pid, v).
  split; [reflexivity|]. apply list_elem_of_In. exact Hk.
Qed.

End TrendFacts.

(** ** The trade scorer *)

Module TradeFacts.

Import Trade.
Local Open Scope Q_scope.

Lemma find_absent {A : Type} (f : A -> bool) (l : list A) :
  (forall x, In x l -> f x = false) -> List.find f l = None.
Proof.
  induction l as [|x l IH]; intros H; [reflexivity|].
  simpl. rewrite (H x (or_introl eq_refl)). apply IH.
  intros y Hy. apply H. right. exact Hy.
Qed.

Lemma find_present {A : Type} (f : A -> bool) (l : list A) x :
  In x l -> f x = true -> exists y, List.find f l = Some y.
Proof.
  induction l as [|z l IH]; intros Hin Hf; [destruct Hin|].
  simpl. destruct (f z) eqn:E; [eexists; reflexivity|].
  destruct Hin as [->|Hin]; [congruence|]. apply IH; assumption.
Qed.

Lemma In_concat_imap {A B : Type} (f : nat -> A -> list B) (l : list A) y :
  In y (concat (imap f l)) <-> exists i x, l !! i = Some x /\ In y (f i x).
Proof.
  rewrite in_concat. split.
  - intros (ys & Hys & Hy). apply list_elem_of_In, list_elem_of_lookup in Hys.
    destruct Hys as [i Hi]. rewrite list_lookup_imap in Hi.
    destruct (l !! i) as [x|] eqn:E; [|discriminate]. simpl in Hi.
    injection Hi as <-. exists i, x. auto.
  - intros (i & x & Hi & Hy). exists (f i x). split; [|exact Hy].
    apply list_elem_of_In, list_elem_of_lookup. exists i.
    rewrite list_lookup_imap, Hi. reflexivity.
Qed.

Lemma length_concat_imap {A B : Type} (f : nat -> A -> list B) (g : A -> nat)
    (l : list A) :
  (forall i x, length (f i x) = g x) ->
  length (concat (imap f l)) = list_sum (map g l).
Proof.
  revert f. induction l as [|x l IH]; intros f H; [reflexivity|].
  simpl. rewrite length_app, H. f_equal. apply IH. intros i y. apply H.
Qed.

Lemma recommendationOf_length leagueRosters playerZScores needCategory spareCategory
    ownerDisplayNames rosterIndex roster ids :
  length (omap (recommendationOf leagueRosters playerZScores needCategory
                  spareCategory ownerDisplayNames rosterIndex roster) ids)
  = length (List.filter (hasEntry playerZScores) ids).
Proof.
  induction ids as [|pid ids IH]; [reflexivity|].
  simpl. unfold recommendationOf at 1, hasEntry at 1.
  destruct (playerZScores !! pid); simpl; rewrite <- IH; reflexivity.
Qed.

Lemma collectRecommendations_In myRosterId leagueRosters playerZScores
    needCategory spareCategory ownerDisplayNames rec :
  In rec (collectRecommendations myRosterId leagueRosters playerZScores
            needCategory spareCategory ownerDisplayNames) <->
  exists i roster pid,
    leagueRosters !! i = Some roster /\
    roster_id roster <> myRosterId /\
    In pid (default [] (players roster)) /\
    recommendationOf leagueRosters playerZScores needCategory spareCategory
      ownerDisplayNames i roster pid = Some rec.
Proof.
  unfold collectRecommendations. rewrite In_concat_imap. split.
  - intros (i & roster & Hi & Hin).
    destruct (Z.eqb_spec (roster_id roster) myRosterId) as [E|E]; [destruct Hin|].
    apply list_elem_of_In, list_elem_of_omap in Hin.
    destruct Hin as (pid & Hpid & Hrec). apply list_elem_of_In in Hpid.
    exists i, roster, pid. auto.
  - intros (i & roster & pid & Hi & Hne & Hpid & Hrec).
    exists i, roster. split; [exact Hi|].
    destruct (Z.eqb_spec (roster_id roster) myRosterId) as [E|E]; [contradiction|].
    apply list_elem_of_In, list_elem_of_omap. exists pid.
    split; [apply list_elem_of_In; exact Hpid | exact Hrec].
Qed.

(** The reading of C8 for every requesting id: with an id that is no
    roster's, players "a" and "b" are on other rosters and have entries,
    and nothing is recommended. *)
Lemma C8_unknown_requester_fails :
  recommendTrades 9 Samples.league Samples.seasonZ "pts" "reb" None = [] /\
  exists roster pid,
    In roster Samples.league /\
    roster_id roster <> 9%Z /\
    In pid (default [] (players roster)) /\
    is_Some (Samples.seasonZ !! pid).
Proof.
  split; [reflexivity|].
  exists (Samples.rosterOf 1 ["a"; "b"]%string), "a"%string.
  split; [left; reflexivity|]. split; [discriminate|].
  split; [left; reflexivity|]. eexists. vm_compute. reflexivity.
Qed.

(** C8 (amended).  When the requesting roster id is the id of a roster of
    the league, the result has exactly one recommendation for every
    listing of a player with a z-score entry on a roster whose id is not
    the requesting one, without a cap; each carries the need and spare
    category z of the player, a missing one counting as 0, and their
    difference as trade score; and the list is non-increasing in the
    trade score. *)
Theorem C8_trade_recommendations myRosterId leagueRosters playerZScores
    needCategory spareCategory ownerDisplayNames :
  (exists myRoster, In myRoster leagueRosters /\ roster_id myRoster = myRosterId) ->
  let recs :=
    recommendTrades myRosterId leagueRosters playerZScores needCategory
      spareCategory ownerDisplayNames in
  length recs
  = list_sum
      (map (fun roster =>
              if (roster_id roster =? myRosterId)%Z then 0%nat
              else length (List.filter (hasEntry playerZScores)
                             (default [] (players roster))))
         leagueRosters) /\
  (forall rec,
     In rec recs ->
     exists roster playerData,
       leagueRosters !! rosterIndex rec = Some roster /\
       roster_id roster <> myRosterId /\
       In (playerId rec) (default [] (players roster)) /\
       playerZScores !! playerId rec = Some playerData /\
       needCategoryZ (stats rec) = default 0 (scores playerData !! needCategory) /\
       spareCategoryZ (stats rec) = default 0 (scores playerData !! spareCategory) /\
       tradeScore (stats rec)
       = needCategoryZ (stats rec) - spareCategoryZ (stats rec)) /\
  (forall i roster pid,
     leagueRosters !! i = Some roster ->
     roster_id roster <> myRosterId ->
     In pid (default [] (players roster)) ->
     is_Some (playerZScores !! pid) ->
     exists rec, In rec recs /\ playerId rec = pid /\ rosterIndex rec = i) /\
  StronglySorted (fun a b => tradeScore (stats b) <= tradeScore (stats a)) recs.
Proof.
  intros (myRoster & Hmy & Eid) recs. subst recs. unfold recommendTrades.
  destruct (find_present (fun r => (roster_id r =? myRosterId)%Z) leagueRosters
              myRoster Hmy) as [found ->]; [apply Z.eqb_eq; exact Eid|].
  split; [|split; [|split]].
  - rewrite SortFacts.sortBy_length. unfold collectRecommendations.
    apply length_concat_imap. intros i roster.
    destruct (roster_id roster =? myRosterId)%Z; [reflexivity|].
    apply recommendationOf_length.
  - intros rec Hrec. apply SortFacts.sortBy_In, collectRecommendations_In in Hrec.
    destruct Hrec as (i & roster & pid & Hi & Hne & Hpid & Hrec).
    unfold recommendationOf in Hrec.
    destruct (playerZScores !! pid) as [playerData|] eqn:Ez; [|discriminate].
    injection Hrec as <-. simpl. exists roster, playerData. auto 10.
  - intros i roster pid Hi Hne Hpid [playerData Ez].
    destruct (recommendationOf leagueRosters playerZScores needCategory
                spareCategory ownerDisplayNames i roster pid) as [rec|] eqn:Erec.
    + exists rec. split.
      * apply SortFacts.sortBy_In, collectRecommendations_In.
        exists i, roster, pid. auto.
      * unfold recommendationOf in Erec. rewrite Ez in Erec.
        injection Erec as <-. auto.
    + unfold recommendationOf in Erec. rewrite Ez in Erec. discriminate.
  - apply (SortFacts.sortBy_descending (fun rec => tradeScore (stats rec))).
Qed.

Lemma C8_trade_recommendations_witness :
  length (recommendTrades 2 Samples.league Samples.seasonZ "pts" "reb" None)
  = 2%nat.
Proof.
  destruct (C8_trade_recommendations 2 Samples.league Samples.seasonZ
              "pts" "reb" None) as (Hlen & _).
  - exists (Samples.rosterOf 2 ["c"]%string).
    split; [right; left; reflexivity | reflexivity].
  - rewrite Hlen. vm_compute. reflexivity.
Defined.

(** C10.  When the requesting roster id is the id of no roster of the
    league, the result is the empty list, whatever the z-score map and
    the category arguments. *)
Theorem C10_unknown_roster_no_trades myRosterId leagueRosters playerZScores
    needCategory spareCategory ownerDisplayNames :
  (forall roster, In roster leagueRosters -> roster_id roster <> myRosterId) ->
  recommendTrades myRosterId leagueRosters playerZScores needCategory
    spareCategory ownerDisplayNames = [].
Proof.
  intros H. unfold recommendTrades.
  rewrite find_absent; [reflexivity|].
  intros roster Hin. apply Z.eqb_neq. apply H. exact Hin.
Qed.

Lemma C10_unknown_roster_no_trades_witness :
  recommendTrades 9 Samples.league Samples.seasonZ "pts" "reb" None = [].
Proof.
  apply C10_unknown_roster_no_trades.
  intros roster Hin. simpl in Hin.
  destruct Hin as [<-|[<-|[]]]; discriminate.
Defined.

End TradeFacts.

(** ** The streaming planner *)

Module StreamingFacts.

Import Streaming.
Local Open Scope Q_scope.

Local Arguments getPlayerMeta : simpl never.

Lemma lookup_map {A B : Type} (f : A -> B) (l : list A) i :
  map f l !! i = f <$> l !! i.
Proof.
  revert i. induction l as [|x l IH]; intros [|i]; simpl; auto.
Qed.

Lemma filter_map_length {A B : Type} (f : A -> B) (p : B -> bool) (l : list A) :
  length (List.filter p (map f l)) = length (List.filter (fun x => p (f x)) l).
Proof.
  induction l as [|x l IH]; [reflexivity|].
  simpl. destruct (p (f x)); simpl; rewrite IH; reflexivity.
Qed.

Lemma StronglySorted_filter {A : Type} (R : A -> A -> Prop) (p : A -> bool) l :
  StronglySorted R l -> StronglySorted R (List.filter p l).
Proof.
  induction 1 as [|x l Hs IH Hall]; simpl; [constructor|].
  destruct (p x); [|exact IH].
  constructor; [exact IH|].
  rewrite List.Forall_forall in *. intros y Hy. apply Hall.
  apply filter_In in Hy. tauto.
Qed.

Lemma StronglySorted_map {A B : Type} (R : A -> A -> Prop) (S : B -> B -> Prop)
    (f : A -> B) l :
  (forall a b, R a b -> S (f a) (f b)) ->
  StronglySorted R l -> StronglySorted S (map f l).
Proof.
  intros Hf. induction 1 as [|x l Hs IH Hall]; simpl; constructor; [exact IH|].
  rewrite List.Forall_forall in *. intros y Hy.
  apply in_map_iff in Hy. destruct Hy as (a & <- & Ha). apply Hf, Hall, Ha.
Qed.

Lemma StronglySorted_app_le {A : Type} (R : A -> A -> Prop) l1 l2 :
  StronglySorted R (l1 ++ l2) ->
  forall x y, In x l1 -> In y l2 -> R x y.
Proof.
  induction l1 as [|a l1 IH]; intros Hs x y Hx Hy; [destruct Hx|].
  simpl in Hs. apply StronglySorted_inv in Hs. destruct Hs as [Hs Hall].
  destruct Hx as [<-|Hx].
  - rewrite List.Forall_forall in Hall. apply Hall, in_or_app. right. exact Hy.
  - apply IH; assumption.
Qed.

(** The first [n] of a sorted list are its top [n]. *)
Lemma firstn_sorted_top {A : Type} (R : A -> A -> Prop) n l x :
  StronglySorted R l -> In x l ->
  In x (firstn n l) \/ forall y, In y (firstn n l) -> R y x.
Proof.
  intros Hs Hx. rewrite <- (firstn_skipn n l) in Hs, Hx.
  apply in_app_or in Hx. destruct Hx as [Hx|Hx]; [left; exact Hx|].
  right. intros y Hy. eapply StronglySorted_app_le; eassumption.
Qed.

Lemma buildRosteredSet_spec allRosters pid :
  pid ∈ buildRosteredSet allRosters <-> rostered allRosters pid.
Proof.
  unfold buildRosteredSet, rostered.
  rewrite elem_of_list_to_set, list_elem_of_In, in_flat_map. reflexivity.
Qed.

(** The candidates before the sort and the cap. *)
Lemma freeAgent_candidates playerZScores playersMap allRosters agent :
  In agent
    (omap (fun entry : string * PlayerZScore =>
             let playerId := fst entry in
             if bool_decide (playerId ∈ buildRosteredSet allRosters) then None
             else
               let '(name, positions, team) := getPlayerMeta playerId playersMap in
               if negb (truthy team) then None
               else
                 Some {| playerId := playerId;
                         name := name;
                         team := team;
                         positions := positions;
                         isStarter := false;
                         zScore := totalZ (snd entry);
                         upcomingGames := [];
                         reason := Some "Top free agent by z-score"%string |})
       (map_to_list playerZScores)) <->
  exists z,
    playerZScores !! playerId agent = Some z /\
    ~ rostered allRosters (playerId agent) /\
    truthy (teamOf playersMap (playerId agent)) = true /\
    agent
    = {| playerId := playerId agent;
         name := fst (fst (getPlayerMeta (playerId agent) playersMap));
         team := teamOf playersMap (playerId agent);
         positions := snd (fst (getPlayerMeta (playerId agent) playersMap));
         isStarter := false;
         zScore := totalZ z;
         upcomingGames := [];
         reason := Some "Top free agent by z-score"%string |}.
Proof.
  rewrite <- list_elem_of_In, list_elem_of_omap. unfold teamOf. split.
  - intros ([pid z] & Hin & Hf). apply elem_of_map_to_list in Hin.
    cbv beta iota zeta delta [fst snd] in Hf.
    destruct (bool_decide (pid ∈ buildRosteredSet allRosters)) eqn:Er;
      [discriminate|].
    apply bool_decide_eq_false in Er. rewrite buildRosteredSet_spec in Er.
    destruct (getPlayerMeta pid playersMap) as [[n ps] t] eqn:Em.
    destruct (truthy t) eqn:Et; [|discriminate].
    injection Hf as <-. cbn [playerId]. rewrite Em. exists z. auto.
  - intros (z & Hz & Hr & Ht & E). exists (playerId agent, z). split.
    + apply elem_of_map_to_list. exact Hz.
    + cbv beta iota zeta delta [fst snd].
      rewrite bool_decide_eq_false_2
        by (rewrite buildRosteredSet_spec; exact Hr).
      destruct (getPlayerMeta (playerId agent) playersMap) as [[n ps] t] eqn:Em.
      cbn [fst snd] in Ht, E. rewrite Ht. cbn [negb].
      f_equal. symmetry. exact E.
Qed.

Lemma playsOn_spec (teams : list string) player :
  playsOn (list_to_set teams) player
  = truthy (team player) && bool_decide (team player ∈ teams).
Proof.
  unfold playsOn. f_equal. apply bool_decide_ext. apply elem_of_list_to_set.
Qed.

Lemma rosterPlayers_team roster playerZScores playersMap starters :
  forall teams,
    length (List.filter (playsOn (list_to_set teams))
              (rosterPlayersOf roster playerZScores playersMap starters))
    = length
        (List.filter
           (fun playerId =>
              truthy (teamOf playersMap playerId)
              && bool_decide (teamOf playersMap playerId ∈ teams))
           (default [] (roster ≫= players))).
Proof.
  intros teams. unfold rosterPlayersOf. rewrite filter_map_length.
  f_equal. apply filter_ext. intros pid. rewrite playsOn_spec. unfold teamOf.
  destruct (getPlayerMeta pid playersMap) as [[n ps] t]. reflexivity.
Qed.

Lemma freeAgentPool_In input agent :
  In agent (freeAgentPool input) ->
  exists z,
    playerZScores input !! playerId agent = Some z /\
    zScore agent = totalZ z /\
    ~ rostered (allRosters input) (playerId agent) /\
    team agent = teamOf (playersMap input) (playerId agent) /\
    truthy (team agent) = true.
Proof.
  unfold freeAgentPool, collectFreeAgents. intros H.
  apply SortFacts.firstn_In, SortFacts.sortBy_In, freeAgent_candidates in H.
  destruct H as (z & Hz & Hr & Ht & E). exists z.
  split; [exact Hz|]. rewrite E. cbn [zScore team playerId]. auto.
Qed.

(** C7.  On every day of the schedule window, [holes] is
    [max 0 (activeSlotCount - playing)], where [playing] counts the
    players of the target roster whose team plays that day.  The
    recommendations are empty when there is no hole, and otherwise at
    most [min (holes * 2) 5] members of the free-agent pool whose team
    plays that day, in descending order of z-score.  The pool holds at
    most 200 players, each with a z-score entry, on no roster and with a
    resolved team, in descending order of total Z, and no free agent left
    out of it has a higher total Z than a member. *)
Theorem C7_streaming_day_plan input :
  let plan := buildStreamingPlan input in
  let pool := freeAgentPool input in
  (length pool <= 200)%nat /\
  StronglySorted (fun a b => zScore b <= zScore a) pool /\
  (forall agent,
     In agent pool ->
     exists z,
       playerZScores input !! playerId agent = Some z /\
       zScore agent = totalZ z /\
       ~ rostered (allRosters input) (playerId agent) /\
       team agent = teamOf (playersMap input) (playerId agent) /\
       truthy (team agent) = true) /\
  (forall pid z,
     playerZScores input !! pid = Some z ->
     ~ rostered (allRosters input) pid ->
     truthy (teamOf (playersMap input) pid) = true ->
     (exists agent, In agent pool /\ playerId agent = pid) \/
     (forall agent, In agent pool -> totalZ z <= zScore agent)) /\
  length (days plan) = length (dailySchedule input) /\
  forall i day dp,
    dailySchedule input !! i = Some day ->
    days plan !! i = Some dp ->
    holes dp
    = Z.max 0
        (Z.of_nat (getActiveSlotCount (rosterPositions input))
         - Z.of_nat (playingCount input day)) /\
    (holes dp = 0%Z -> recommendations dp = []) /\
    (length (recommendations dp) <= Z.to_nat (Z.min (holes dp * 2) 5))%nat /\
    (forall rec,
       In rec (recommendations dp) ->
       exists agent,
         In agent pool /\
         playerId rec = playerId agent /\
         zScore rec = zScore agent /\
         team rec = team agent /\
         In (team rec) (teamsPlaying day)) /\
    StronglySorted (fun a b => zScore b <= zScore a) (recommendations dp).
Proof.
  intros plan pool.
  assert (Hsorted : StronglySorted (fun a b => zScore b <= zScore a) pool).
  { subst pool. unfold freeAgentPool, collectFreeAgents.
    apply SortFacts.firstn_StronglySorted. apply SortFacts.sortBy_descending. }
  split; [subst pool; unfold freeAgentPool, collectFreeAgents;
          apply firstn_le_length|].
  split; [exact Hsorted|].
  split; [intros agent; apply freeAgentPool_In|].
  split.
  { intros pid z Hz Hr Ht.
    set (candidate :=
      {| playerId := pid;
         name := fst (fst (getPlayerMeta pid (playersMap input)));
         team := teamOf (playersMap input) pid;
         positions := snd (fst (getPlayerMeta pid (playersMap input)));
         isStarter := false;
         zScore := totalZ z;
         upcomingGames := [];
         reason := Some "Top free agent by z-score"%string |}).
    subst pool. unfold freeAgentPool, collectFreeAgents.
    match goal with
    | |- context [firstn 200 (sortBy ?cmp ?agents)] =>
        destruct (firstn_sorted_top
                    (fun a b => zScore b <= zScore a) 200
                    (sortBy cmp agents) candidate) as [Hin|Htop]
    end.
    - apply SortFacts.sortBy_descending.
    - apply SortFacts.sortBy_In, freeAgent_candidates.
      exists z. cbn [playerId]. auto.
    - left. exists candidate. split; [exact Hin | reflexivity].
    - right. intros agent Hagent. apply (Htop agent Hagent). }
  split; [subst plan; unfold buildStreamingPlan; cbn [days]; apply length_map|].
  intros i day dp Hday Hdp.
  subst plan. unfold buildStreamingPlan in Hdp. cbn [days] in Hdp.
  rewrite lookup_map, Hday in Hdp. injection Hdp as <-.
  unfold dayPlan. cbn [holes recommendations].
  rewrite rosterPlayers_team. fold (playingCount input day).
  fold (freeAgentPool input). fold pool.
  set (h := Z.max 0 (Z.of_nat (getActiveSlotCount (rosterPositions input))
                     - Z.of_nat (playingCount input day))).
  split; [reflexivity|].
  destruct (Z.ltb_spec 0 h) as [Hpos|Hzero].
  - split; [lia|]. split; [apply firstn_le_length|]. split.
    + intros rec Hrec. apply SortFacts.firstn_In in Hrec.
      apply in_map_iff in Hrec. destruct Hrec as (e & <- & He).
      unfold enrichWithUpcomingGames in He.
      apply in_map_iff in He. destruct He as (agent & <- & Hagent).
      apply filter_In in Hagent. destruct Hagent as [Hagent Hplays].
      rewrite playsOn_spec in Hplays. apply andb_true_iff in Hplays.
      destruct Hplays as [_ Hplays]. apply bool_decide_eq_true in Hplays.
      exists agent. split; [exact Hagent|]. cbn.
      repeat split; try reflexivity. apply list_elem_of_In. exact Hplays.
    + apply SortFacts.firstn_StronglySorted.
      apply (StronglySorted_map (fun a b => zScore b <= zScore a));
        [intros a b H; exact H|].
      unfold enrichWithUpcomingGames.
      apply (StronglySorted_map (fun a b => zScore b <= zScore a));
        [intros a b H; exact H|].
      apply StronglySorted_filter. exact Hsorted.
  - split; [reflexivity|]. split; [simpl; lia|].
    split; [intros rec []|constructor].
Qed.

Lemma C7_streaming_day_plan_witness :
  exists dp,
    days (buildStreamingPlan Samples.streamingInput) !! 0%nat = Some dp /\
    holes dp = 1%Z /\
    (length (recommendations dp) <= 2)%nat.
Proof.
  destruct (days (buildStreamingPlan Samples.streamingInput) !! 0%nat)
    as [dp|] eqn:E; [|vm_compute in E; discriminate E].
  destruct (C7_streaming_day_plan Samples.streamingInput)
    as (_ & _ & _ & _ & _ & Hday).
  destruct (Hday 0%nat (Samples.dayOf "2025-01-01" ["LAL"; "NYK"]%string) dp
              eq_refl E) as (Hholes & _ & Hlen & _).
  assert (Hone : holes dp = 1%Z) by (rewrite Hholes; vm_compute; reflexivity).
  exists dp. split; [reflexivity|]. split; [exact Hone|].
  rewrite Hone in Hlen. exact Hlen.
Defined.

End StreamingFacts.

(** * The engine on binary64 numbers: stored values *)

(** ** Facts about the machine numbers *)

Module DoubleFacts.

Import PrimFloat.
Local Open Scope float_scope.

(** A number above [0] is neither NaN nor a zero. *)
Lemma positive_truthy (x : float) :
  (0 <? x) = true -> Double.truthyNumber x = true.
Proof.
  unfold Double.truthyNumber, is_nan.
  rewrite FloatAxioms.ltb_spec, !FloatAxioms.eqb_spec.
  destruct (FloatOps.Prim2SF x) as [s|s| |s m e]; try destruct s; cbn; intros H;
    try discriminate;
    unfold SpecFloat.SFeqb, SpecFloat.SFcompare; cbn;
    rewrite ?Z.compare_refl, ?Pos.compare_refl, ?Pos.compare_cont_refl;
    reflexivity.
Qed.

Lemma zero_falsy (x : float) : (x =? 0) = true -> Double.truthyNumber x = false.
Proof.
  unfold Double.truthyNumber. intros ->. rewrite orb_true_r. reflexivity.
Qed.

End DoubleFacts.

(** ** The z-score engine *)

Module ZScoreDoubleFacts.

Import PrimFloat.
Import ZScoreDouble.
Local Open Scope float_scope.

(** *** Active categories *)

Lemma activeCats_NoDup_double (scoringSettings : list (string * float)) :
  NoDup (map fst scoringSettings) ->
  NoDup (map settingKey (activeCats scoringSettings)).
Proof.
  intros H. unfold activeCats. apply ZScoreFacts.NoDup_map_filter.
  rewrite map_map. simpl.
  apply (ZScoreFacts.NoDup_map_filter fst). exact H.
Qed.

(** An active category carries a configured weight of its key, which is
    not zero, and its stat key is the mapped key. *)
Lemma activeCats_weight_double (scoringSettings : list (string * float)) cat :
  In cat (activeCats scoringSettings) ->
  In (settingKey cat, weight cat) scoringSettings /\
  (weight cat =? 0) = false /\
  includes ZScore.IGNORED_KEYS (settingKey cat) = false /\
  statKey cat
  = default (settingKey cat) (ZScore.SETTINGS_TO_STATS_MAP !! settingKey cat).
Proof.
  unfold activeCats. intros H.
  apply filter_In in H. destruct H as [H _].
  apply in_map_iff in H. destruct H as ([k w] & <- & H).
  apply filter_In in H. destruct H as [H Hf]. simpl in *.
  apply andb_true_iff in Hf. destruct Hf as [Hw Hi].
  apply negb_true_iff in Hw, Hi. auto.
Qed.

Lemma leagueMath_lookup_double (scoringSettings : list (string * float)) pop cat :
  NoDup (map fst scoringSettings) ->
  In cat (activeCats scoringSettings) ->
  leagueMath (activeCats scoringSettings) pop !! settingKey cat
  = Some (baselineOf cat pop).
Proof.
  intros Hnd H. unfold leagueMath.
  apply (ZScoreFacts.fold_insert_in settingKey (fun c => baselineOf c pop)).
  - apply activeCats_NoDup_double, Hnd.
  - exact H.
Qed.

Lemma mathOf_leagueMath_double (scoringSettings : list (string * float)) pop cat :
  NoDup (map fst scoringSettings) ->
  In cat (activeCats scoringSettings) ->
  mathOf (leagueMath (activeCats scoringSettings) pop) cat = baselineOf cat pop.
Proof.
  intros Hnd H. unfold mathOf. rewrite leagueMath_lookup_double by assumption.
  reflexivity.
Qed.

(** *** The per-player loop *)

Lemma scoreLoop_fst_double cats lm pStats :
  fst (scoreLoop cats lm pStats)
  = fold_left
      (fun (m : gmap string float) cat =>
         <[settingKey cat := Double.toFixed 2 (categoryZ cat (mathOf lm cat) pStats)]> m)
      cats ∅.
Proof.
  unfold scoreLoop. generalize (∅ : gmap string float) (0 : float).
  induction cats as [|c cats IH]; intros m q; simpl; [reflexivity|].
  rewrite IH. reflexivity.
Qed.

Lemma scoreLoop_snd_double cats lm pStats :
  snd (scoreLoop cats lm pStats)
  = Double.total (map (fun cat => categoryZ cat (mathOf lm cat) pStats) cats).
Proof.
  unfold scoreLoop, Double.total. generalize (∅ : gmap string float) (0 : float).
  induction cats as [|c cats IH]; intros m q; simpl; [reflexivity|].
  rewrite IH. reflexivity.
Qed.

Lemma playerEntry_totalZ_double cats lm pStats :
  totalZ (playerEntry cats lm pStats)
  = Double.toFixed 2
      (Double.total (map (fun cat => categoryZ cat (mathOf lm cat) pStats) cats)).
Proof.
  unfold playerEntry. rewrite <- scoreLoop_snd_double.
  destruct (scoreLoop cats lm pStats). reflexivity.
Qed.

Lemma playerEntry_scores_double cats lm pStats :
  scores (playerEntry cats lm pStats) = fst (scoreLoop cats lm pStats).
Proof.
  unfold playerEntry. destruct (scoreLoop cats lm pStats). reflexivity.
Qed.

(** *** The population *)

Lemma populationStats_population leagueRosters (allStats : gmap string PlayerStats) :
  populationStats (ZScore.populationIds leagueRosters) allStats
  = population leagueRosters allStats.
Proof.
  unfold populationStats, population, qualifyingIds, qualifies.
  induction (ZScore.populationIds leagueRosters) as [|id ids IH]; [reflexivity|].
  simpl. destruct (allStats !! id) as [p|] eqn:E; simpl; [|exact IH].
  destruct (gpPositive p); simpl; rewrite ?E; [f_equal|]; exact IH.
Qed.

Lemma population_In_double leagueRosters (allStats : gmap string PlayerStats) id pStats :
  In id (ZScore.populationIds leagueRosters) ->
  allStats !! id = Some pStats ->
  gpPositive pStats = true ->
  In pStats (population leagueRosters allStats).
Proof.
  intros Hin Hs Hg. unfold population. apply list_elem_of_In, list_elem_of_omap.
  exists id. split; [|exact Hs].
  apply list_elem_of_In, filter_In. split; [exact Hin|].
  unfold qualifies. rewrite Hs. exact Hg.
Qed.

Lemma gpPositive_gpTruthy_double p : gpPositive p = true -> gpTruthy p = true.
Proof.
  unfold gpPositive, gpTruthy, gpNumber.
  destruct (statFields p !! "gp"%string) as [g|]; simpl.
  - apply DoubleFacts.positive_truthy.
  - intros H. vm_compute in H. discriminate H.
Qed.

(** *** The loop over the population ids *)

Lemma resultLoop_lookup_double {V : Type} (allStats : gmap string PlayerStats)
    (entry : PlayerStats -> V) ids (m0 : gmap string V) k :
  fold_left
    (fun result id =>
       match allStats !! id with
       | None => result
       | Some pStats =>
           if gpTruthy pStats then <[id := entry pStats]> result else result
       end)
    ids m0 !! k
  = match allStats !! k with
    | Some pStats =>
        if gpTruthy pStats && bool_decide (k ∈ ids) then Some (entry pStats)
        else m0 !! k
    | None => m0 !! k
    end.
Proof.
  revert m0. induction ids as [|id ids IH]; intros m0; simpl.
  - destruct (allStats !! k) as [p|]; [|reflexivity].
    rewrite andb_false_r. reflexivity.
  - rewrite IH. destruct (allStats !! k) as [p|] eqn:Ek.
    + destruct (gpTruthy p) eqn:Eg; simpl.
      * destruct (decide (k = id)) as [->|Hne].
        -- rewrite Ek, Eg. rewrite lookup_insert_eq.
           rewrite (bool_decide_eq_true_2 (id ∈ id :: ids)) by (left).
           destruct (bool_decide (id ∈ ids)); reflexivity.
        -- destruct (bool_decide (k ∈ ids)) eqn:Eb.
           ++ apply bool_decide_eq_true in Eb.
              rewrite (bool_decide_eq_true_2 (k ∈ id :: ids)) by (right; exact Eb).
              reflexivity.
           ++ apply bool_decide_eq_false in Eb.
              rewrite (bool_decide_eq_false_2 (k ∈ id :: ids)).
              2:{ intros H. apply elem_of_cons in H. tauto. }
              destruct (allStats !! id) as [q|]; [|reflexivity].
              destruct (gpTruthy q); [|reflexivity].
              apply lookup_insert_ne. congruence.
      * destruct (allStats !! id) as [q|] eqn:Eq; [|reflexivity].
        destruct (gpTruthy q) eqn:Egq; [|reflexivity].
        apply lookup_insert_ne. intros ->. congruence.
    + destruct (allStats !! id) as [q|] eqn:Eq; [|reflexivity].
      destruct (gpTruthy q); [|reflexivity].
      apply lookup_insert_ne. intros ->. congruence.
Qed.

(** A listed player whose record has [gp > 0] has its entry in the
    result, as soon as a category is active. *)
Lemma calculateZScores_entry leagueRosters allStats scoringSettings id pStats :
  activeCats scoringSettings <> [] ->
  In id (ZScore.populationIds leagueRosters) ->
  allStats !! id = Some pStats ->
  gpPositive pStats = true ->
  calculateZScores leagueRosters allStats scoringSettings !! id
  = Some (playerEntry (activeCats scoringSettings)
            (baselines leagueRosters allStats scoringSettings) pStats).
Proof.
  intros Hcats Hin Hs Hg.
  assert (Hpop := population_In_double leagueRosters allStats id pStats Hin Hs Hg).
  unfold calculateZScores, baselines.
  rewrite populationStats_population.
  destruct (activeCats scoringSettings) as [|c cs] eqn:Ec; [congruence|].
  destruct (population leagueRosters allStats) as [|p ps] eqn:Ep; [destruct Hpop|].
  simpl. rewrite resultLoop_lookup_double, Hs.
  rewrite (gpPositive_gpTruthy_double _ Hg). simpl.
  rewrite bool_decide_eq_true_2 by (apply list_elem_of_In; exact Hin).
  reflexivity.
Qed.

(** A player without a record has no entry. *)
Lemma calculateZScores_absent leagueRosters allStats scoringSettings id :
  allStats !! id = None ->
  calculateZScores leagueRosters allStats scoringSettings !! id = None.
Proof.
  intros Hs. unfold calculateZScores.
  destruct (length (activeCats scoringSettings) =? 0)%nat; [apply lookup_empty|].
  cbv zeta.
  destruct (length (populationStats _ allStats) =? 0)%nat; [apply lookup_empty|].
  rewrite resultLoop_lookup_double, Hs. apply lookup_empty.
Qed.

(** *** The values of a category *)

Lemma splitTotals_sums_double type pop :
  splitTotals type pop = (totalMade type pop, totalAttempted type pop).
Proof.
  unfold splitTotals, totalMade, totalAttempted, Double.total.
  generalize (0 : float) at 1 3. generalize (0 : float).
  induction pop as [|p pop IH]; intros a0 m0; simpl; [reflexivity|].
  rewrite <- IH. unfold made, attempted.
  destruct (getSplitStats p type) as [m a]. reflexivity.
Qed.

Lemma leagueAvgPct_rate type pop : leagueAvgPct type pop = leagueRate type pop.
Proof.
  unfold leagueAvgPct, leagueRate. rewrite splitTotals_sums_double. reflexivity.
Qed.

Lemma categoryValues_values cat pop :
  fst (categoryValues cat pop) = map (categoryValue cat pop) pop.
Proof.
  unfold categoryValues, categoryValue.
  destruct (includes ZScore.IMPACT_STATS (statKey cat)); simpl.
  - apply map_ext. intros p. rewrite leagueAvgPct_rate.
    unfold impactValue, perGameMade, perGameAttempted, made, attempted.
    destruct (getSplitStats p (ZScore.impactType (statKey cat))). reflexivity.
  - apply map_ext. intros p. reflexivity.
Qed.


(** The baseline of a category: mean and floored deviation of the
    values of the population. *)
Lemma baselineOf_avg cat pop :
  avg (baselineOf cat pop) = Double.mean (map (categoryValue cat pop) pop).
Proof.
  unfold baselineOf. rewrite <- categoryValues_values.
  destruct (categoryValues cat pop). reflexivity.
Qed.

Lemma baselineOf_std cat pop :
  std (baselineOf cat pop)
  = flooredStd (Double.std (map (categoryValue cat pop) pop)).
Proof.
  unfold baselineOf. rewrite <- categoryValues_values.
  destruct (categoryValues cat pop). reflexivity.
Qed.



(** Outside the Impact categories the value of the z-score step is the
    value of the baseline step. *)
Lemma playerValue_standard cat math pop pStats :
  includes ZScore.IMPACT_STATS (statKey cat) = false ->
  playerValue cat math pStats = categoryValue cat pop pStats.
Proof.
  intros H. unfold playerValue, categoryValue. rewrite H. reflexivity.
Qed.

Lemma categoryZ_weighted_double cat math pStats :
  categoryZ cat math pStats
  = weighted (weight cat) ((playerValue cat math pStats - avg math) / std math).
Proof. reflexivity. Qed.

Lemma flooredStd_nonzero_double s : (flooredStd s =? 0) = false.
Proof.
  unfold flooredStd. destruct (s =? 0) eqn:E; [reflexivity|exact E].
Qed.

(** The [scores] entry of an active category. *)
Lemma scores_lookup_double leagueRosters allStats scoringSettings cat pStats :
  NoDup (map fst scoringSettings) ->
  In cat (activeCats scoringSettings) ->
  scores (playerEntry (activeCats scoringSettings)
            (baselines leagueRosters allStats scoringSettings) pStats)
    !! settingKey cat
  = Some (Double.toFixed 2
            (categoryZ cat
               (baselineOf cat (population leagueRosters allStats)) pStats)).
Proof.
  intros Hnd H. rewrite playerEntry_scores_double, scoreLoop_fst_double.
  rewrite (ZScoreFacts.fold_insert_in settingKey
             (fun c => Double.toFixed 2
                (categoryZ c
                   (mathOf (baselines leagueRosters allStats scoringSettings) c)
                   pStats))).
  - unfold baselines. rewrite mathOf_leagueMath_double by assumption. reflexivity.
  - apply activeCats_NoDup_double, Hnd.
  - exact H.
Qed.

Lemma scores_keys leagueRosters allStats scoringSettings pStats k v :
  scores (playerEntry (activeCats scoringSettings)
            (baselines leagueRosters allStats scoringSettings) pStats) !! k
  = Some v ->
  exists cat, In cat (activeCats scoringSettings) /\ settingKey cat = k.
Proof.
  rewrite playerEntry_scores_double, scoreLoop_fst_double. intros H.
  apply (ZScoreFacts.fold_insert_inv settingKey) in H.
  destruct H as [H|(cat & Hin & Hk & _)].
  - rewrite lookup_empty in H. discriminate H.
  - exists cat. split; assumption.
Qed.

Lemma In_nonempty {A : Type} (x : A) l : In x l -> l <> [].
Proof. intros H ->. destruct H. Qed.


(** The entry of a qualifying player and its score in an active
    category. *)
Lemma entry_score leagueRosters allStats scoringSettings cat id pStats :
  NoDup (map fst scoringSettings) ->
  In cat (activeCats scoringSettings) ->
  In id (ZScore.populationIds leagueRosters) ->
  allStats !! id = Some pStats ->
  gpPositive pStats = true ->
  exists entry,
    calculateZScores leagueRosters allStats scoringSettings !! id = Some entry /\
    entry = playerEntry (activeCats scoringSettings)
              (baselines leagueRosters allStats scoringSettings) pStats /\
    scores entry !! settingKey cat
    = Some (Double.toFixed 2
              (categoryZ cat
                 (baselineOf cat (population leagueRosters allStats)) pStats)).
Proof.
  intros Hnd Hcat Hin Hs Hg. eexists. split; [|split; [reflexivity|]].
  - apply calculateZScores_entry; try assumption.
    apply (In_nonempty cat), Hcat.
  - apply scores_lookup_double; assumption.
Qed.

(** *** Impact categories *)



(** *** Negative weights *)

(** The reading of C2 without the rounding of the stored entry: with
    turnovers weighted -0.125 the sign-flipped, scaled raw z of player
    "a" is 0.125 and the stored score is 0.13. *)
Lemma C2_stored_z_unrounded_fails :
  In DoubleSamples.eighthCat (activeCats DoubleSamples.eighthSettings) /\
  (weight DoubleSamples.eighthCat <? 0) = true /\
  exists entry b v,
    calculateZScores Samples.league DoubleSamples.turnovers
      DoubleSamples.eighthSettings !! "a"%string = Some entry /\
    baselines Samples.league DoubleSamples.turnovers DoubleSamples.eighthSettings
      !! "to"%string = Some b /\
    scores entry !! "to"%string = Some v /\
    (v =? (playerValue DoubleSamples.eighthCat b DoubleSamples.playerA - avg b)
          / std b * (-1) * abs (weight DoubleSamples.eighthCat)) = false.
Proof.
  split; [vm_compute; left; reflexivity|]. split; [reflexivity|].
  destruct (calculateZScores Samples.league DoubleSamples.turnovers
              DoubleSamples.eighthSettings !! "a"%string) as [entry|] eqn:He;
    [|vm_compute in He; discriminate He].
  destruct (baselines Samples.league DoubleSamples.turnovers
              DoubleSamples.eighthSettings !! "to"%string) as [b|] eqn:Hb;
    [|vm_compute in Hb; discriminate Hb].
  destruct (scores entry !! "to"%string) as [v|] eqn:Hv.
  2:{ vm_compute in He. injection He as <-. vm_compute in Hv. discriminate Hv. }
  exists entry, b, v. split; [reflexivity|]. split; [reflexivity|].
  split; [exact Hv|].
  vm_compute in He. injection He as <-.
  vm_compute in Hb. injection Hb as <-.
  vm_compute in Hv. injection Hv as <-.
  vm_compute. reflexivity.
Qed.

(** C2 (amended).  For an active category of negative weight, every
    qualifying player has an entry whose stored score is the raw z,
    multiplied by -1 and by the magnitude of the weight,
    [-((value - mean) / std) * |weight|], rounded to two decimals; the
    weight is one configured for the key.  With weight -1, mean 2 and
    deviation 1, a value of 1 is stored as +1 and a value of 3 as -1. *)
Theorem C2_negative_weight_flips_sign
    leagueRosters allStats scoringSettings cat id pStats :
  NoDup (map fst scoringSettings) ->
  In cat (activeCats scoringSettings) ->
  (weight cat <? 0) = true ->
  In id (ZScore.populationIds leagueRosters) ->
  allStats !! id = Some pStats ->
  gpPositive pStats = true ->
  exists b entry,
    In (settingKey cat, weight cat) scoringSettings /\
    baselines leagueRosters allStats scoringSettings !! settingKey cat = Some b /\
    calculateZScores leagueRosters allStats scoringSettings !! id = Some entry /\
    scores entry !! settingKey cat
    = Some (Double.toFixed 2
              ((playerValue cat b pStats - avg b) / std b * (-1) * abs (weight cat))) /\
    (weight cat = -1 -> avg b = 2 -> std b = 1 ->
     (playerValue cat b pStats = 1 -> scores entry !! settingKey cat = Some 1) /\
     (playerValue cat b pStats = 3 -> scores entry !! settingKey cat = Some (-1))).
Proof.
  intros Hnd Hcat Hneg Hin Hs Hg.
  destruct (entry_score leagueRosters allStats scoringSettings cat id pStats
              Hnd Hcat Hin Hs Hg) as (entry & He & _ & Hscore).
  exists (baselineOf cat (population leagueRosters allStats)), entry.
  assert (Hstored :
    scores entry !! settingKey cat
    = Some (Double.toFixed 2
              ((playerValue cat (baselineOf cat (population leagueRosters allStats))
                  pStats
                - avg (baselineOf cat (population leagueRosters allStats)))
               / std (baselineOf cat (population leagueRosters allStats))
               * (-1) * abs (weight cat)))).
  { rewrite Hscore. unfold categoryZ. rewrite Hneg. reflexivity. }
  split; [apply activeCats_weight_double, Hcat|].
  split; [apply leagueMath_lookup_double; assumption|].
  split; [exact He|]. split; [exact Hstored|].
  intros Hw Havg Hstd. rewrite Hstored, Hw, Havg, Hstd.
  split; intros Hval; rewrite Hval; f_equal.
Qed.

Lemma C2_negative_weight_flips_sign_witness :
  (exists entry,
     calculateZScores Samples.league DoubleSamples.turnovers DoubleSamples.toSettings
       !! "c"%string = Some entry /\
     scores entry !! "to"%string = Some (-1)) /\
  (exists entry,
     calculateZScores Samples.league DoubleSamples.turnovers
       DoubleSamples.eighthSettings !! "a"%string = Some entry /\
     scores entry !! "to"%string = Some 0.13).
Proof.
  split.
  - destruct (C2_negative_weight_flips_sign Samples.league DoubleSamples.turnovers
                DoubleSamples.toSettings DoubleSamples.toCat "c"%string
                DoubleSamples.playerC)
      as (b & entry & _ & Hb & He & _ & Hexample).
    + apply (bool_decide_unpack _). vm_compute. exact I.
    + vm_compute. left. reflexivity.
    + reflexivity.
    + vm_compute. right. right. left. reflexivity.
    + vm_compute. reflexivity.
    + vm_compute. reflexivity.
    + exists entry. split; [exact He|].
      vm_compute in Hb. injection Hb as <-.
      apply Hexample; reflexivity.
  - destruct (C2_negative_weight_flips_sign Samples.league DoubleSamples.turnovers
                DoubleSamples.eighthSettings DoubleSamples.eighthCat "a"%string
                DoubleSamples.playerA)
      as (b & entry & _ & Hb & He & Hscore & _).
    + apply (bool_decide_unpack _). vm_compute. exact I.
    + vm_compute. left. reflexivity.
    + reflexivity.
    + vm_compute. left. reflexivity.
    + vm_compute. reflexivity.
    + vm_compute. reflexivity.
    + exists entry. split; [exact He|].
      vm_compute in Hb. injection Hb as <-.
      etransitivity; [exact Hscore|]. vm_compute. reflexivity.
Defined.

(** *** Rounding *)

(** C3.  Every qualifying player has an entry whose [totalZ] is the
    running total of the unrounded per-category z values, rounded to two
    decimals once; every entry of [scores] is the rounding of its own
    category z, and [scores] has no other entry.  The total of the
    rounded entries differs from [totalZ] on some runs. *)
Theorem C3_total_rounded_once :
  (forall leagueRosters allStats scoringSettings id pStats,
     NoDup (map fst scoringSettings) ->
     activeCats scoringSettings <> [] ->
     In id (ZScore.populationIds leagueRosters) ->
     allStats !! id = Some pStats ->
     gpPositive pStats = true ->
     exists entry,
       calculateZScores leagueRosters allStats scoringSettings !! id = Some entry /\
       totalZ entry
       = Double.toFixed 2
           (Double.total
              (map (fun cat =>
                      categoryZ cat
                        (baselineOf cat (population leagueRosters allStats)) pStats)
                 (activeCats scoringSettings))) /\
       (forall cat,
          In cat (activeCats scoringSettings) ->
          scores entry !! settingKey cat
          = Some (Double.toFixed 2
                    (categoryZ cat
                       (baselineOf cat (population leagueRosters allStats)) pStats))) /\
       (forall k v,
          scores entry !! k = Some v ->
          exists cat, In cat (activeCats scoringSettings) /\ settingKey cat = k)) /\
  (exists leagueRosters allStats scoringSettings id entry,
     calculateZScores leagueRosters allStats scoringSettings !! id = Some entry /\
     (Double.total (map snd (map_to_list (scores entry))) =? totalZ entry) = false).
Proof.
  split.
  - intros leagueRosters allStats scoringSettings id pStats Hnd Hcats Hin Hs Hg.
    exists (playerEntry (activeCats scoringSettings)
              (baselines leagueRosters allStats scoringSettings) pStats).
    split; [apply calculateZScores_entry; assumption|].
    split; [|split].
    + rewrite playerEntry_totalZ_double. f_equal. f_equal.
      apply map_ext_in. intros cat Hcat. unfold baselines.
      rewrite mathOf_leagueMath_double by assumption. reflexivity.
    + intros cat Hcat. apply scores_lookup_double; assumption.
    + intros k v. apply scores_keys.
  - exists Samples.league, DoubleSamples.turnovers, DoubleSamples.tinySettings,
      "c"%string.
    destruct (calculateZScores Samples.league DoubleSamples.turnovers
                DoubleSamples.tinySettings !! "c"%string) as [entry|] eqn:He;
      [|vm_compute in He; discriminate He].
    exists entry. split; [reflexivity|].
    vm_compute in He. injection He as <-. vm_compute. reflexivity.
Qed.

Lemma C3_total_rounded_once_witness :
  exists entry,
    calculateZScores Samples.league DoubleSamples.turnovers DoubleSamples.tinySettings
      !! "c"%string = Some entry /\
    totalZ entry = 0.01 /\
    scores entry !! "pts"%string = Some 0 /\
    scores entry !! "reb"%string = Some 0.
Proof.
  destruct C3_total_rounded_once as [Hall _].
  destruct (Hall Samples.league DoubleSamples.turnovers DoubleSamples.tinySettings
              "c"%string DoubleSamples.playerC)
    as (entry & He & Htotal & Hscores & _).
  - apply (bool_decide_unpack _). vm_compute. exact I.
  - vm_compute. discriminate.
  - vm_compute. right. right. left. reflexivity.
  - vm_compute. reflexivity.
  - vm_compute. reflexivity.
  - exists entry. split; [exact He|]. split; [|split].
    + rewrite Htotal. vm_compute. reflexivity.
    + etransitivity;
        [apply (Hscores {| settingKey := "pts"; statKey := "pts"; weight := 0.004 |});
         vm_compute; left; reflexivity|].
      vm_compute. reflexivity.
    + etransitivity;
        [apply (Hscores {| settingKey := "reb"; statKey := "reb"; weight := 0.004 |});
         vm_compute; right; left; reflexivity|].
      vm_compute. reflexivity.
Defined.

(** *** Baselines *)

(** The reading of C4 with the population standard deviation (divisor
    [n]): on the two turnovers 1 and 3 it is 1 and the score of player
    "a" would be 1, while the stored score is 0.71. *)
Lemma C4_population_std_fails :
  In DoubleSamples.toCat (activeCats DoubleSamples.toSettings) /\
  let pop := population Samples.pair DoubleSamples.turnovers in
  let values := map (categoryValue DoubleSamples.toCat pop) pop in
  Double.populationStd values = 1 /\
  Double.toFixed 2
    (weighted (weight DoubleSamples.toCat)
       ((categoryValue DoubleSamples.toCat pop DoubleSamples.playerA
         - Double.mean values)
        / flooredStd (Double.populationStd values))) = 1 /\
  exists entry,
    calculateZScores Samples.pair DoubleSamples.turnovers DoubleSamples.toSettings
      !! "a"%string = Some entry /\
    scores entry !! "to"%string = Some 0.71 /\
    (0.71 =? 1) = false.
Proof.
  split; [vm_compute; left; reflexivity|].
  cbv zeta. split; [vm_compute; reflexivity|]. split; [vm_compute; reflexivity|].
  destruct (calculateZScores Samples.pair DoubleSamples.turnovers
              DoubleSamples.toSettings !! "a"%string) as [entry|] eqn:He;
    [|vm_compute in He; discriminate He].
  exists entry. split; [reflexivity|].
  vm_compute in He. injection He as <-.
  split; vm_compute; reflexivity.
Qed.

(** C4 (amended).  For every active category and non-empty qualifying
    population, the baseline mean is the arithmetic mean of the
    per-player category values and the baseline deviation is their
    sample standard deviation as mathjs computes it (the root of the sum
    of the squared deviations over [n - 1], and [0] for a single value),
    replaced by 1 when it is 0; the stored deviation is never 0, and the
    score of every qualifying player is taken against this mean and
    deviation. *)
Theorem C4_baseline_mean_and_std leagueRosters allStats scoringSettings cat :
  NoDup (map fst scoringSettings) ->
  In cat (activeCats scoringSettings) ->
  population leagueRosters allStats <> [] ->
  let pop := population leagueRosters allStats in
  let values := map (categoryValue cat pop) pop in
  let deviation := Double.std values in
  exists b,
    baselines leagueRosters allStats scoringSettings !! settingKey cat = Some b /\
    avg b = Double.sum values / Double.ofNat (length values) /\
    std b = (if deviation =? 0 then 1 else deviation) /\
    deviation = sqrt (Double.variance values) /\
    (is_nan (Double.sumSquares values) = false ->
     Double.variance values
     = if (length values =? 1)%nat then 0
       else Double.sumSquares values / Double.ofNat (length values - 1)) /\
    (std b =? 0) = false /\
    forall id pStats,
      In id (ZScore.populationIds leagueRosters) ->
      allStats !! id = Some pStats ->
      gpPositive pStats = true ->
      exists entry,
        calculateZScores leagueRosters allStats scoringSettings !! id = Some entry /\
        scores entry !! settingKey cat
        = Some (Double.toFixed 2
                  (weighted (weight cat)
                     ((playerValue cat b pStats - avg b) / std b))).
Proof.
  intros Hnd Hcat Hpop pop values deviation.
  exists (baselineOf cat pop).
  split; [apply leagueMath_lookup_double; assumption|].
  split; [apply baselineOf_avg|].
  split; [apply baselineOf_std|].
  split; [reflexivity|].
  split.
  { intros Hnan. unfold Double.variance. rewrite Hnan. reflexivity. }
  split; [rewrite baselineOf_std; apply flooredStd_nonzero_double|].
  intros id pStats Hin Hs Hg.
  destruct (entry_score leagueRosters allStats scoringSettings cat id pStats
              Hnd Hcat Hin Hs Hg) as (entry & He & _ & Hscore).
  exists entry. split; [exact He|]. exact Hscore.
Qed.

Lemma C4_baseline_mean_and_std_witness :
  exists entry,
    calculateZScores Samples.league DoubleSamples.tenths DoubleSamples.ptsSettings
      !! "a"%string = Some entry /\
    scores entry !! "pts"%string = Some (-0.82).
Proof.
  destruct (C4_baseline_mean_and_std Samples.league DoubleSamples.tenths
              DoubleSamples.ptsSettings DoubleSamples.ptsCat)
    as (b & Hb & _ & _ & _ & _ & _ & Hentries).
  - apply (bool_decide_unpack _). vm_compute. exact I.
  - vm_compute. left. reflexivity.
  - vm_compute. discriminate.
  - destruct (Hentries "a"%string (DoubleSamples.tenth "A")) as (entry & He & Hscore).
    + vm_compute. left. reflexivity.
    + vm_compute. reflexivity.
    + vm_compute. reflexivity.
    + exists entry. split; [exact He|].
      vm_compute in Hb. injection Hb as <-.
      etransitivity; [exact Hscore|]. vm_compute. reflexivity.
Defined.

(** *** Population *)

(** The reading of C5 with set semantics: with player "a" on two rosters
    the stored score of player "b" is 1.15, taken against the three
    listings; against the two distinct players it would be 0.71. *)
Lemma C5_set_semantics_fails :
  In DoubleSamples.ptsCat (activeCats DoubleSamples.ptsSettings) /\
  length (population Samples.overlapping DoubleSamples.turnovers) = 3%nat /\
  length (distinctPopulation Samples.overlapping DoubleSamples.turnovers) = 2%nat /\
  let pop := distinctPopulation Samples.overlapping DoubleSamples.turnovers in
  let values := map (categoryValue DoubleSamples.ptsCat pop) pop in
  Double.toFixed 2
    (weighted (weight DoubleSamples.ptsCat)
       ((categoryValue DoubleSamples.ptsCat pop DoubleSamples.playerB
         - Double.mean values)
        / flooredStd (Double.std values))) = 0.71 /\
  exists entry,
    calculateZScores Samples.overlapping DoubleSamples.turnovers
      DoubleSamples.ptsSettings !! "b"%string = Some entry /\
    scores entry !! "pts"%string = Some 1.15 /\
    (1.15 =? 0.71) = false.
Proof.
  split; [vm_compute; left; reflexivity|].
  split; [vm_compute; reflexivity|]. split; [vm_compute; reflexivity|].
  cbv zeta. split; [vm_compute; reflexivity|].
  destruct (calculateZScores Samples.overlapping DoubleSamples.turnovers
              DoubleSamples.ptsSettings !! "b"%string) as [entry|] eqn:He;
    [|vm_compute in He; discriminate He].
  exists entry. split; [reflexivity|].
  vm_compute in He. injection He as <-.
  split; vm_compute; reflexivity.
Qed.

Lemma omap_lookup_length_double ids (allStats : gmap string PlayerStats) :
  (forall id, In id ids -> is_Some (allStats !! id)) ->
  length (omap (fun id => allStats !! id) ids) = length ids.
Proof.
  induction ids as [|id ids IH]; intros H; [reflexivity|].
  simpl. destruct (H id (or_introl eq_refl)) as [p ->]. simpl.
  f_equal. apply IH. intros i Hi. apply H. right. exact Hi.
Qed.

(** C5 (amended).  The population is the concatenation of the rosters'
    player-id lists, in order and with repetitions, restricted to the
    ids whose record exists with [gp > 0]: one record per qualifying
    listing.  The score of every qualifying player in every active
    category is taken against the mean and the deviation of the values
    of this list, so a player counts once exactly when listed once.  An
    id without a record is in neither the population nor the result. *)
Theorem C5_population_is_concatenation leagueRosters allStats scoringSettings :
  NoDup (map fst scoringSettings) ->
  let listed := flat_map (fun roster => default [] (players roster)) leagueRosters in
  let qualifying := List.filter (qualifies allStats) listed in
  let pop := omap (fun id => allStats !! id) qualifying in
  length pop = length qualifying /\
  (forall id,
     In id qualifying <->
     In id listed /\
     exists pStats, allStats !! id = Some pStats /\ (0 <? gpNumber pStats) = true) /\
  (NoDup listed -> NoDup qualifying) /\
  (forall cat id pStats,
     In cat (activeCats scoringSettings) ->
     In id qualifying ->
     allStats !! id = Some pStats ->
     exists entry,
       calculateZScores leagueRosters allStats scoringSettings !! id = Some entry /\
       scores entry !! settingKey cat
       = Some (Double.toFixed 2
                 (weighted (weight cat)
                    ((playerValue cat (baselineOf cat pop) pStats
                      - Double.mean (map (categoryValue cat pop) pop))
                     / flooredStd (Double.std (map (categoryValue cat pop) pop)))))) /\
  (forall id,
     allStats !! id = None ->
     ~ In id qualifying /\
     calculateZScores leagueRosters allStats scoringSettings !! id = None).
Proof.
  intros Hnd listed qualifying pop.
  assert (Hq : forall id,
    In id qualifying <->
    In id listed /\
    exists pStats, allStats !! id = Some pStats /\ (0 <? gpNumber pStats) = true).
  { intros id. unfold qualifying. rewrite filter_In. unfold qualifies, gpPositive.
    split.
    - intros [Hin H]. split; [exact Hin|].
      destruct (allStats !! id) as [p|]; [|discriminate H]. exists p. auto.
    - intros [Hin (p & -> & H)]. auto. }
  split; [|split; [exact Hq|split; [|split]]].
  - apply omap_lookup_length_double. intros id Hid. apply Hq in Hid.
    destruct Hid as [_ (p & -> & _)]. eexists. reflexivity.
  - apply ZScoreFacts.NoDup_filter.
  - intros cat id pStats Hcat Hid Hs. apply Hq in Hid.
    destruct Hid as [Hin (p & Hp & Hg)]. rewrite Hs in Hp. injection Hp as <-.
    destruct (entry_score leagueRosters allStats scoringSettings cat id pStats
                Hnd Hcat Hin Hs Hg) as (entry & He & _ & Hscore).
    exists entry. split; [exact He|]. rewrite Hscore.
    change (population leagueRosters allStats) with pop.
    rewrite categoryZ_weighted_double, baselineOf_avg, baselineOf_std. reflexivity.
  - intros id Hs. split; [|apply calculateZScores_absent, Hs].
    intros Hid. apply Hq in Hid. destruct Hid as [_ (p & Hp & _)]. congruence.
Qed.

Lemma C5_population_is_concatenation_witness :
  exists entry,
    calculateZScores Samples.overlapping DoubleSamples.turnovers
      DoubleSamples.ptsSettings !! "b"%string = Some entry /\
    scores entry !! "pts"%string = Some 1.15.
Proof.
  destruct (C5_population_is_concatenation Samples.overlapping DoubleSamples.turnovers
              DoubleSamples.ptsSettings)
    as (_ & _ & _ & Hscores & _).
  - apply (bool_decide_unpack _). vm_compute. exact I.
  - destruct (Hscores DoubleSamples.ptsCat "b"%string DoubleSamples.playerB)
      as (entry & He & Hscore).
    + vm_compute. left. reflexivity.
    + vm_compute. right. left. reflexivity.
    + vm_compute. reflexivity.
    + exists entry. split; [exact He|].
      etransitivity; [exact Hscore|]. vm_compute. reflexivity.
Defined.

End ZScoreDoubleFacts.

(** ** The trend detector *)

Module TrendDoubleFacts.

Import PrimFloat.
Import ZScoreDouble TrendDouble.
Local Open Scope float_scope.

Lemma trends_In seasonZScores recentZScores seasonStats recentStats t :
  In t (calculateTrends_trends seasonZScores recentZScores seasonStats recentStats) <->
  exists pid sz rz,
    In (pid, sz) seasonZScores /\ recentZScores !! pid = Some rz /\
    t = trendOf seasonStats recentStats pid sz rz.
Proof.
  unfold calculateTrends_trends. rewrite <- list_elem_of_In, list_elem_of_omap. split.
  - intros ([pid sz] & Hin & Hf). apply list_elem_of_In in Hin. simpl in Hf.
    destruct (recentZScores !! pid) as [rz|] eqn:Er; [|discriminate].
    injection Hf as <-. exists pid, sz, rz. auto.
  - intros (pid & sz & rz & Hs & Hr & ->). exists (pid, sz). split.
    + apply list_elem_of_In. exact Hs.
    + simpl. rewrite Hr. reflexivity.
Qed.

Lemma trends_NoDup seasonZScores recentZScores seasonStats recentStats :
  NoDup (map fst seasonZScores) ->
  NoDup (map playerId
           (calculateTrends_trends seasonZScores recentZScores seasonStats
              recentStats)).
Proof.
  unfold calculateTrends_trends.
  induction seasonZScores as [|[pid sz] l IH]; intros H; [constructor|].
  simpl in H. apply NoDup_cons in H. destruct H as [Hx H].
  simpl. destruct (recentZScores !! pid) as [rz|]; [|apply IH; exact H].
  simpl. apply NoDup_cons. split; [|apply IH; exact H].
  intros Hin. apply Hx. apply list_elem_of_In in Hin. apply list_elem_of_In.
  apply in_map_iff in Hin. destruct Hin as (t & Et & Ht).
  apply list_elem_of_In, list_elem_of_omap in Ht.
  destruct Ht as ([k v] & Hk & Hf). simpl in Hf.
  destruct (recentZScores !! k); [|discriminate]. injection Hf as <-.
  simpl in Et. subst k. apply in_map_iff. exists (pid, v).
  split; [reflexivity|]. apply list_elem_of_In. exact Hk.
Qed.

(** C6.  A trend record exists for a player exactly when the player is
    in both z-score maps, and then there is one; its status is the first
    matching rule among BUY_LOW, SELL_HIGH, BREAKOUT and DECLINE, and
    NEUTRAL when none matches, the comparisons being those of the
    numbers [recent - season], [season + 1.0] and [season - 1.0] as the
    machine computes them.  A season total of 1.0 with a recent total of
    -1.0 is BUY_LOW. *)
Theorem C6_trend_classification :
  (forall seasonZScores recentZScores seasonStats recentStats,
     NoDup (map fst seasonZScores) ->
     let trends :=
       calculateTrends_trends seasonZScores recentZScores seasonStats recentStats in
     NoDup (map playerId trends) /\
     (forall pid,
        (exists t, In t trends /\ playerId t = pid) <->
        In pid (map fst seasonZScores) /\ is_Some (recentZScores !! pid)) /\
     (forall t,
        In t trends ->
        exists sz rz,
          In (playerId t, sz) seasonZScores /\
          recentZScores !! playerId t = Some rz /\
          status t = classify (totalZ sz) (totalZ rz))) /\
  (forall seasonTotalZ recentTotalZ,
     let zDifference := recentTotalZ - seasonTotalZ in
     let buyLow := (0.5 <? seasonTotalZ) && (zDifference <? -1.5) in
     let sellHigh := (seasonTotalZ <? -0.5) && (1.5 <? zDifference) in
     let breakout := (seasonTotalZ + 1.0 <? recentTotalZ) && (seasonTotalZ <? 0.5) in
     let decline := (recentTotalZ <? seasonTotalZ - 1.0) && (0.5 <? seasonTotalZ) in
     (buyLow = true -> classify seasonTotalZ recentTotalZ = Trend.BUY_LOW) /\
     (buyLow = false -> sellHigh = true ->
      classify seasonTotalZ recentTotalZ = Trend.SELL_HIGH) /\
     (buyLow = false -> sellHigh = false -> breakout = true ->
      classify seasonTotalZ recentTotalZ = Trend.BREAKOUT) /\
     (buyLow = false -> sellHigh = false -> breakout = false -> decline = true ->
      classify seasonTotalZ recentTotalZ = Trend.DECLINE) /\
     (buyLow = false -> sellHigh = false -> breakout = false -> decline = false ->
      classify seasonTotalZ recentTotalZ = Trend.NEUTRAL)) /\
  classify 1 (-1) = Trend.BUY_LOW.
Proof.
  split; [|split; [|reflexivity]].
  - intros seasonZScores recentZScores seasonStats recentStats Hnd trends.
    subst trends. split; [apply trends_NoDup, Hnd|]. split.
    + intros pid. split.
      * intros (t & Ht & Ep). apply trends_In in Ht.
        destruct Ht as (k & sz & rz & Hs & Hr & ->). simpl in Ep. subst k.
        split; [|eexists; eassumption].
        apply in_map_iff. exists (pid, sz). auto.
      * intros [Hs [rz Hr]]. apply in_map_iff in Hs.
        destruct Hs as ([k sz] & Ek & Hs). simpl in Ek. subst k.
        exists (trendOf seasonStats recentStats pid sz rz).
        split; [|reflexivity]. apply trends_In.
        exists pid, sz, rz. auto.
    + intros t Ht. apply trends_In in Ht.
      destruct Ht as (k & sz & rz & Hs & Hr & ->). simpl.
      exists sz, rz. auto.
  - intros s r zDifference buyLow sellHigh breakout decline.
    unfold classify, BUY_LOW_THRESHOLD, SELL_HIGH_THRESHOLD.
    fold zDifference. fold buyLow. fold sellHigh. fold breakout. fold decline.
    destruct buyLow, sellHigh, breakout, decline;
      repeat split; intros; try reflexivity; discriminate.
Qed.

Lemma C6_trend_classification_witness :
  (exists t,
     In t (calculateTrends_trends DoubleSamples.seasonZ DoubleSamples.recentZ ∅ ∅) /\
     playerId t = "a"%string /\ status t = Trend.BUY_LOW) /\
  ~ (exists t,
       In t (calculateTrends_trends DoubleSamples.seasonZ DoubleSamples.recentZ ∅ ∅) /\
       playerId t = "b"%string).
Proof.
  destruct C6_trend_classification as (Hrecords & _ & _).
  destruct (Hrecords DoubleSamples.seasonZ DoubleSamples.recentZ ∅ ∅)
    as (_ & Hboth & Hstatus).
  { apply (bool_decide_unpack _). vm_compute. exact I. }
  split.
  - destruct (proj2 (Hboth "a"%string)) as (t & Ht & Ep).
    { split; [vm_compute; left; reflexivity|eexists; vm_compute; reflexivity]. }
    exists t. split; [exact Ht|]. split; [exact Ep|].
    destruct (Hstatus t Ht) as (sz & rz & Hs & Hr & ->).
    rewrite Ep in Hs, Hr. vm_compute in Hr. injection Hr as <-.
    destruct Hs as [Hs|[Hs|[]]]; [|discriminate Hs].
    injection Hs as <-. reflexivity.
  - intros H. apply Hboth in H. destruct H as [_ [rz Hr]].
    vm_compute in Hr. discriminate Hr.
Defined.

(** Rounding decides a status: [-2.99 + 1.0] computes to a number below
    [-1.99], so a season total of -2.99 with a recent total of -1.99 is
    a BREAKOUT, although the two decimals differ by exactly 1. *)
Lemma classify_rounds :
  classify (-2.99) (-1.99) = Trend.BREAKOUT.
Proof. reflexivity. Qed.

End TrendDoubleFacts.

(** ** The consistency estimator *)

Module ConsistencyDoubleFacts.

Import PrimFloat.
Import ZScoreDouble ConsistencyDouble.
Local Open Scope float_scope.

(** C9.  A missing record, a missing [gp] or [gp = 0] gives risk level
    "N/A" with mean, std and cv all 0.  For [gp > 0] the risk label is
    High when the estimated cv exceeds 0.4, Medium when it exceeds 0.25
    (and not 0.4), and Low otherwise. *)
Theorem C9_consistency_risk :
  calculateConsistency None
  = {| mean := 0; std := 0; cv := 0; riskLevel := "N/A" |} /\
  (forall playerStats,
     statFields playerStats !! "gp"%string = None ->
     calculateConsistency (Some playerStats)
     = {| mean := 0; std := 0; cv := 0; riskLevel := "N/A" |}) /\
  (forall playerStats gp,
     statFields playerStats !! "gp"%string = Some gp ->
     (gp =? 0) = true ->
     calculateConsistency (Some playerStats)
     = {| mean := 0; std := 0; cv := 0; riskLevel := "N/A" |}) /\
  (forall playerStats gp,
     statFields playerStats !! "gp"%string = Some gp ->
     (0 <? gp) = true ->
     let est := estimatedCV playerStats gp in
     let result := calculateConsistency (Some playerStats) in
     ((0.4 <? est) = true -> riskLevel result = "High"%string) /\
     ((0.4 <? est) = false -> (0.25 <? est) = true ->
      riskLevel result = "Medium"%string) /\
     ((0.4 <? est) = false -> (0.25 <? est) = false ->
      riskLevel result = "Low"%string)).
Proof.
  split; [reflexivity|]. split; [|split].
  - intros ps Hgp. unfold calculateConsistency. rewrite Hgp. reflexivity.
  - intros ps gp Hgp Hz. unfold calculateConsistency. rewrite Hgp, Hz.
    rewrite orb_true_r. reflexivity.
  - intros ps gp Hgp Hpos est result. subst est result.
    unfold calculateConsistency. rewrite Hgp.
    assert (Ht := DoubleFacts.positive_truthy gp Hpos).
    assert (Hnz : (gp =? 0) = false).
    { unfold Double.truthyNumber in Ht. apply negb_true_iff in Ht.
      apply orb_false_iff in Ht. tauto. }
    rewrite Ht, Hnz. simpl. unfold riskLevelOf.
    repeat split; intros; repeat match goal with H : _ = _ |- _ => rewrite H end;
      reflexivity.
Qed.

Lemma C9_consistency_risk_witness :
  riskLevel (calculateConsistency (Some DoubleSamples.rolePlayer)) = "Medium"%string /\
  riskLevel (calculateConsistency (Some DoubleSamples.benchPlayer)) = "High"%string /\
  riskLevel (calculateConsistency (Some DoubleSamples.unplayed)) = "N/A"%string.
Proof.
  destruct C9_consistency_risk as (_ & _ & Hzero & Hrisk).
  split; [|split].
  - apply (Hrisk DoubleSamples.rolePlayer 3); vm_compute; reflexivity.
  - apply (Hrisk DoubleSamples.benchPlayer 10); vm_compute; reflexivity.
  - rewrite (Hzero DoubleSamples.unplayed 0); reflexivity.
Defined.

End ConsistencyDoubleFacts.

(** * Further properties *)

(** ** Sums and rounding *)

Module SumFacts.

Local Open Scope Q_scope.

Lemma Qsum_start l a : fold_left Qplus l a == a + Qsum l.
Proof.
  unfold Qsum. revert a. induction l as [|x l IH]; intros a; simpl.
  - ring.
  - rewrite IH. rewrite (IH (0 + x)). ring.
Qed.

Lemma Qsum_cons x l : Qsum (x :: l) == x + Qsum l.
Proof.
  unfold Qsum at 1. simpl. rewrite Qsum_start. ring.
Qed.


Lemma Qsum_map_scale {A : Type} (f : A -> Q) k l :
  Qsum (map (fun x => f x * k) l) == Qsum (map f l) * k.
Proof.
  induction l as [|x l IH]; simpl.
  - unfold Qsum. simpl. ring.
  - rewrite !Qsum_cons, IH. ring.
Qed.

Lemma Qsum_map_minus {A : Type} (f : A -> Q) a l :
  Qsum (map (fun x => f x - a) l)
  == Qsum (map f l) - inject_Z (Z.of_nat (length l)) * a.
Proof.
  induction l as [|x l IH].
  - unfold Qsum. simpl. ring.
  - cbn [map length]. rewrite !Qsum_cons, IH.
    rewrite Nat2Z.inj_succ. unfold Z.succ. rewrite inject_Z_plus. ring.
Qed.

Lemma Qsum_map_const {A : Type} (f : A -> Q) c l :
  (forall x, In x l -> f x == c) ->
  Qsum (map f l) == inject_Z (Z.of_nat (length l)) * c.
Proof.
  induction l as [|x l IH]; intros H.
  - unfold Qsum. simpl. ring.
  - cbn [map length]. rewrite Qsum_cons, IH, (H x (or_introl eq_refl)).
    + rewrite Nat2Z.inj_succ. unfold Z.succ. rewrite inject_Z_plus. ring.
    + intros y Hy. apply H. right. exact Hy.
Qed.

Lemma length_nonzero {A : Type} (l : list A) :
  l <> [] -> ~ inject_Z (Z.of_nat (length l)) == 0.
Proof.
  intros Hl E. destruct l as [|x l]; [congruence|].
  unfold Qeq in E. simpl in E. lia.
Qed.

(** The deviations from the mean sum to zero. *)
Lemma mean_centered {A : Type} (f : A -> Q) l :
  l <> [] -> Qsum (map (fun x => f x - mean (map f l)) l) == 0.
Proof.
  intros Hl. rewrite Qsum_map_minus. unfold mean. rewrite length_map.
  field. apply length_nonzero. exact Hl.
Qed.

Lemma mean_const {A : Type} (f : A -> Q) c l :
  l <> [] -> (forall x, In x l -> f x == c) -> mean (map f l) == c.
Proof.
  intros Hl H. unfold mean. rewrite length_map, (Qsum_map_const f c l H).
  field. apply length_nonzero. exact Hl.
Qed.

Lemma roundHalfAway_mono x y : x <= y -> (roundHalfAway x <= roundHalfAway y)%Z.
Proof.
  intros H. unfold roundHalfAway.
  destruct (Qle_bool 0 x) eqn:Ex, (Qle_bool 0 y) eqn:Ey.
  - apply Qfloor_resp_le. lra.
  - apply Qle_bool_iff in Ex. apply NumFacts.Qle_bool_false in Ey. lra.
  - apply NumFacts.Qle_bool_false in Ex. apply Qle_bool_iff in Ey.
    assert (H1 : (0 <= Qfloor (- x + (1 # 2)))%Z).
    { change 0%Z with (Qfloor 0). apply Qfloor_resp_le. lra. }
    assert (H2 : (0 <= Qfloor (y + (1 # 2)))%Z).
    { change 0%Z with (Qfloor 0). apply Qfloor_resp_le. lra. }
    lia.
  - assert (H1 : (Qfloor (- y + (1 # 2)) <= Qfloor (- x + (1 # 2)))%Z).
    { apply Qfloor_resp_le. lra. }
    lia.
Qed.



End SumFacts.

(** ** The z-score engine, continued *)

Module ZScoreMore.

Import ZScore ZScoreFacts.
Local Open Scope Q_scope.

Lemma population_In leagueRosters (allStats : gmap string PlayerStats) p :
  In p (population leagueRosters allStats) <->
  exists id,
    In id (populationIds leagueRosters) /\
    allStats !! id = Some p /\ gpPositive p = true.
Proof.
  unfold population, populationStats. rewrite filter_In.
  rewrite <- list_elem_of_In, list_elem_of_omap. split.
  - intros [(id & Hid & Hp) Hg]. exists id. rewrite <- list_elem_of_In. auto.
  - intros (id & Hid & Hp & Hg). split; [|exact Hg].
    exists id. rewrite list_elem_of_In. auto.
Qed.

Lemma baseline_avg cat pop :
  avg (baselineOf cat pop) = mean (map (playerValue cat (baselineOf cat pop)) pop).
Proof.
  rewrite <- categoryValues_playerValue. unfold baselineOf.
  destruct (categoryValues cat pop). reflexivity.
Qed.



(** The weighted z as a multiple of the deviation from the mean. *)
Lemma categoryZ_linear cat math pStats :
  categoryZ cat math pStats
  == (playerValue cat math pStats - avg math)
     * ((if Qlt_bool (weight cat) 0 then - (1) else 1)
        * (/ std math * Qabs (weight cat))).
Proof.
  unfold categoryZ, Qdiv. destruct (Qlt_bool (weight cat) 0); ring.
Qed.

Lemma settings_table_truthy k s :
  SETTINGS_TO_STATS_MAP !! k = Some s -> s <> ""%string.
Proof.
  unfold SETTINGS_TO_STATS_MAP. intros H.
  apply elem_of_list_to_map_2 in H.
  repeat (apply elem_of_cons in H;
          destruct H as [H|H]; [injection H as -> ->; discriminate|]).
  apply elem_of_nil in H. destruct H.
Qed.

Lemma activeCats_In_iff (scoringSettings : gmap string Q) cat :
  In cat (activeCats scoringSettings) <->
  scoringSettings !! settingKey cat = Some (weight cat) /\
  ~ weight cat == 0 /\
  includes IGNORED_KEYS (settingKey cat) = false /\
  statKey cat
  = default (settingKey cat) (SETTINGS_TO_STATS_MAP !! settingKey cat) /\
  statKey cat <> ""%string.
Proof.
  unfold activeCats. rewrite filter_In, in_map_iff. split.
  - intros [([k w] & <- & H) Ht]. apply filter_In in H. destruct H as [H Hf].
    cbn [fst snd settingKey statKey weight] in *.
    apply andb_true_iff in Hf. destruct Hf as [Hw Hi].
    apply negb_true_iff in Hw, Hi, Ht.
    split; [apply elem_of_map_to_list, list_elem_of_In; exact H|].
    split; [apply NumFacts.Qeq_bool_false; exact Hw|].
    split; [exact Hi|]. split; [reflexivity|].
    intros E. rewrite E in Ht. discriminate Ht.
  - intros (Hl & Hw & Hi & Es & Ht). split.
    + exists (settingKey cat, weight cat). split.
      * destruct cat as [k sk w]. cbn [fst snd settingKey statKey weight] in *.
        rewrite Es. reflexivity.
      * apply filter_In. cbn [fst snd]. split.
        -- apply list_elem_of_In, elem_of_map_to_list. exact Hl.
        -- apply NumFacts.Qeq_bool_false in Hw. rewrite Hw, Hi. reflexivity.
    + apply negb_true_iff. apply String.eqb_neq. exact Ht.
Qed.

(** X1.  The result is the empty object exactly when there is no active
    category or no qualifying player. *)
Theorem X1_result_empty_iff leagueRosters allStats scoringSettings :
  calculateZScores leagueRosters allStats scoringSettings = ∅ <->
  activeCats scoringSettings = [] \/ population leagueRosters allStats = [].
Proof.
  split.
  - intros Hempty.
    destruct (activeCats scoringSettings) as [|c cs] eqn:Ec; [left; reflexivity|].
    destruct (population leagueRosters allStats) as [|p ps] eqn:Ep;
      [right; reflexivity|].
    exfalso.
    destruct (proj1 (population_In leagueRosters allStats p)) as (id & Hid & Hp & Hg).
    { rewrite Ep. left. reflexivity. }
    assert (H : calculateZScores leagueRosters allStats scoringSettings !! id
                = Some (playerEntry (activeCats scoringSettings)
                          (baselines leagueRosters allStats scoringSettings) p)).
    { apply calculateZScores_lookup.
      split; [rewrite Ec; discriminate|]. split; [rewrite Ep; discriminate|].
      split; [exact Hid|]. exists p. split; [exact Hp|].
      split; [apply gpPositive_gpTruthy; exact Hg | reflexivity]. }
    rewrite Hempty, lookup_empty in H. discriminate H.
  - unfold calculateZScores, population. intros [H|H]; rewrite H.
    + reflexivity.
    + destruct (length (activeCats scoringSettings) =? 0)%nat; reflexivity.
Qed.

(** X2.  The [scores] of every player in the result have an entry for a
    key exactly when the key is configured with a weight that is not 0,
    is not on the ignore list and is not the empty string: a category of
    weight 0 is absent, not present with a zero score. *)
Theorem X2_score_keys leagueRosters allStats scoringSettings id entry k :
  calculateZScores leagueRosters allStats scoringSettings !! id = Some entry ->
  (is_Some (scores entry !! k) <->
   exists w,
     scoringSettings !! k = Some w /\ ~ w == 0 /\
     includes IGNORED_KEYS k = false /\ k <> ""%string).
Proof.
  intros Hentry. apply calculateZScores_lookup in Hentry.
  destruct Hentry as (_ & _ & _ & pStats & _ & _ & ->). split.
  - intros [v Hv]. rewrite playerEntry_scores, scoreLoop_fst in Hv.
    apply fold_insert_inv in Hv. destruct Hv as [Hv|(cat & Hcat & <- & _)].
    { rewrite lookup_empty in Hv. discriminate Hv. }
    apply activeCats_In_iff in Hcat. destruct Hcat as (Hl & Hw & Hi & Es & Ht).
    exists (weight cat). split; [exact Hl|]. split; [exact Hw|].
    split; [exact Hi|]. intros E. apply Ht. rewrite Es, E. reflexivity.
  - intros (w & Hl & Hw & Hi & Hk).
    set (cat := {| settingKey := k;
                   statKey := default k (SETTINGS_TO_STATS_MAP !! k);
                   weight := w |}).
    assert (Hcat : In cat (activeCats scoringSettings)).
    { apply activeCats_In_iff. subst cat. cbn [settingKey statKey weight].
      split; [exact Hl|]. split; [exact Hw|]. split; [exact Hi|].
      split; [reflexivity|].
      destruct (SETTINGS_TO_STATS_MAP !! k) as [s|] eqn:E; simpl.
      - apply (settings_table_truthy k s E).
      - exact Hk. }
    change k with (settingKey cat). rewrite scores_lookup by exact Hcat.
    eexists. reflexivity.
Qed.

Lemma X2_score_keys_witness :
  ~ is_Some
      (calculateZScores Samples.league Samples.turnovers Samples.toSettings
         !! "a"%string ≫= (fun entry => scores entry !! "pts"%string)).
Proof.
  destruct (calculateZScores Samples.league Samples.turnovers Samples.toSettings
              !! "a"%string) as [entry|] eqn:He;
    [|vm_compute in He; discriminate He].
  simpl. intros H.
  apply (X2_score_keys Samples.league Samples.turnovers Samples.toSettings
           "a"%string entry "pts"%string He) in H.
  destruct H as (w & Hw & _). vm_compute in Hw. discriminate Hw.
Defined.




Lemma baselineOf_statKey cat1 cat2 pop :
  statKey cat1 = statKey cat2 -> baselineOf cat1 pop = baselineOf cat2 pop.
Proof.
  intros E. unfold baselineOf, categoryValues. rewrite E. reflexivity.
Qed.

Lemma playerValue_statKey cat1 cat2 math pStats :
  statKey cat1 = statKey cat2 ->
  playerValue cat1 math pStats = playerValue cat2 math pStats.
Proof.
  intros E. unfold playerValue. rewrite E. reflexivity.
Qed.

(** X6.  Two setting keys that resolve to the same stat (such as [st] and
    [stl]) get the same baseline, and with equal weights every player
    gets the same score under both keys. *)
Theorem X6_synonym_keys_agree leagueRosters allStats scoringSettings cat1 cat2 :
  In cat1 (activeCats scoringSettings) ->
  In cat2 (activeCats scoringSettings) ->
  statKey cat1 = statKey cat2 ->
  (exists b,
     baselines leagueRosters allStats scoringSettings !! settingKey cat1 = Some b /\
     baselines leagueRosters allStats scoringSettings !! settingKey cat2 = Some b) /\
  (weight cat1 == weight cat2 ->
   forall id entry,
     calculateZScores leagueRosters allStats scoringSettings !! id = Some entry ->
     is_Some (scores entry !! settingKey cat1) /\
     scores entry !! settingKey cat1 = scores entry !! settingKey cat2).
Proof.
  intros H1 H2 E. split.
  - exists (baselineOf cat1 (population leagueRosters allStats)).
    unfold baselines. rewrite !leagueMath_lookup by assumption.
    rewrite (baselineOf_statKey cat1 cat2 _ E). auto.
  - intros Ew id entry Hentry. apply calculateZScores_lookup in Hentry.
    destruct Hentry as (_ & _ & _ & pStats & _ & _ & ->).
    rewrite !scores_lookup by assumption. split; [eexists; reflexivity|].
    f_equal. apply NumFacts.toFixed2_comp.
    rewrite !categoryZ_linear.
    rewrite (baselineOf_statKey cat1 cat2 _ E).
    rewrite (playerValue_statKey cat1 cat2 _ _ E).
    assert (Eb : Qlt_bool (weight cat1) 0 = Qlt_bool (weight cat2) 0).
    { unfold Qlt_bool. rewrite Ew. reflexivity. }
    rewrite Eb, Ew. reflexivity.
Qed.

Lemma X6_synonym_keys_agree_witness :
  exists b,
    baselines Samples.league Samples.turnovers MoreSamples.stealSettings
      !! "st"%string = Some b /\
    baselines Samples.league Samples.turnovers MoreSamples.stealSettings
      !! "stl"%string = Some b.
Proof.
  destruct (X6_synonym_keys_agree Samples.league Samples.turnovers
              MoreSamples.stealSettings MoreSamples.stCat MoreSamples.stlCat)
    as [Hb _].
  - vm_compute. auto.
  - vm_compute. auto.
  - reflexivity.
  - exact Hb.
Defined.

End ZScoreMore.

(** ** The trend detector, continued *)

Module TrendMore.

Import Trend TrendFacts.
Local Open Scope Q_scope.

Lemma Qabs_le_iff x y : Qabs x <= y <-> - y <= x /\ x <= y.
Proof. apply Qabs_Qle_condition. Qed.

Ltac split_comparisons :=
  repeat match goal with
         | H : context [Qlt_bool ?a ?b] |- _ =>
             let E := fresh "E" in
             destruct (Qlt_bool a b) eqn:E;
             [apply NumFacts.Qlt_bool_iff in E | apply NumFacts.Qlt_bool_false in E]
         | |- context [Qlt_bool ?a ?b] =>
             let E := fresh "E" in
             destruct (Qlt_bool a b) eqn:E;
             [apply NumFacts.Qlt_bool_iff in E | apply NumFacts.Qlt_bool_false in E]
         end.

Lemma toFixed1_mono x y : x <= y -> toFixed1 x <= toFixed1 y.
Proof.
  intros H. unfold toFixed1.
  assert (Hr := SumFacts.roundHalfAway_mono (x * 10) (y * 10)).
  unfold Qle. simpl. apply Z.mul_le_mono_nonneg_r; [lia|]. apply Hr. lra.
Qed.

Lemma Qmin_le_l x y : Qmin x y <= x.
Proof.
  unfold Qmin. destruct (Qle_bool x y) eqn:E.
  - apply Qle_refl.
  - apply NumFacts.Qle_bool_false in E. lra.
Qed.

Lemma Qmin_glb x y z : z <= x -> z <= y -> z <= Qmin x y.
Proof.
  intros Hx Hy. unfold Qmin. destruct (Qle_bool x y); assumption.
Qed.

Lemma Qmax_ge_r x y : y <= Qmax x y.
Proof.
  unfold Qmax. destruct (Qle_bool x y) eqn:E.
  - apply Qle_refl.
  - apply NumFacts.Qle_bool_false in E. lra.
Qed.

Lemma confidence_bounds recentGP seasonGP zDifference :
  confidence recentGP seasonGP zDifference <= 100 /\
  (0 <= recentGP -> 0 <= confidence recentGP seasonGP zDifference).
Proof.
  unfold confidence.
  assert (H1 := Qmin_le_l 100 (recentGP / Qmax seasonGP 1 * 100)).
  assert (H2 := Qmin_le_l 100 (Qabs zDifference * 10)).
  split; [lra|]. intros Hgp.
  assert (H3 : 0 <= Qmin 100 (recentGP / Qmax seasonGP 1 * 100)).
  { apply Qmin_glb; [lra|].
    assert (Hm := Qmax_ge_r seasonGP 1).
    assert (Hi : 0 < / Qmax seasonGP 1) by (apply Qinv_lt_0_compat; lra).
    unfold Qdiv.
    assert (0 <= recentGP * / Qmax seasonGP 1)
      by (apply Qmult_le_0_compat; lra).
    lra. }
  assert (H4 : 0 <= Qmin 100 (Qabs zDifference * 10)).
  { apply Qmin_glb; [lra|]. assert (H := Qabs_nonneg zDifference). lra. }
  lra.
Qed.

(** X8.  The confidence score of a trend record is at most 100, and it is
    at least 0 when the recent games played of the player are not
    negative. *)
Theorem X8_confidence_range seasonZScores recentZScores seasonStats recentStats t :
  In t (trends (calculateTrends seasonZScores recentZScores seasonStats recentStats)) ->
  confidenceScore t <= 100 /\
  (0 <= gpOrZero recentStats (playerId t) -> 0 <= confidenceScore t).
Proof.
  intros Ht. simpl in Ht. apply collectTrends_In in Ht.
  destruct Ht as (pid & sz & rz & _ & _ & ->). cbn [confidenceScore playerId trendOf].
  destruct (confidence_bounds (gpOrZero recentStats pid) (gpOrZero seasonStats pid)
              (totalZ rz - totalZ sz)) as [Hup Hlow].
  split.
  - apply (toFixed1_mono _ 100) in Hup.
    apply (Qle_trans _ _ _ Hup). vm_compute. discriminate.
  - intros Hgp. apply (Qle_trans _ (toFixed1 0)); [vm_compute; discriminate|].
    apply toFixed1_mono. apply Hlow. exact Hgp.
Qed.

Lemma X8_confidence_range_witness :
  exists t,
    In t (trends (calculateTrends Samples.seasonZ Samples.recentZ ∅ ∅)) /\
    confidenceScore t <= 100 /\ 0 <= confidenceScore t.
Proof.
  destruct (trends (calculateTrends Samples.seasonZ Samples.recentZ ∅ ∅))
    as [|t l] eqn:E; [vm_compute in E; discriminate E|].
  exists t.
  assert (Ht : In t (trends (calculateTrends Samples.seasonZ Samples.recentZ ∅ ∅))).
  { rewrite E. left. reflexivity. }
  rewrite <- E. split; [exact Ht|].
  destruct (X8_confidence_range Samples.seasonZ Samples.recentZ ∅ ∅ t Ht)
    as [Hup Hlow].
  split; [exact Hup|]. apply Hlow.
  unfold gpOrZero. rewrite lookup_empty. apply Qle_refl.
Defined.

Lemma sortBy_ascending {A : Type} (key : A -> Q) (l : list A) :
  StronglySorted (fun a b => key a <= key b) (sortBy (fun a b => key a - key b) l).
Proof.
  apply Sorted_StronglySorted.
  - intros a b c Hab Hbc. apply (Qle_trans _ _ _ Hab Hbc).
  - assert (Hs := SortFacts.sortBy_sorted (fun a b => key a - key b)).
    eapply Sorted_ind with (P := fun l => Sorted (fun a b => key a <= key b) l);
      [constructor | | apply Hs].
    + intros a l0 _ IH Hd. constructor; [exact IH|].
      destruct Hd; constructor. lra.
    + intros a b. destruct (Qlt_le_dec (key a) (key b)); [left|right]; lra.
Qed.

Lemma statusIs_spec s t : statusIs s t = true <-> status t = s.
Proof.
  unfold statusIs. destruct s, (status t); split; intros H;
    try reflexivity; discriminate.
Qed.

(** X9.  The four candidate lists of a trend analysis are the records of
    their status, each once: buy-low and sell-high candidates by
    descending confidence, breakouts by descending and declines by
    ascending recent z.  A NEUTRAL record is in none of them. *)
Theorem X9_candidate_lists seasonZScores recentZScores seasonStats recentStats :
  let result :=
    calculateTrends seasonZScores recentZScores seasonStats recentStats in
  (Permutation (buyLowCandidates result)
     (List.filter (statusIs BUY_LOW) (trends result)) /\
   StronglySorted (fun a b => confidenceScore b <= confidenceScore a)
     (buyLowCandidates result)) /\
  (Permutation (sellHighCandidates result)
     (List.filter (statusIs SELL_HIGH) (trends result)) /\
   StronglySorted (fun a b => confidenceScore b <= confidenceScore a)
     (sellHighCandidates result)) /\
  (Permutation (breakouts result)
     (List.filter (statusIs BREAKOUT) (trends result)) /\
   StronglySorted (fun a b => recentZ b <= recentZ a) (breakouts result)) /\
  (Permutation (declines result)
     (List.filter (statusIs DECLINE) (trends result)) /\
   StronglySorted (fun a b => recentZ a <= recentZ b) (declines result)) /\
  forall t,
    In t (trends result) ->
    (In t (buyLowCandidates result) <-> status t = BUY_LOW) /\
    (In t (sellHighCandidates result) <-> status t = SELL_HIGH) /\
    (In t (breakouts result) <-> status t = BREAKOUT) /\
    (In t (declines result) <-> status t = DECLINE).
Proof.
  intros result. subst result.
  cbn [calculateTrends trends buyLowCandidates sellHighCandidates breakouts declines].
  repeat split;
    try (symmetry; apply SortFacts.sortBy_perm);
    try apply (SortFacts.sortBy_descending confidenceScore);
    try apply (SortFacts.sortBy_descending recentZ);
    try apply (sortBy_ascending recentZ);
    try (intros Hin; apply SortFacts.sortBy_In, filter_In in Hin;
         apply statusIs_spec; tauto);
    try (intros Hs; apply SortFacts.sortBy_In, filter_In;
         split; [assumption | apply statusIs_spec; exact Hs]).
Qed.

End TrendMore.

(** ** The consistency estimator, continued *)

Module ConsistencyMore.

Import Consistency ConsistencyDisplay.
Local Open Scope Q_scope.

Lemma toFixed3_mono x y : x <= y -> toFixed3 x <= toFixed3 y.
Proof.
  intros H. unfold toFixed3.
  assert (Hr := SumFacts.roundHalfAway_mono (x * 1000) (y * 1000)).
  unfold Qle. simpl. apply Z.mul_le_mono_nonneg_r; [lia|]. apply Hr. lra.
Qed.

Lemma Qmax_spec x y : x <= Qmax x y /\ y <= Qmax x y.
Proof.
  unfold Qmax. destruct (Qle_bool x y) eqn:E.
  - apply Qle_bool_iff in E. lra.
  - apply NumFacts.Qle_bool_false in E. lra.
Qed.

(** The perturbation term [statVariance] is never negative, and it is at
    most 2 for a non-negative stat line. *)
Lemma statVariance_bounds p r a :
  let usage := p + r * (5 # 10) + a * (7 # 10) in
  0 <= Qabs (p - r - a) / Qmax usage 1 /\
  (0 <= p -> 0 <= r -> 0 <= a -> Qabs (p - r - a) / Qmax usage 1 <= 2).
Proof.
  intros usage.
  destruct (Qmax_spec usage 1) as [Hu H1].
  assert (Hpos : 0 < Qmax usage 1) by lra.
  split.
  - apply Qle_shift_div_l; [exact Hpos|]. assert (H := Qabs_nonneg (p - r - a)). lra.
  - intros Hp Hr Ha. apply Qle_shift_div_r; [exact Hpos|].
    assert (Habs : Qabs (p - r - a) <= p + r + a).
    { apply Qabs_Qle_condition. lra. }
    subst usage. lra.
Qed.

Lemma perGame_nonneg (x gp : Q) : 0 <= x -> 0 < gp -> 0 <= x / gp.
Proof.
  intros Hx Hg. apply Qle_shift_div_l; [exact Hg|]. lra.
Qed.

Lemma field_nonneg ps key :
  (forall v, statFields ps !! key = Some v -> 0 <= v) -> 0 <= field ps key.
Proof.
  intros H. unfold field. destruct (statFields ps !! key) as [v|]; simpl.
  - apply H. reflexivity.
  - apply Qle_refl.
Qed.

Ltac cases_on_thresholds :=
  repeat match goal with
         | |- context [Qlt_bool ?a ?b] =>
             let E := fresh "E" in
             destruct (Qlt_bool a b) eqn:E;
             [apply NumFacts.Qlt_bool_iff in E | apply NumFacts.Qlt_bool_false in E]
         | H : context [Qlt_bool ?a ?b] |- _ =>
             let E := fresh "E" in
             destruct (Qlt_bool a b) eqn:E;
             [apply NumFacts.Qlt_bool_iff in E | apply NumFacts.Qlt_bool_false in E]
         end.

(** X11.  The profile text of a computed rating is "N/A" exactly when the
    risk level is "N/A", and it is never "Very Consistent": the reported
    cv of a rated player is at least 0.15.  The risk colour is the gray
    default exactly for the "N/A" level. *)
Theorem X11_profile_of_rating playerStats :
  let result := calculateConsistency playerStats in
  (formatConsistency (cv result) = "N/A"%string <->
   riskLevel result = "N/A"%string) /\
  formatConsistency (cv result) <> "Very Consistent"%string /\
  (riskLevel result <> "N/A"%string -> 15 # 100 <= cv result) /\
  (getRiskColor (riskLevel result) = "#999999"%string <->
   riskLevel result = "N/A"%string).
Proof.
  intros result. subst result. unfold calculateConsistency.
  assert (Hna :
    (formatConsistency (cv notAvailable) = "N/A"%string <->
     riskLevel notAvailable = "N/A"%string) /\
    formatConsistency (cv notAvailable) <> "Very Consistent"%string /\
    (riskLevel notAvailable <> "N/A"%string -> 15 # 100 <= cv notAvailable) /\
    (getRiskColor (riskLevel notAvailable) = "#999999"%string <->
     riskLevel notAvailable = "N/A"%string)).
  { split; [split; reflexivity|]. split; [discriminate|].
    split; [|split; reflexivity].
    intros H. exfalso. apply H. reflexivity. }
  destruct playerStats as [ps|]; [|exact Hna].
  destruct (statFields ps !! "gp"%string) as [gp|]; [|exact Hna].
  destruct (Qeq_bool gp 0); [exact Hna|]. clear Hna.
  cbn [cv riskLevel].
  assert (Hest : 15 # 100 <= estimatedCV ps gp).
  { unfold estimatedCV.
    destruct (statVariance_bounds (ppg ps gp) (rpg ps gp) (apg ps gp)) as [Hlow _].
    fold (usageScore ps gp) in Hlow.
    cases_on_thresholds; lra. }
  assert (Hcv : 15 # 100 <= toFixed3 (estimatedCV ps gp)).
  { apply (Qle_trans _ (toFixed3 (15 # 100))); [vm_compute; discriminate|].
    apply toFixed3_mono. exact Hest. }
  clear Hest.
  generalize dependent (toFixed3 (estimatedCV ps gp)). intros c Hcv.
  generalize (estimatedCV ps gp). intros est.
  assert (Hnz : Qeq_bool c 0 = false).
  { apply NumFacts.Qeq_bool_false. intros E. rewrite E in Hcv. lra. }
  assert (Hge : Qlt_bool c (15 # 100) = false)
    by (apply NumFacts.Qlt_bool_false; exact Hcv).
  unfold formatConsistency, riskLevelOf. rewrite Hnz, Hge.
  repeat split; try (intros _; exact Hcv);
    cases_on_thresholds; try discriminate.
Qed.

End ConsistencyMore.

(** ** The streaming planner, continued *)

Module StreamingMore.

Import Streaming StreamingFacts.
Local Open Scope Q_scope.

Local Arguments getPlayerMeta : simpl never.

(** The day plan at an index of the schedule. *)
Lemma day_plan_lookup input i day dp :
  dailySchedule input !! i = Some day ->
  days (buildStreamingPlan input) !! i = Some dp ->
  dp
  = dayPlan (getActiveSlotCount (rosterPositions input)) (freeAgentPool input)
      (rosterPlayersOf (roster input) (playerZScores input) (playersMap input)
         (buildStarterSet (matchups input) (roster_id <$> roster input)
            (roster input ≫= starters)))
      (teamGameMap input) day.
Proof.
  intros Hday Hdp. unfold buildStreamingPlan in Hdp. cbn [days] in Hdp.
  rewrite lookup_map, Hday in Hdp. injection Hdp as <-. reflexivity.
Qed.

Lemma upperAscii_idempotent c : upperAscii (upperAscii c) = upperAscii c.
Proof.
  destruct c as [[] [] [] [] [] [] [] []]; reflexivity.
Qed.

Lemma toUpperCase_idempotent s : toUpperCase (toUpperCase s) = toUpperCase s.
Proof.
  induction s as [|c s IH]; [reflexivity|].
  simpl. rewrite upperAscii_idempotent, IH. reflexivity.
Qed.

Lemma toUpperCase_empty s : toUpperCase s = ""%string -> s = ""%string.
Proof.
  destruct s; [reflexivity|discriminate].
Qed.

Lemma isBench_truthy slot : isBench slot = true -> truthy slot = true.
Proof.
  unfold isBench, truthy. intros H. apply bool_decide_eq_true in H.
  destruct slot; [|reflexivity].
  exfalso. unfold BENCH_CODES in H. cbn [toUpperCase] in H.
  apply elem_of_list_to_set in H.
  repeat (apply elem_of_cons in H; destruct H as [H|H]; [discriminate H|]).
  apply elem_of_nil in H. exact H.
Qed.

(** X12.  Active and bench slots partition the non-empty entries of the
    roster-slot template, and a slot is a bench slot whatever the case of
    its letters. *)
Theorem X12_slot_counts input :
  (activeSlots (metadata (buildStreamingPlan input))
   + benchSlots (metadata (buildStreamingPlan input))
   = length (List.filter truthy (rosterPositions input)))%nat /\
  forall slot, isBench (toUpperCase slot) = isBench slot.
Proof.
  split.
  - unfold buildStreamingPlan. cbn [metadata activeSlots benchSlots].
    unfold getActiveSlotCount, getBenchSlotCount.
    induction (rosterPositions input) as [|slot l IH]; [reflexivity|].
    cbn [List.filter].
    destruct (isBench slot) eqn:Eb.
    + rewrite (isBench_truthy slot Eb). cbn [andb negb length]. lia.
    + destruct (truthy slot); cbn [andb negb length]; lia.
  - intros slot. unfold isBench. rewrite toUpperCase_idempotent. reflexivity.
Qed.

(** X13.  On every day the holes are between 0 and the active slot
    count, they make up exactly the active slots the available players
    leave open, and the number of available players is the length of the
    own-player list. *)
Theorem X13_holes_arithmetic input i day dp :
  dailySchedule input !! i = Some day ->
  days (buildStreamingPlan input) !! i = Some dp ->
  dayActiveSlots dp = activeSlots (metadata (buildStreamingPlan input)) /\
  playersAvailable dp = length (ownPlayers dp) /\
  (0 <= holes dp <= Z.of_nat (dayActiveSlots dp))%Z /\
  (holes dp = 0%Z <-> (dayActiveSlots dp <= playersAvailable dp)%nat) /\
  ((playersAvailable dp <= dayActiveSlots dp)%nat ->
   holes dp = (Z.of_nat (dayActiveSlots dp) - Z.of_nat (playersAvailable dp))%Z).
Proof.
  intros Hday Hdp. rewrite (day_plan_lookup input i day dp Hday Hdp).
  unfold dayPlan. cbn [dayActiveSlots playersAvailable holes ownPlayers].
  split; [reflexivity|]. split.
  { rewrite SortFacts.sortBy_length. unfold enrichWithUpcomingGames.
    rewrite length_map. reflexivity. }
  lia.
Qed.

Lemma X13_holes_arithmetic_witness :
  exists dp,
    days (buildStreamingPlan Samples.streamingInput) !! 1%nat = Some dp /\
    holes dp = 0%Z.
Proof.
  destruct (days (buildStreamingPlan Samples.streamingInput) !! 1%nat)
    as [dp|] eqn:E; [|vm_compute in E; discriminate E].
  destruct (X13_holes_arithmetic Samples.streamingInput 1%nat
              (Samples.dayOf "2025-01-02" ["LAL"; "BOS"]%string) dp eq_refl E)
    as (Hact & Hav & _ & Hzero & _).
  exists dp. split; [reflexivity|]. apply Hzero.
  vm_compute in E. injection E as <-. vm_compute. auto.
Defined.

Lemma filter_map_comm {A B : Type} (f : A -> B) (p : B -> bool) (l : list A) :
  List.filter p (map f l) = map f (List.filter (fun x => p (f x)) l).
Proof.
  induction l as [|x l IH]; [reflexivity|].
  simpl. destruct (p (f x)); simpl; rewrite IH; reflexivity.
Qed.

Lemma enrich_ids entries teamGameMap referenceDate limit :
  map playerId (enrichWithUpcomingGames entries teamGameMap referenceDate limit)
  = map playerId entries.
Proof.
  unfold enrichWithUpcomingGames. rewrite map_map. reflexivity.
Qed.

Lemma rosterPlayers_ids roster playerZScores playersMap starters :
  map playerId (rosterPlayersOf roster playerZScores playersMap starters)
  = default [] (roster ≫= players).
Proof.
  unfold rosterPlayersOf. rewrite map_map.
  rewrite <- (map_id (default [] (roster ≫= players))) at 2.
  apply map_ext. intros pid.
  destruct (getPlayerMeta pid playersMap) as [[n ps] t]. reflexivity.
Qed.

Lemma ownPlayerOrder_le a b :
  ownPlayerOrder a b <= 0 <->
  (isStarter a = true /\ isStarter b = false) \/
  (isStarter a = isStarter b /\ zScore b <= zScore a).
Proof.
  unfold ownPlayerOrder.
  destruct (isStarter a), (isStarter b); simpl; split; intros H;
    try (right; split; [reflexivity|lra]);
    try (left; split; reflexivity);
    try (destruct H as [[H1 H2]|[H1 H2]]; try discriminate; lra);
    try lra.
Qed.

(** X14.  The own players of a day are the players of the target roster
    whose team plays that day, each listing once, arranged starters
    first and by descending z-score within starters and within the
    rest. *)
Theorem X14_own_players_order input i day dp :
  dailySchedule input !! i = Some day ->
  days (buildStreamingPlan input) !! i = Some dp ->
  Permutation (map playerId (ownPlayers dp))
    (List.filter
       (fun playerId =>
          truthy (teamOf (playersMap input) playerId)
          && bool_decide (teamOf (playersMap input) playerId ∈ teamsPlaying day))
       (default [] (roster input ≫= players))) /\
  StronglySorted
    (fun a b =>
       (isStarter a = true /\ isStarter b = false) \/
       (isStarter a = isStarter b /\ zScore b <= zScore a))
    (ownPlayers dp).
Proof.
  intros Hday Hdp. rewrite (day_plan_lookup input i day dp Hday Hdp).
  unfold dayPlan. cbn [ownPlayers]. split.
  - rewrite <- (Permutation_map playerId (SortFacts.sortBy_perm ownPlayerOrder _)).
    rewrite enrich_ids. unfold rosterPlayersOf at 1.
    rewrite filter_map_comm, map_map.
    match goal with
    | |- Permutation (map ?f (List.filter ?p ?l)) (List.filter ?q ?l) =>
        assert (Hp : List.filter p l = List.filter q l);
        [|assert (Hf : forall l', map f l' = l'); [|rewrite Hp, Hf; reflexivity]]
    end.
    + apply filter_ext. intros pid. rewrite playsOn_spec. unfold teamOf.
      destruct (getPlayerMeta pid (playersMap input)) as [[n ps] t]. reflexivity.
    + intros l'. rewrite <- (map_id l') at 2. apply map_ext. intros pid.
      destruct (getPlayerMeta pid (playersMap input)) as [[n ps] t]. reflexivity.
  - apply Sorted_StronglySorted.
    + intros a b c Hab Hbc.
      destruct Hab as [[Ha Hb]|[Eab Hab]], Hbc as [[Hb' Hc]|[Ebc Hbc]].
      * congruence.
      * left. split; congruence.
      * left. split; congruence.
      * right. split; [congruence|lra].
    + assert (Hs := SortFacts.sortBy_sorted ownPlayerOrder).
      eapply Sorted_ind
        with (P := fun l =>
                     Sorted (fun a b =>
                               (isStarter a = true /\ isStarter b = false) \/
                               (isStarter a = isStarter b /\ zScore b <= zScore a)) l);
        [constructor | | apply Hs].
      * intros a l0 _ IH Hd. constructor; [exact IH|].
        destruct Hd; constructor. apply ownPlayerOrder_le. assumption.
      * intros a b. rewrite !ownPlayerOrder_le.
        destruct (isStarter a), (isStarter b);
          destruct (Qlt_le_dec (zScore a) (zScore b));
          intuition (auto using Qlt_le_weak).
Qed.

Lemma X14_own_players_order_witness :
  exists dp,
    days (buildStreamingPlan Samples.streamingInput) !! 1%nat = Some dp /\
    Permutation (map playerId (ownPlayers dp)) ["a"; "b"]%string.
Proof.
  destruct (days (buildStreamingPlan Samples.streamingInput) !! 1%nat)
    as [dp|] eqn:E; [|vm_compute in E; discriminate E].
  destruct (X14_own_players_order Samples.streamingInput 1%nat
              (Samples.dayOf "2025-01-02" ["LAL"; "BOS"]%string) dp eq_refl E)
    as [Hperm _].
  exists dp. split; [reflexivity|]. exact Hperm.
Defined.

(** X15.  Every own player of a day carries at most 2 upcoming games and
    every recommendation at most 3; each of these games is a game of the
    player's team in the team-game index, dated on or after the day. *)
Theorem X15_upcoming_games input i day dp :
  dailySchedule input !! i = Some day ->
  days (buildStreamingPlan input) !! i = Some dp ->
  (forall player,
     In player (ownPlayers dp) ->
     (length (upcomingGames player) <= 2)%nat /\
     forall game,
       In game (upcomingGames player) ->
       In game (default [] (teamGameMap input !! team player)) /\
       String.leb (date day) (gameDate game) = true) /\
  (forall player,
     In player (recommendations dp) ->
     (length (upcomingGames player) <= 3)%nat /\
     forall game,
       In game (upcomingGames player) ->
       In game (default [] (teamGameMap input !! team player)) /\
       String.leb (date day) (gameDate game) = true).
Proof.
  intros Hday Hdp. rewrite (day_plan_lookup input i day dp Hday Hdp).
  unfold dayPlan. cbn [ownPlayers recommendations].
  assert (Henrich : forall entries limit player,
    In player (enrichWithUpcomingGames entries (teamGameMap input) (date day) limit) ->
    (length (upcomingGames player) <= limit)%nat /\
    forall game,
      In game (upcomingGames player) ->
      In game (default [] (teamGameMap input !! team player)) /\
      String.leb (date day) (gameDate game) = true).
  { intros entries limit player Hin. unfold enrichWithUpcomingGames in Hin.
    apply in_map_iff in Hin. destruct Hin as (e & <- & _).
    cbn [upcomingGames team withGames].
    split; [apply firstn_le_length|].
    intros game Hg. apply SortFacts.firstn_In, filter_In in Hg. exact Hg. }
  split.
  - intros player Hin. apply SortFacts.sortBy_In in Hin.
    apply (Henrich _ 2%nat player Hin).
  - intros player Hin. destruct (0 <? _)%Z; [|destruct Hin].
    apply SortFacts.firstn_In, in_map_iff in Hin.
    destruct Hin as (e & <- & He). cbn [upcomingGames team withReason].
    apply (Henrich _ 3%nat e He).
Qed.

Lemma X15_upcoming_games_witness :
  exists dp own pick,
    days (buildStreamingPlan MoreSamples.gamesInput) !! 0%nat = Some dp /\
    In own (ownPlayers dp) /\ length (upcomingGames own) = 2%nat /\
    In pick (recommendations dp) /\ length (upcomingGames pick) = 3%nat /\
    forall game,
      In game (upcomingGames pick) ->
      In game (default [] (teamGameMap MoreSamples.gamesInput !! team pick)) /\
      String.leb "2025-01-01" (gameDate game) = true.
Proof.
  destruct (days (buildStreamingPlan MoreSamples.gamesInput) !! 0%nat)
    as [dp|] eqn:E; [|vm_compute in E; discriminate E].
  destruct (X15_upcoming_games MoreSamples.gamesInput 0%nat
              (Samples.dayOf "2025-01-01" ["LAL"; "NYK"]%string) dp eq_refl E)
    as [_ Hrec].
  assert (E' := E). vm_compute in E'. injection E' as E'.
  destruct (ownPlayers dp) as [|own owns] eqn:Eown;
    [rewrite <- E' in Eown; discriminate Eown|].
  destruct (recommendations dp) as [|pick picks] eqn:Epick;
    [rewrite <- E' in Epick; discriminate Epick|].
  exists dp, own, pick. split; [reflexivity|].
  split; [rewrite Eown; left; reflexivity|].
  split; [rewrite <- E' in Eown; injection Eown as <- _; reflexivity|].
  split; [rewrite Epick; left; reflexivity|].
  split; [rewrite <- E' in Epick; injection Epick as <- _; reflexivity|].
  intros game Hgame. apply (Hrec pick); [left; reflexivity|exact Hgame].
Defined.

Lemma own_players_on_roster input i day dp :
  dailySchedule input !! i = Some day ->
  days (buildStreamingPlan input) !! i = Some dp ->
  forall own,
    In own (ownPlayers dp) ->
    In (playerId own) (default [] (roster input ≫= players)).
Proof.
  intros Hday Hdp own Hown.
  rewrite (day_plan_lookup input i day dp Hday Hdp) in Hown.
  unfold dayPlan in Hown. cbn [ownPlayers] in Hown.
  apply SortFacts.sortBy_In in Hown. unfold enrichWithUpcomingGames in Hown.
  apply in_map_iff in Hown. destruct Hown as (e & <- & He).
  apply filter_In in He. destruct He as [He _].
  cbn [playerId withGames]. rewrite <- (rosterPlayers_ids (roster input)
    (playerZScores input) (playersMap input)
    (buildStarterSet (matchups input) (roster_id <$> roster input)
       (roster input ≫= starters))).
  apply in_map. exact He.
Qed.

Lemma NoDup_omap_key {A B : Type} (key : B -> string)
    (f : string * A -> option B) (l : list (string * A)) :
  (forall e b, f e = Some b -> key b = fst e) ->
  NoDup (map fst l) -> NoDup (map key (omap f l)).
Proof.
  intros Hkey. induction l as [|e l IH]; intros Hnd; [constructor|].
  simpl in Hnd. apply NoDup_cons in Hnd. destruct Hnd as [He Hnd].
  simpl. destruct (f e) as [b|] eqn:Ef; [|apply IH; exact Hnd].
  simpl. apply NoDup_cons. split; [|apply IH; exact Hnd].
  intros Hin. apply He. apply list_elem_of_In in Hin. apply list_elem_of_In.
  apply in_map_iff in Hin. destruct Hin as (b' & Eb & Hb').
  apply list_elem_of_In, list_elem_of_omap in Hb'.
  destruct Hb' as (e' & He' & Ef').
  apply in_map_iff. exists e'. split; [|apply list_elem_of_In; exact He'].
  rewrite <- (Hkey e' b' Ef'), Eb. apply (Hkey e b Ef).
Qed.

Lemma NoDup_map_firstn {A B : Type} (f : A -> B) n (l : list A) :
  NoDup (map f l) -> NoDup (map f (firstn n l)).
Proof.
  intros H. rewrite <- (firstn_skipn n l), map_app in H.
  apply NoDup_app in H. tauto.
Qed.

Lemma freeAgentPool_NoDup input : NoDup (map playerId (freeAgentPool input)).
Proof.
  unfold freeAgentPool, collectFreeAgents. apply NoDup_map_firstn.
  rewrite <- (Permutation_map playerId (SortFacts.sortBy_perm _ _)).
  apply NoDup_omap_key; [|apply NoDup_fst_map_to_list].
  intros [pid z] b Hb. cbv beta iota zeta delta [fst snd] in Hb.
  destruct (bool_decide _); [discriminate|].
  destruct (getPlayerMeta pid (playersMap input)) as [[n ps] t].
  destruct (negb (truthy t)); [discriminate|]. injection Hb as <-. reflexivity.
Qed.

(** X16.  No player is recommended twice on a day, and a recommended
    player is on no roster of the league: never an own player of the day
    when the target roster is one of the league's rosters. *)
Theorem X16_recommendations_are_new input i day dp :
  dailySchedule input !! i = Some day ->
  days (buildStreamingPlan input) !! i = Some dp ->
  NoDup (map playerId (recommendations dp)) /\
  (forall player,
     In player (recommendations dp) ->
     ~ rostered (allRosters input) (playerId player)) /\
  (forall targetRoster,
     roster input = Some targetRoster ->
     In targetRoster (allRosters input) ->
     forall player own,
       In player (recommendations dp) ->
       In own (ownPlayers dp) ->
       playerId own <> playerId player).
Proof.
  intros Hday Hdp.
  assert (Hnew : forall player,
    In player (recommendations dp) ->
    ~ rostered (allRosters input) (playerId player)).
  { rewrite (day_plan_lookup input i day dp Hday Hdp).
    unfold dayPlan. cbn [recommendations].
    intros player Hin. destruct (0 <? _)%Z; [|destruct Hin].
    apply SortFacts.firstn_In, in_map_iff in Hin.
    destruct Hin as (e & <- & He). unfold enrichWithUpcomingGames in He.
    apply in_map_iff in He. destruct He as (agent & <- & Hagent).
    apply filter_In in Hagent. destruct Hagent as [Hagent _].
    apply freeAgentPool_In in Hagent.
    destruct Hagent as (z & _ & _ & Hr & _). exact Hr. }
  split; [|split; [exact Hnew|]].
  - rewrite (day_plan_lookup input i day dp Hday Hdp).
    unfold dayPlan. cbn [recommendations].
    destruct (0 <? _)%Z; [|constructor].
    apply NoDup_map_firstn. rewrite map_map. cbn [playerId withReason].
    change (fun x => playerId x) with playerId. rewrite enrich_ids.
    apply ZScoreFacts.NoDup_map_filter. apply freeAgentPool_NoDup.
  - intros targetRoster Hroster Hin player own Hplayer Hown E.
    apply (Hnew player Hplayer). exists targetRoster. split; [exact Hin|].
    rewrite <- E.
    assert (Hid := own_players_on_roster input i day dp Hday Hdp own Hown).
    rewrite Hroster in Hid. exact Hid.
Qed.

Lemma X16_recommendations_are_new_witness :
  exists dp,
    days (buildStreamingPlan Samples.streamingInput) !! 0%nat = Some dp /\
    NoDup (map playerId (recommendations dp)).
Proof.
  destruct (days (buildStreamingPlan Samples.streamingInput) !! 0%nat)
    as [dp|] eqn:E; [|vm_compute in E; discriminate E].
  destruct (X16_recommendations_are_new Samples.streamingInput 0%nat
              (Samples.dayOf "2025-01-01" ["LAL"; "NYK"]%string) dp eq_refl E)
    as [Hnd _].
  exists dp. split; [reflexivity | exact Hnd].
Defined.

End StreamingMore.

(** ** The trade scorer, continued *)

Module TradeMore.

Import Trade TradeFacts.
Local Open Scope Q_scope.

Lemma recommendTrades_In myRosterId leagueRosters playerZScores needCategory
    spareCategory ownerDisplayNames rec :
  In rec (recommendTrades myRosterId leagueRosters playerZScores needCategory
            spareCategory ownerDisplayNames) <->
  (exists myRoster, In myRoster leagueRosters /\ roster_id myRoster = myRosterId) /\
  In rec (collectRecommendations myRosterId leagueRosters playerZScores
            needCategory spareCategory ownerDisplayNames).
Proof.
  unfold recommendTrades.
  destruct (List.find (fun r => (roster_id r =? myRosterId)%Z) leagueRosters)
    as [found|] eqn:E.
  - rewrite SortFacts.sortBy_In. split; [|tauto]. intros H. split; [|exact H].
    apply find_some in E. destruct E as [Hin Hid]. apply Z.eqb_eq in Hid.
    exists found. auto.
  - split; [intros []|]. intros [(myRoster & Hin & Hid) _].
    apply (find_none _ _ E) in Hin. apply Z.eqb_neq in Hin. contradiction.
Qed.

(** X17.  Exchanging the need and the spare category keeps the
    recommended listings and negates every trade score; with the same
    category for both, every trade score is 0. *)
Theorem X17_swapping_categories myRosterId leagueRosters playerZScores
    needCategory spareCategory ownerDisplayNames :
  length (recommendTrades myRosterId leagueRosters playerZScores spareCategory
            needCategory ownerDisplayNames)
  = length (recommendTrades myRosterId leagueRosters playerZScores needCategory
              spareCategory ownerDisplayNames) /\
  (forall rec,
     In rec (recommendTrades myRosterId leagueRosters playerZScores needCategory
               spareCategory ownerDisplayNames) ->
     exists swapped,
       In swapped (recommendTrades myRosterId leagueRosters playerZScores
                     spareCategory needCategory ownerDisplayNames) /\
       playerId swapped = playerId rec /\
       rosterIndex swapped = rosterIndex rec /\
       needCategoryZ (stats swapped) = spareCategoryZ (stats rec) /\
       spareCategoryZ (stats swapped) = needCategoryZ (stats rec) /\
       tradeScore (stats swapped) == - tradeScore (stats rec)) /\
  (needCategory = spareCategory ->
   forall rec,
     In rec (recommendTrades myRosterId leagueRosters playerZScores needCategory
               spareCategory ownerDisplayNames) ->
     tradeScore (stats rec) == 0).
Proof.
  split; [|split].
  - unfold recommendTrades.
    destruct (List.find _ leagueRosters); [|reflexivity].
    rewrite !SortFacts.sortBy_length. unfold collectRecommendations.
    rewrite !(length_concat_imap _
                (fun roster =>
                   if (roster_id roster =? myRosterId)%Z then 0%nat
                   else length (List.filter (hasEntry playerZScores)
                                  (default [] (players roster))))); [reflexivity| |];
      intros i roster; destruct (roster_id roster =? myRosterId)%Z;
      try reflexivity; apply recommendationOf_length.
  - intros rec Hrec. apply recommendTrades_In in Hrec.
    destruct Hrec as [Hmy Hrec]. apply collectRecommendations_In in Hrec.
    destruct Hrec as (i & roster & pid & Hi & Hne & Hpid & Hrec).
    unfold recommendationOf in Hrec.
    destruct (playerZScores !! pid) as [playerData|] eqn:Ez; [|discriminate].
    injection Hrec as <-.
    eexists. split.
    + apply recommendTrades_In. split; [exact Hmy|].
      apply collectRecommendations_In. exists i, roster, pid.
      split; [exact Hi|]. split; [exact Hne|]. split; [exact Hpid|].
      unfold recommendationOf. rewrite Ez. reflexivity.
    + cbn. repeat split; try reflexivity. ring.
  - intros -> rec Hrec. apply recommendTrades_In in Hrec.
    destruct Hrec as [_ Hrec]. apply collectRecommendations_In in Hrec.
    destruct Hrec as (i & roster & pid & _ & _ & _ & Hrec).
    unfold recommendationOf in Hrec.
    destruct (playerZScores !! pid) as [playerData|]; [|discriminate].
    injection Hrec as <-. cbn. ring.
Qed.

End TradeMore.

(** ** Loops over the entries of an object *)

Module EntryLoops.

(** A loop over [Object.entries] (or [Object.keys]) whose body touches
    only the property of the current key. *)
Lemma fold_keyed_list {A V : Type}
    (f : gmap string V -> string * A -> gmap string V)
    (h : option V -> A -> option V) :
  (forall m e k,
     f m e !! k
     = if decide (k = fst e)
       then match h (m !! k) (snd e) with Some v => Some v | None => m !! k end
       else m !! k) ->
  forall l m0 k,
    NoDup (map fst l) ->
    (forall a,
       In (k, a) l ->
       fold_left f l m0 !! k
       = match h (m0 !! k) a with Some v => Some v | None => m0 !! k end) /\
    (~ In k (map fst l) -> fold_left f l m0 !! k = m0 !! k).
Proof.
  intros Hf l. induction l as [|e l IH]; intros m0 k Hnd.
  - split; [intros a []|reflexivity].
  - simpl in Hnd. apply NoDup_cons in Hnd. destruct Hnd as [He Hnd].
    rewrite list_elem_of_In in He.
    destruct (IH (f m0 e) k Hnd) as [IHin IHout]. split.
    + intros a [->|Hin]; simpl.
      * rewrite IHout by exact He. rewrite Hf. simpl.
        destruct (decide (k = k)); [reflexivity|congruence].
      * rewrite (IHin a Hin). rewrite Hf.
        destruct (decide (k = fst e)) as [->|Hne]; [|reflexivity].
        exfalso. apply He. apply in_map_iff. exists (fst e, a). auto.
    + intros Hk. simpl. rewrite IHout.
      * rewrite Hf. destruct (decide (k = fst e)) as [->|Hne]; [|reflexivity].
        exfalso. apply Hk. left. reflexivity.
      * intros H. apply Hk. right. exact H.
Qed.

Lemma fold_keyed {A V : Type}
    (f : gmap string V -> string * A -> gmap string V)
    (h : option V -> A -> option V) :
  (forall m e k,
     f m e !! k
     = if decide (k = fst e)
       then match h (m !! k) (snd e) with Some v => Some v | None => m !! k end
       else m !! k) ->
  forall (w : gmap string A) m0 k,
    fold_left f (map_to_list w) m0 !! k
    = match w !! k with
      | Some a => match h (m0 !! k) a with Some v => Some v | None => m0 !! k end
      | None => m0 !! k
      end.
Proof.
  intros Hf w m0 k.
  destruct (fold_keyed_list f h Hf (map_to_list w) m0 k
              (NoDup_fst_map_to_list w)) as [Hin Hout].
  destruct (w !! k) as [a|] eqn:E.
  - apply Hin. apply list_elem_of_In, elem_of_map_to_list. exact E.
  - apply Hout. intros H. apply in_map_iff in H. destruct H as ([k' a] & <- & H).
    apply list_elem_of_In, elem_of_map_to_list in H. simpl in E. congruence.
Qed.

End EntryLoops.

(** ** Injury status *)

Module InjuryFacts.

Import Injury.

Local Arguments getPlayerInjuryDetails : simpl never.
Local Arguments getPlayerInjuryStatus : simpl never.

Lemma truthyText_Some o s : truthyText o = Some s -> s <> ""%string.
Proof.
  unfold truthyText. destruct o as [t|]; [|discriminate].
  destruct (truthy t) eqn:E; [|discriminate]. intros H. injection H as <-.
  unfold truthy in E. apply negb_true_iff, String.eqb_neq in E. exact E.
Qed.

Lemma status_nonempty playerData s :
  getPlayerInjuryStatus playerData = Some s -> s <> ""%string.
Proof.
  unfold getPlayerInjuryStatus. destruct playerData as [d|]; [|discriminate].
  destruct (truthyText (injury_status d)) as [t|] eqn:E.
  - intros H. injection H as <-. apply (truthyText_Some _ _ E).
  - destruct (active d) as [[]|];
      try (intros H; injection H as <-; discriminate);
      destruct (truthyText (injury_start_date d));
      intros H; try discriminate H; injection H as <-; discriminate.
Qed.

Lemma injuryMap_lookup (injuriesData : gmap string PlayerData) playerId :
  injuryMap injuriesData !! playerId
  = injuriesData !! playerId ≫= (fun d => getPlayerInjuryDetails (Some d)).
Proof.
  unfold injuryMap.
  rewrite (EntryLoops.fold_keyed _
             (fun _ d => getPlayerInjuryDetails (Some d))).
  - rewrite lookup_empty. destruct (injuriesData !! playerId) as [d|]; simpl;
      [|reflexivity].
    destruct (getPlayerInjuryDetails (Some d)); reflexivity.
  - intros m e k.
    destruct (getPlayerInjuryDetails (Some (snd e))) as [d|].
    + destruct (decide (k = fst e)) as [->|Hne].
      * apply lookup_insert_eq.
      * apply lookup_insert_ne. congruence.
    + destruct (decide (k = fst e)); reflexivity.
Qed.

(** X18.  Injury details exist exactly when an injury status does and
    carry that status; status and details text are never empty; a
    non-empty [injury_status] is the status whatever the other
    properties say; and the injury map of a roster view has an entry
    exactly for the players with a status. *)
Theorem X18_injury_details :
  (forall playerData,
     getPlayerInjuryDetails playerData = None <->
     getPlayerInjuryStatus playerData = None) /\
  (forall playerData r,
     getPlayerInjuryDetails playerData = Some r ->
     getPlayerInjuryStatus playerData = Some (status r) /\
     status r <> ""%string /\ details r <> ""%string) /\
  (forall d s,
     injury_status d = Some s -> s <> ""%string ->
     getPlayerInjuryStatus (Some d) = Some s) /\
  (forall (injuriesData : gmap string PlayerData) playerId,
     is_Some (injuryMap injuriesData !! playerId) <->
     exists d,
       injuriesData !! playerId = Some d /\
       is_Some (getPlayerInjuryStatus (Some d))).
Proof.
  assert (Hdetails : forall playerData r,
    getPlayerInjuryDetails playerData = Some r ->
    getPlayerInjuryStatus playerData = Some (status r) /\
    status r <> ""%string /\ details r <> ""%string).
  { intros playerData r H. unfold getPlayerInjuryDetails in H.
    destruct playerData as [d|]; [|discriminate].
    destruct (getPlayerInjuryStatus (Some d)) as [s|] eqn:Es; [|discriminate].
    injection H as <-. cbn [status details].
    split; [reflexivity|]. split; [apply (status_nonempty _ _ Es)|].
    destruct (truthyText (injury d)) as [t|] eqn:E1;
      [apply (truthyText_Some _ _ E1)|].
    destruct (truthyText (injury_details d)) as [t|] eqn:E2;
      [apply (truthyText_Some _ _ E2)|discriminate]. }
  assert (Hnone : forall playerData,
    getPlayerInjuryDetails playerData = None <->
    getPlayerInjuryStatus playerData = None).
  { intros playerData. unfold getPlayerInjuryDetails.
    destruct playerData as [d|]; [|split; reflexivity].
    destruct (getPlayerInjuryStatus (Some d)); split; intros H;
      try discriminate; reflexivity. }
  split; [exact Hnone|]. split; [exact Hdetails|]. split.
  - intros d s Hs Hne. unfold getPlayerInjuryStatus, truthyText. rewrite Hs.
    unfold truthy. apply String.eqb_neq in Hne. rewrite Hne. reflexivity.
  - intros injuriesData playerId. rewrite injuryMap_lookup. split.
    + intros [r Hr]. destruct (injuriesData !! playerId) as [d|]; [|discriminate].
      simpl in Hr. exists d. split; [reflexivity|].
      apply Hdetails in Hr. destruct Hr as [Hr _]. eexists. exact Hr.
    + intros (d & -> & [s Hs]). simpl.
      destruct (getPlayerInjuryDetails (Some d)) as [r|] eqn:E;
        [eexists; reflexivity|].
      apply Hnone in E. congruence.
Qed.

End InjuryFacts.

(** ** Merging weekly stats *)

Module WeeklyStatsFacts.

Import WeeklyStats.
Local Open Scope Q_scope.

Lemma numberOr0_setField_eq t key v : numberOr0 (setField t key v) key = v.
Proof.
  unfold numberOr0, setField. cbn [statFields]. rewrite lookup_insert_eq.
  reflexivity.
Qed.

Lemma numberOr0_setField_ne t k key v :
  k <> key -> numberOr0 (setField t k v) key = numberOr0 t key.
Proof.
  intros H. unfold numberOr0, setField. cbn [statFields].
  rewrite lookup_insert_ne by exact H. reflexivity.
Qed.

Lemma fold_setField_name (g : PlayerStats -> string -> Q) keys t :
  player_name (fold_left (fun t key => setField t key (g t key)) keys t)
  = player_name t.
Proof.
  revert t. induction keys as [|k ks IH]; intros t; [reflexivity|].
  simpl. rewrite IH. reflexivity.
Qed.

Lemma fold_setField_out (g : PlayerStats -> string -> Q) keys t key :
  ~ In key keys ->
  numberOr0 (fold_left (fun t key => setField t key (g t key)) keys t) key
  = numberOr0 t key.
Proof.
  revert t. induction keys as [|k ks IH]; intros t Hk; [reflexivity|].
  simpl. rewrite IH by (intros H; apply Hk; right; exact H).
  apply numberOr0_setField_ne. intros ->. apply Hk. left. reflexivity.
Qed.

Lemma fold_setField_in (g : PlayerStats -> string -> Q) keys t key :
  (forall t k v, k <> key -> g (setField t k v) key = g t key) ->
  NoDup keys -> In key keys ->
  numberOr0 (fold_left (fun t key => setField t key (g t key)) keys t) key
  = g t key.
Proof.
  intros Hg. revert t. induction keys as [|k ks IH]; intros t Hnd Hin;
    [destruct Hin|].
  apply NoDup_cons in Hnd. destruct Hnd as [Hk Hnd].
  rewrite list_elem_of_In in Hk. simpl. destruct Hin as [->|Hin].
  - rewrite fold_setField_out by exact Hk. apply numberOr0_setField_eq.
  - rewrite IH by assumption. apply Hg. intros ->. contradiction.
Qed.

Lemma summedKeys_NoDup : NoDup summedKeys.
Proof. apply (bool_decide_unpack _). vm_compute. exact I. Qed.

Lemma resetKeys_NoDup : NoDup resetKeys.
Proof. apply (bool_decide_unpack _). vm_compute. exact I. Qed.

Lemma tf_not_summed : ~ In "tf"%string summedKeys.
Proof.
  intros H. repeat (destruct H as [H|H]; [discriminate H|]). exact H.
Qed.

Lemma sumInto_name target pData :
  player_name (sumInto target pData) = player_name target.
Proof.
  unfold sumInto.
  destruct (statFields pData !! "tf"%string) as [tf|];
    [destruct (Qeq_bool tf 0)|]; cbn [player_name setField];
    apply (fold_setField_name (fun t key => numberOr0 t key + numberOr0 pData key)).
Qed.

(** The summing block adds the week's value to every summed key and to
    [tf]. *)
Lemma sumInto_value target pData key :
  In key summedKeys \/ key = "tf"%string ->
  numberOr0 (sumInto target pData) key
  == numberOr0 target key + numberOr0 pData key.
Proof.
  intros Hkey. unfold sumInto.
  set (summed :=
    fold_left
      (fun t key => setField t key (numberOr0 t key + numberOr0 pData key))
      summedKeys target).
  assert (Hin : In key summedKeys ->
                numberOr0 summed key = numberOr0 target key + numberOr0 pData key).
  { intros Hin.
    apply (fold_setField_in
             (fun t key => numberOr0 t key + numberOr0 pData key));
      [|apply summedKeys_NoDup | exact Hin].
    intros t k v Hne. rewrite numberOr0_setField_ne by exact Hne. reflexivity. }
  assert (Hout : numberOr0 summed "tf" = numberOr0 target "tf").
  { apply (fold_setField_out
             (fun t key => numberOr0 t key + numberOr0 pData key)).
    apply tf_not_summed. }
  destruct Hkey as [Hkey| ->].
  - assert (Hne : "tf"%string <> key).
    { intros <-. apply tf_not_summed. exact Hkey. }
    destruct (statFields pData !! "tf"%string) as [tf|];
      [destruct (Qeq_bool tf 0)|];
      rewrite ?numberOr0_setField_ne by exact Hne; rewrite (Hin Hkey);
      reflexivity.
  - destruct (statFields pData !! "tf"%string) as [tf|] eqn:Etf.
    + assert (Hp : numberOr0 pData "tf" = tf)
        by (unfold numberOr0; rewrite Etf; reflexivity).
      rewrite Hp. destruct (Qeq_bool tf 0) eqn:E.
      * apply Qeq_bool_iff in E. rewrite Hout. lra.
      * rewrite numberOr0_setField_eq, Hout. reflexivity.
    + assert (Hp : numberOr0 pData "tf" = 0)
        by (unfold numberOr0; rewrite Etf; reflexivity).
      rewrite Hp, Hout. ring.
Qed.

Lemma mergeWeek_lookup initial (mergedStats weekStats : gmap string PlayerStats)
    playerId :
  mergeWeek initial mergedStats weekStats !! playerId
  = match weekStats !! playerId with
    | Some pData =>
        Some (sumInto
                (match mergedStats !! playerId with
                 | Some t => t
                 | None => initial pData
                 end) pData)
    | None => mergedStats !! playerId
    end.
Proof.
  unfold mergeWeek.
  rewrite (EntryLoops.fold_keyed _
             (fun o pData =>
                Some (sumInto (match o with
                               | Some t => t
                               | None => initial pData
                               end) pData))).
  - reflexivity.
  - intros m e k. destruct (decide (k = fst e)) as [->|Hne].
    + apply lookup_insert_eq.
    + apply lookup_insert_ne. congruence.
Qed.

(** One week, for an initial record whose value at [key] is [start]. *)
Lemma mergeWeek_value initial start mergedStats weekStats playerId key :
  In key summedKeys \/ key = "tf"%string ->
  (mergedStats !! playerId = None ->
   forall pData,
     weekStats !! playerId = Some pData ->
     numberOr0 (initial pData) key == start pData) ->
  weekValue playerId key (mergeWeek initial mergedStats weekStats)
  == match mergedStats !! playerId, weekStats !! playerId with
     | Some t, _ => numberOr0 t key
     | None, Some pData => start pData
     | None, None => 0
     end
     + weekValue playerId key weekStats.
Proof.
  intros Hkey Hstart. unfold weekValue at 1 2. rewrite mergeWeek_lookup.
  destruct (weekStats !! playerId) as [pData|] eqn:Ew.
  - rewrite (sumInto_value _ pData key Hkey).
    destruct (mergedStats !! playerId) as [t|]; [reflexivity|].
    rewrite (Hstart eq_refl pData eq_refl). reflexivity.
  - destruct (mergedStats !! playerId) as [t|]; ring.
Qed.

Lemma mergeWeek_present initial (mergedStats weekStats : gmap string PlayerStats)
    playerId :
  is_Some (mergeWeek initial mergedStats weekStats !! playerId) <->
  is_Some (mergedStats !! playerId) \/ appearsIn playerId weekStats.
Proof.
  rewrite mergeWeek_lookup. unfold appearsIn.
  destruct (weekStats !! playerId) as [pData|].
  - split; [intros _; right; eexists; reflexivity|intros _; eexists; reflexivity].
  - split; [intros H; left; exact H|].
    intros [H|[x H]]; [exact H|discriminate H].
Qed.

Lemma mergeWeeks_present initial weeklyData (m0 : gmap string PlayerStats)
    playerId :
  is_Some (fold_left (mergeWeek initial) weeklyData m0 !! playerId) <->
  is_Some (m0 !! playerId) \/
  exists weekStats, In weekStats weeklyData /\ appearsIn playerId weekStats.
Proof.
  revert m0. induction weeklyData as [|w ws IH]; intros m0; simpl.
  - split; [intros H; left; exact H|]. intros [H|(w & [] & _)]. exact H.
  - rewrite IH, mergeWeek_present. split.
    + intros [[H|H]|(w' & Hin & H)]; [left; exact H| |].
      * right. exists w. auto.
      * right. exists w'. auto.
    + intros [H|(w' & [<-|Hin] & H)]; [left; left; exact H| |].
      * left. right. exact H.
      * right. exists w'. auto.
Qed.

(** The weeks after a player is in the merged object add their values. *)
Lemma mergeWeeks_value_present initial weeklyData (m0 : gmap string PlayerStats)
    playerId key :
  In key summedKeys \/ key = "tf"%string ->
  is_Some (m0 !! playerId) ->
  weekValue playerId key (fold_left (mergeWeek initial) weeklyData m0)
  == weekValue playerId key m0 + Qsum (map (weekValue playerId key) weeklyData).
Proof.
  intros Hkey. revert m0. induction weeklyData as [|w ws IH]; intros m0 Hm0.
  - simpl. unfold Qsum. simpl. ring.
  - cbn [fold_left map]. rewrite IH.
    + rewrite SumFacts.Qsum_cons.
      rewrite (mergeWeek_value initial (fun _ => 0) m0 w playerId key Hkey).
      * destruct Hm0 as [t Ht].
        assert (Hm : weekValue playerId key m0 = numberOr0 t key)
          by (unfold weekValue; rewrite Ht; reflexivity).
        rewrite Hm, Ht. ring.
      * intros Hnone. destruct Hm0 as [t Ht]. congruence.
    + apply mergeWeek_present. left. exact Hm0.
Qed.

Lemma Qsum_app l1 l2 : Qsum (l1 ++ l2) == Qsum l1 + Qsum l2.
Proof.
  induction l1 as [|x l1 IH]; simpl.
  - unfold Qsum at 2. simpl. ring.
  - rewrite !SumFacts.Qsum_cons, IH. ring.
Qed.

Lemma weekValue_absent playerId key (weekStats : gmap string PlayerStats) :
  ~ appearsIn playerId weekStats -> weekValue playerId key weekStats = 0.
Proof.
  unfold appearsIn, weekValue. destruct (weekStats !! playerId); [|reflexivity].
  intros H. exfalso. apply H. eexists. reflexivity.
Qed.

(** The merged value of a player who first appears in week [w]: what the
    initial record holds for the key, plus the values of all the weeks. *)
Lemma mergeWeeks_first_appearance initial start before w after playerId pData key :
  In key summedKeys \/ key = "tf"%string ->
  (forall w', In w' before -> ~ appearsIn playerId w') ->
  w !! playerId = Some pData ->
  numberOr0 (initial pData) key == start ->
  weekValue playerId key (mergeWeeks initial (before ++ w :: after))
  == start + Qsum (map (weekValue playerId key) (before ++ w :: after)).
Proof.
  intros Hkey Hbefore Hw Hstart. unfold mergeWeeks.
  rewrite fold_left_app. cbn [fold_left].
  set (m1 := fold_left (mergeWeek initial) before ∅).
  assert (Hm1 : m1 !! playerId = None).
  { destruct (m1 !! playerId) as [t|] eqn:E; [|reflexivity]. exfalso.
    assert (Hs : is_Some (m1 !! playerId)) by (eexists; exact E).
    apply mergeWeeks_present in Hs. destruct Hs as [[x Hx]|(w' & Hin & Happ)].
    - rewrite lookup_empty in Hx. discriminate Hx.
    - apply (Hbefore w' Hin Happ). }
  rewrite mergeWeeks_value_present;
    [|exact Hkey | apply mergeWeek_present; right; eexists; exact Hw].
  rewrite (mergeWeek_value initial (fun _ => start) m1 w playerId key Hkey).
  - rewrite Hm1, Hw. rewrite map_app, Qsum_app. cbn [map].
    rewrite SumFacts.Qsum_cons.
    rewrite (SumFacts.Qsum_map_const (weekValue playerId key) 0 before).
    + ring.
    + intros w' Hin. rewrite (weekValue_absent _ _ _ (Hbefore w' Hin)).
      reflexivity.
  - intros _ p Hp. rewrite Hw in Hp. injection Hp as <-. exact Hstart.
Qed.

Lemma first_appearance playerId (weeklyData : list (gmap string PlayerStats)) :
  (forall w, In w weeklyData -> ~ appearsIn playerId w) \/
  exists before w after pData,
    weeklyData = before ++ w :: after /\
    (forall w', In w' before -> ~ appearsIn playerId w') /\
    w !! playerId = Some pData.
Proof.
  induction weeklyData as [|w ws IH]; [left; intros w []|].
  destruct (w !! playerId) as [pData|] eqn:E.
  - right. exists [], w, ws, pData. split; [reflexivity|].
    split; [intros w' []|exact E].
  - destruct IH as [IH|(before & w' & after & pData & -> & Hb & Hw)].
    + left. intros w' [<-|Hin]; [|apply IH; exact Hin].
      unfold appearsIn. rewrite E. intros [x Hx]. discriminate Hx.
    + right. exists (w :: before), w', after, pData.
      split; [reflexivity|]. split; [|exact Hw].
      intros w'' [<-|Hin]; [|apply Hb; exact Hin].
      unfold appearsIn. rewrite E. intros [x Hx]. discriminate Hx.
Qed.

Lemma zeroRecord_value key :
  In key summedKeys \/ key = "tf"%string -> numberOr0 zeroRecord key = 0.
Proof.
  intros [H| ->]; [|reflexivity].
  repeat (destruct H as [<-|H]; [reflexivity|]). destruct H.
Qed.

Lemma mergeRecent_names weeklyData :
  forall playerId t,
    mergeRecentStats weeklyData !! playerId = Some t ->
    player_name t = Some ""%string.
Proof.
  unfold mergeRecentStats, mergeWeeks.
  assert (H : forall (m0 : gmap string PlayerStats),
    (forall pid t, m0 !! pid = Some t -> player_name t = Some ""%string) ->
    forall pid t,
      fold_left (mergeWeek (fun _ => zeroRecord)) weeklyData m0 !! pid = Some t ->
      player_name t = Some ""%string).
  { induction weeklyData as [|w ws IH]; intros m0 Hm0; [exact Hm0|].
    cbn [fold_left]. apply IH. intros pid t. rewrite mergeWeek_lookup.
    destruct (w !! pid) as [pData|]; [|apply Hm0].
    intros Ht. injection Ht as <-. rewrite sumInto_name.
    destruct (m0 !! pid) as [t0|] eqn:E; [apply (Hm0 pid t0 E)|reflexivity]. }
  apply H. intros pid t Ht. rewrite lookup_empty in Ht. discriminate Ht.
Qed.

(** X19.  The merge of utils/recentStatsCache.ts holds a player exactly
    when some week does; for each of the thirteen summed keys and for
    [tf], the merged value is the sum of the weeks' values, a week
    without the player or the key counting as 0; and every merged record
    has the empty name. *)
Theorem X19_recent_merge_sums weeklyData playerId :
  (is_Some (mergeRecentStats weeklyData !! playerId) <->
   exists weekStats, In weekStats weeklyData /\ appearsIn playerId weekStats) /\
  (forall key,
     In key summedKeys \/ key = "tf"%string ->
     weekValue playerId key (mergeRecentStats weeklyData)
     == Qsum (map (weekValue playerId key) weeklyData)) /\
  (forall t,
     mergeRecentStats weeklyData !! playerId = Some t ->
     player_name t = Some ""%string).
Proof.
  split; [|split].
  - unfold mergeRecentStats, mergeWeeks. rewrite mergeWeeks_present.
    split; [|intros H; right; exact H].
    intros [[x Hx]|H]; [|exact H]. rewrite lookup_empty in Hx. discriminate Hx.
  - intros key Hkey.
    destruct (first_appearance playerId weeklyData)
      as [Hnone|(before & w & after & pData & -> & Hb & Hw)].
    + assert (Habsent : mergeRecentStats weeklyData !! playerId = None).
      { destruct (mergeRecentStats weeklyData !! playerId) as [t|] eqn:E;
          [|reflexivity]. exfalso.
        assert (Hs : is_Some (mergeRecentStats weeklyData !! playerId))
          by (eexists; exact E).
        unfold mergeRecentStats, mergeWeeks in Hs.
        apply mergeWeeks_present in Hs.
        destruct Hs as [[x Hx]|(w & Hin & Happ)].
        - rewrite lookup_empty in Hx. discriminate Hx.
        - apply (Hnone w Hin Happ). }
      unfold weekValue at 1. rewrite Habsent.
      rewrite (SumFacts.Qsum_map_const (weekValue playerId key) 0 weeklyData).
      * ring.
      * intros w Hin. rewrite (weekValue_absent _ _ _ (Hnone w Hin)). reflexivity.
    + unfold mergeRecentStats.
      rewrite (mergeWeeks_first_appearance (fun _ => zeroRecord) 0 before w
                 after playerId pData key Hkey Hb Hw).
      * ring.
      * rewrite (zeroRecord_value key Hkey). reflexivity.
  - apply mergeRecent_names.
Qed.

Lemma X19_recent_merge_sums_witness :
  weekValue "a" "pts" (mergeRecentStats [MoreSamples.weekOne; MoreSamples.weekTwo])
  == 50.
Proof.
  destruct (X19_recent_merge_sums [MoreSamples.weekOne; MoreSamples.weekTwo]
              "a"%string) as (_ & Hsum & _).
  rewrite Hsum.
  - vm_compute. reflexivity.
  - left. right. left. reflexivity.
Defined.

Lemma spreadRecord_reset pData key :
  In key resetKeys -> numberOr0 (spreadRecord pData) key = 0.
Proof.
  intros Hin. unfold spreadRecord.
  apply (fold_setField_in (fun _ _ => 0)); [|apply resetKeys_NoDup | exact Hin].
  reflexivity.
Qed.

Lemma spreadRecord_kept pData key :
  ~ In key resetKeys ->
  numberOr0 (spreadRecord pData) key = numberOr0 pData key.
Proof.
  intros Hout. unfold spreadRecord.
  rewrite (fold_setField_out (fun _ _ => 0)) by exact Hout.
  unfold numberOr0. cbn [statFields].
  destruct (statFields pData !! "gp"%string) as [g|] eqn:Eg; [reflexivity|].
  destruct (decide (key = "gp"%string)) as [->|Hne].
  - rewrite lookup_insert_eq, Eg. reflexivity.
  - rewrite lookup_insert_ne by congruence. reflexivity.
Qed.

Lemma resetKeys_summed key : In key resetKeys -> In key summedKeys.
Proof. intros H. right. exact H. Qed.

(** X20.  In the merge of utils/sleeperStats.ts the twelve reset counters
    of a player are the sums of the weeks' values, but games played and
    [tf] count the week of the player's first appearance twice: the
    initial record copies them from that week and the summing block adds
    them again. *)
Theorem X20_sleeper_merge_counts_first_week_twice
    before w after playerId pData :
  (forall w', In w' before -> ~ appearsIn playerId w') ->
  w !! playerId = Some pData ->
  let weeklyData := before ++ w :: after in
  (forall key,
     In key resetKeys ->
     weekValue playerId key (mergeSleeperStats weeklyData)
     == Qsum (map (weekValue playerId key) weeklyData)) /\
  weekValue playerId "gp" (mergeSleeperStats weeklyData)
  == numberOr0 pData "gp" + Qsum (map (weekValue playerId "gp") weeklyData) /\
  weekValue playerId "tf" (mergeSleeperStats weeklyData)
  == numberOr0 pData "tf" + Qsum (map (weekValue playerId "tf") weeklyData).
Proof.
  intros Hb Hw weeklyData. subst weeklyData. unfold mergeSleeperStats.
  split; [|split].
  - intros key Hkey.
    rewrite (mergeWeeks_first_appearance spreadRecord 0 before w after playerId
               pData key (or_introl (resetKeys_summed key Hkey)) Hb Hw).
    + ring.
    + rewrite (spreadRecord_reset pData key Hkey). reflexivity.
  - apply (mergeWeeks_first_appearance spreadRecord (numberOr0 pData "gp")
             before w after playerId pData "gp"); try assumption.
    + left. left. reflexivity.
    + rewrite spreadRecord_kept; [reflexivity|].
      intros H. repeat (destruct H as [H|H]; [discriminate H|]). exact H.
  - apply (mergeWeeks_first_appearance spreadRecord (numberOr0 pData "tf")
             before w after playerId pData "tf"); try assumption.
    + right. reflexivity.
    + rewrite spreadRecord_kept; [reflexivity|].
      intros H. repeat (destruct H as [H|H]; [discriminate H|]). exact H.
Qed.

Lemma X20_sleeper_merge_counts_first_week_twice_witness :
  weekValue "a" "gp" (mergeSleeperStats [MoreSamples.weekOne; MoreSamples.weekTwo])
  == 7 /\
  weekValue "a" "gp" (mergeRecentStats [MoreSamples.weekOne; MoreSamples.weekTwo])
  == 5.
Proof.
  split.
  - destruct (X20_sleeper_merge_counts_first_week_twice [] MoreSamples.weekOne
                [MoreSamples.weekTwo] "a"%string
                (Samples.statsOf "A" [("gp", 2); ("pts", 20); ("tf", 1)]%string))
      as (_ & Hgp & _).
    + intros w' [].
    + vm_compute. reflexivity.
    + cbn [app] in Hgp. rewrite Hgp. vm_compute. reflexivity.
  - vm_compute. reflexivity.
Defined.

(** X21.  Z-scores computed from the merged recent stats name every
    player "Unknown Player": the merged records carry the empty name. *)
Theorem X21_recent_z_scores_unnamed leagueRosters weeklyData scoringSettings
    id entry :
  ZScore.calculateZScores leagueRosters (mergeRecentStats weeklyData)
    scoringSettings !! id = Some entry ->
  name entry = "Unknown Player"%string.
Proof.
  intros Hentry. apply ZScoreFacts.calculateZScores_lookup in Hentry.
  destruct Hentry as (_ & _ & _ & pStats & Hst & _ & ->).
  apply mergeRecent_names in Hst. unfold ZScore.playerEntry.
  destruct (ZScore.scoreLoop _ _ pStats). cbn [name]. rewrite Hst. reflexivity.
Qed.

Lemma X21_recent_z_scores_unnamed_witness :
  name <$> (ZScore.calculateZScores Samples.league
              (mergeRecentStats [MoreSamples.weekOne; MoreSamples.weekTwo])
              Samples.ptsSettings !! "a"%string)
  = Some "Unknown Player"%string.
Proof.
  destruct (ZScore.calculateZScores Samples.league
              (mergeRecentStats [MoreSamples.weekOne; MoreSamples.weekTwo])
              Samples.ptsSettings !! "a"%string) as [entry|] eqn:E;
    [|vm_compute in E; discriminate E].
  simpl. f_equal.
  apply (X21_recent_z_scores_unnamed Samples.league
           [MoreSamples.weekOne; MoreSamples.weekTwo] Samples.ptsSettings
           "a"%string entry E).
Defined.

End WeeklyStatsFacts.

(** ** Helpers of the roster view *)

Module RosterViewFacts.

Import RosterView.
Local Open Scope Q_scope.

Ltac decide_thresholds :=
  repeat match goal with
         | |- context [Qlt_bool ?a ?b] =>
             let E := fresh "E" in
             destruct (Qlt_bool a b) eqn:E;
             [apply NumFacts.Qlt_bool_iff in E | apply NumFacts.Qlt_bool_false in E]
         | |- context [Qle_bool ?a ?b] =>
             let E := fresh "E" in
             destruct (Qle_bool a b) eqn:E;
             [apply Qle_bool_iff in E | apply NumFacts.Qle_bool_false in E]
         end.

(** X22.  The colour of a category score: neon green above 12, green
    from 5 to 12, gray from -1 to 1, deep red below -5, and red both for
    scores from -5 up to -1 and for scores strictly between 1 and 5. *)
Theorem X22_category_colour score :
  (getCategoryColor score = "#00ff00"%string <-> 12 < score) /\
  (getCategoryColor score = "#4caf50"%string <-> 5 <= score /\ score <= 12) /\
  (getCategoryColor score = "#999999"%string <-> - (1) <= score /\ score <= 1) /\
  (getCategoryColor score = "#8b0000"%string <-> score < - (5)) /\
  (getCategoryColor score = "#f44336"%string <->
   (- (5) <= score /\ score < - (1)) \/ (1 < score /\ score < 5)).
Proof.
  unfold getCategoryColor. decide_thresholds; cbn [andb];
    (split; [|split; [|split; [|split]]]); (split; intros H);
    try discriminate H; try reflexivity; try lra;
    try (destruct H as [H|H]; lra);
    try (left; lra); try (right; lra).
Qed.





End RosterViewFacts.

(** ** The schedule window *)

Module ScheduleFacts.

Import Streaming Schedule.
Local Open Scope Z_scope.

Lemma includes_In l k : includes l k = true <-> In k l.
Proof.
  unfold includes. rewrite existsb_exists. split.
  - intros (x & Hx & E). apply String.eqb_eq in E. subst. exact Hx.
  - intros H. exists k. split; [exact H|apply String.eqb_refl].
Qed.

Lemma uniqueInto_In seen xs x :
  In x (uniqueInto seen xs) <-> In x seen \/ In x xs.
Proof.
  revert seen. induction xs as [|y xs IH]; intros seen; simpl.
  - tauto.
  - destruct (includes seen y) eqn:E; rewrite IH.
    + apply includes_In in E. split; [tauto|].
      intros [H|[<-|H]]; tauto.
    + rewrite in_app_iff. simpl. tauto.
Qed.

Lemma uniqueInto_NoDup seen xs :
  List.NoDup seen -> List.NoDup (uniqueInto seen xs).
Proof.
  revert seen. induction xs as [|y xs IH]; intros seen Hs; simpl; [exact Hs|].
  destruct (includes seen y) eqn:E; apply IH; [exact Hs|].
  assert (Hn : ~ In y seen).
  { intros H. apply includes_In in H. congruence. }
  clear E IH. induction seen as [|z seen IHs]; simpl.
  - constructor; [intros []|constructor].
  - inversion Hs as [|? ? Hz Hs']; subst. constructor.
    + rewrite in_app_iff. simpl. intros [H|[H|[]]]; [tauto|].
      subst. apply Hn. left. reflexivity.
    + apply IHs; [exact Hs'|]. intros H. apply Hn. right. exact H.
Qed.

Lemma teamsOf_In game team :
  In team (teamsOf game) <->
  team <> ""%string /\ (team = homeTeam game \/ team = awayTeam game).
Proof.
  unfold teamsOf. rewrite filter_In. simpl. unfold truthy.
  rewrite negb_true_iff, String.eqb_neq. intuition congruence.
Qed.

Lemma has_In dailyMap d : has dailyMap d = true <-> In d (map date dailyMap).
Proof.
  unfold has. rewrite existsb_exists, in_map_iff. split.
  - intros (e & He & E). apply String.eqb_eq in E. exists e. tauto.
  - intros (e & E & He). exists e. split; [exact He|]. apply String.eqb_eq, E.
Qed.

Lemma update_dates d f dailyMap :
  (forall e, date (f e) = date e) ->
  map date (update d f dailyMap) = map date dailyMap.
Proof.
  intros Hf. induction dailyMap as [|e rest IH]; simpl; [reflexivity|].
  destruct (String.eqb (date e) d); simpl; [rewrite Hf|rewrite IH]; reflexivity.
Qed.

Lemma update_Forall (P Q : DailySchedule -> Prop) d f dailyMap :
  (forall e, P e -> date e = d -> Q (f e)) ->
  (forall e, P e -> date e <> d -> Q e) ->
  List.NoDup (map date dailyMap) ->
  List.Forall P dailyMap -> List.Forall Q (update d f dailyMap).
Proof.
  intros Hd Hn. induction dailyMap as [|e rest IH]; simpl; intros Hnd HP;
    [constructor|].
  inversion HP as [|? ? He Hrest]; subst.
  inversion Hnd as [|? ? Hnotin Hnd']; subst.
  destruct (String.eqb (date e) d) eqn:E.
  - apply String.eqb_eq in E. constructor; [apply Hd; assumption|].
    rewrite List.Forall_forall in *. intros e' He'. apply Hn; [auto|].
    intros E'. apply Hnotin. rewrite E, <- E'. apply in_map, He'.
  - apply String.eqb_neq in E. constructor; [apply Hn; assumption|].
    apply IH; assumption.
Qed.

Section Window.

Variable parseDateOnly : string -> option Z.
Variable toISOString : Z -> string.
Variables start end_ : Z.

Local Abbreviation entryOk := (Schedule.entryOk parseDateOnly toISOString start end_).
Local Abbreviation loopInv := (Schedule.loopInv parseDateOnly toISOString start end_).
Local Abbreviation addToWindow := (Schedule.addToWindow parseDateOnly toISOString start end_).
Local Abbreviation collectDays := (Schedule.collectDays parseDateOnly toISOString start end_).

Lemma loopInv_nil : loopInv [] [].
Proof.
  split; [constructor|]. split; [constructor|]. intros game [].
Qed.

Lemma entryOk_other seen game e :
  entryOk seen e -> gameDate game <> date e -> entryOk (seen ++ [game]) e.
Proof.
  intros (Hg & Hne & Ht & Hnd & Hteams) Hd.
  split; [|tauto].
  rewrite List.filter_app. simpl.
  destruct (String.eqb (gameDate game) (date e)) eqn:E.
  - apply String.eqb_eq in E. contradiction.
  - rewrite app_nil_r. exact Hg.
Qed.

Lemma entryOk_addGame seen game e t :
  parseDateOnly (gameDate game) = Some t -> start <= t < end_ ->
  date e = gameDate game ->
  (entryOk seen e \/
   (e = {| date := gameDate game; isoDate := toISOString t; games := [];
           teamsPlaying := [] |} /\
    ~ In (gameDate game) (map gameDate seen))) ->
  entryOk (seen ++ [game]) (addGame game e).
Proof.
  intros Hp Hw Hd He.
  assert (Hcommon :
    games e = List.filter (fun g => String.eqb (gameDate g) (date e)) seen /\
    (exists t, parseDateOnly (date e) = Some t /\ start <= t < end_ /\
               isoDate e = toISOString t) /\
    List.NoDup (teamsPlaying e) /\
    (forall team, In team (teamsPlaying e) <->
                  exists game, In game (games e) /\ In team (teamsOf game))).
  { destruct He as [(Hg & _ & Ht & Hnd & Hteams)|[-> Hnew]]; [tauto|].
    simpl. split; [|split; [|split]].
    - symmetry. clear -Hnew. induction seen as [|g seen IH]; [reflexivity|].
      simpl in *. destruct (String.eqb (gameDate g) (gameDate game)) eqn:E.
      + apply String.eqb_eq in E. tauto.
      + apply IH. tauto.
    - exists t. tauto.
    - constructor.
    - intros team. split; [intros []|intros (g & [] & _)]. }
  destruct Hcommon as (Hg & Ht & Hnd & Hteams).
  unfold entryOk, addGame. cbn [date isoDate games teamsPlaying].
  split; [|split; [|split; [|split]]].
  - rewrite List.filter_app. simpl. rewrite Hd, String.eqb_refl.
    rewrite <- Hd, <- Hg. reflexivity.
  - destruct (games e); discriminate.
  - exact Ht.
  - apply uniqueInto_NoDup. constructor.
  - intros team. unfold unique. rewrite uniqueInto_In. simpl.
    rewrite in_app_iff, Hteams. split.
    + intros [[]|[(g & Hin & Hteam)|Hteam]].
      * exists g. rewrite in_app_iff. tauto.
      * exists game. rewrite in_app_iff. simpl. tauto.
    + intros (g & Hin & Hteam). right. apply in_app_iff in Hin.
      destruct Hin as [Hin|[<-|[]]]; [left; exists g; tauto|right; exact Hteam].
Qed.


Lemma skipped_iff t :
  (t <? start) || (end_ <=? t) = false <-> start <= t < end_.
Proof.
  rewrite orb_false_iff, Z.ltb_ge, Z.leb_gt. tauto.
Qed.

Lemma addToWindow_step seen dailyMap game t :
  loopInv seen dailyMap ->
  parseDateOnly (gameDate game) = Some t ->
  exists dailyMap',
    addToWindow dailyMap game = Some dailyMap' /\ loopInv (seen ++ [game]) dailyMap'.
Proof.
  intros (Hnd & Hall & Hseen) Hp.
  unfold Schedule.addToWindow. rewrite Hp.
  destruct ((t <? start) || (end_ <=? t)) eqn:Hskip.
  - exists dailyMap. split; [reflexivity|].
    assert (Hout : ~ start <= t < end_).
    { intros H. apply skipped_iff in H. congruence. }
    split; [exact Hnd|]. split.
    + rewrite List.Forall_forall in *. intros e He.
      apply entryOk_other; [apply Hall, He|].
      intros E. destruct (Hall e He) as (_ & _ & (t' & Hp' & Hw & _) & _).
      rewrite <- E, Hp in Hp'. injection Hp' as <-. contradiction.
    + intros g Hg. apply in_app_iff in Hg. destruct Hg as [Hg|[<-|[]]].
      * apply Hseen, Hg.
      * exists t. split; [exact Hp|]. intros H. contradiction.
  - apply skipped_iff in Hskip.
    assert (Hdate : forall e, date (addGame game e) = date e) by reflexivity.
    destruct (has dailyMap (gameDate game)) eqn:Hhas.
    + apply has_In in Hhas.
      exists (update (gameDate game) (addGame game) dailyMap).
      split; [reflexivity|].
      split; [rewrite update_dates; assumption|]. split.
      * apply (update_Forall (entryOk seen)); try assumption.
        -- intros e He Ed. apply (entryOk_addGame seen game e t); auto.
        -- intros e He Ed. apply entryOk_other; [exact He|]. congruence.
      * intros g Hg. rewrite update_dates by assumption.
        apply in_app_iff in Hg. destruct Hg as [Hg|[<-|[]]].
        -- apply Hseen, Hg.
        -- exists t. tauto.
    + assert (Hnot : ~ In (gameDate game) (map date dailyMap)).
      { intros H. apply has_In in H. congruence. }
      set (new := {| date := gameDate game; isoDate := toISOString t;
                     games := []; teamsPlaying := [] |}).
      exists (update (gameDate game) (addGame game) (dailyMap ++ [new])).
      split; [reflexivity|].
      assert (Hnd' : List.NoDup (map date (dailyMap ++ [new]))).
      { rewrite map_app. simpl. clear -Hnd Hnot.
        induction dailyMap as [|e rest IH]; simpl in *.
        - constructor; [intros []|constructor].
        - inversion Hnd as [|? ? Hn Hnd']; subst. constructor.
          + rewrite in_app_iff. simpl. intros [H|[H|[]]]; [tauto|].
            apply Hnot. left. symmetry. exact H.
          + apply IH; [exact Hnd'|]. tauto. }
      assert (Hfresh : ~ In (gameDate game) (map gameDate seen)).
      { intros H. apply in_map_iff in H. destruct H as (g & E & Hg).
        destruct (Hseen g Hg) as (t' & Hp' & Hin).
        rewrite E, Hp in Hp'. injection Hp' as <-.
        apply Hnot. rewrite <- E. apply Hin, Hskip. }
      split; [rewrite update_dates; assumption|]. split.
      * apply (update_Forall
                 (fun e => entryOk seen e \/ (e = new /\
                    ~ In (gameDate game) (map gameDate seen)))); try assumption.
        -- intros e He Ed. apply (entryOk_addGame seen game e t); auto.
        -- intros e [He|[-> _]] Ed; [|contradiction Ed; reflexivity].
           apply entryOk_other; [exact He|]. congruence.
        -- apply List.Forall_app. split.
           ++ rewrite List.Forall_forall in *. intros e He. left. apply Hall, He.
           ++ constructor; [right; split; [reflexivity|exact Hfresh]|constructor].
      * intros g Hg. rewrite update_dates by assumption.
        rewrite map_app. simpl.
        apply in_app_iff in Hg. destruct Hg as [Hg|[<-|[]]].
        -- destruct (Hseen g Hg) as (t' & Hp' & Hin). exists t'.
           split; [exact Hp'|]. intros Hw. apply in_app_iff. left. apply Hin, Hw.
        -- exists t. split; [exact Hp|]. intros _. apply in_app_iff. right.
           left. reflexivity.
Qed.

Lemma addToWindow_invalid seen dailyMap game :
  loopInv seen dailyMap ->
  parseDateOnly (gameDate game) = None ->
  addToWindow dailyMap game = None.
Proof.
  intros (_ & Hall & _) Hp. unfold Schedule.addToWindow. rewrite Hp.
  cbv beta iota zeta.
  destruct (has dailyMap (gameDate game)) eqn:Hhas; [|reflexivity].
  apply has_In, in_map_iff in Hhas. destruct Hhas as (e & E & He).
  rewrite List.Forall_forall in Hall.
  destruct (Hall e He) as (_ & _ & (t & Hp' & _) & _).
  rewrite E, Hp in Hp'. discriminate Hp'.
Qed.

Lemma collectDays_spec rest :
  forall seen dailyMap,
    loopInv seen dailyMap ->
    match collectDays dailyMap rest with
    | Some dailyMap' =>
        loopInv (seen ++ rest) dailyMap' /\
        forall game, In game rest -> parseDateOnly (gameDate game) <> None
    | None => exists game, In game rest /\ parseDateOnly (gameDate game) = None
    end.
Proof.
  induction rest as [|game rest IH]; intros seen dailyMap Hinv; simpl.
  - rewrite app_nil_r. split; [exact Hinv|]. intros game [].
  - destruct (parseDateOnly (gameDate game)) as [t|] eqn:Hp.
    + destruct (addToWindow_step seen dailyMap game t Hinv Hp) as (m' & -> & Hinv').
      specialize (IH _ _ Hinv').
      destruct (collectDays m' rest) as [m''|].
      * rewrite <- List.app_assoc in IH. simpl in IH.
        destruct IH as [Hinv'' Hvalid]. split; [exact Hinv''|].
        intros g [<-|Hg]; [congruence|apply Hvalid, Hg].
      * destruct IH as (g & Hg & Hn). exists g. split; [right; exact Hg|exact Hn].
    + rewrite (addToWindow_invalid seen dailyMap game Hinv Hp).
      exists game. split; [left; reflexivity|exact Hp].
Qed.

End Window.

(** The order of date strings. *)
Lemma ltb_lt a b : String.ltb a b = true <-> OrderedTypeEx.String_as_OT.lt a b.
Proof.
  unfold String.ltb. rewrite <- OrderedTypeEx.String_as_OT.cmp_lt.
  unfold OrderedTypeEx.String_as_OT.cmp.
  destruct (String.compare a b); split; intros H; congruence.
Qed.

Lemma ltb_trans a b c :
  String.ltb a b = true -> String.ltb b c = true -> String.ltb a c = true.
Proof.
  rewrite !ltb_lt. apply OrderedTypeEx.String_as_OT.lt_trans.
Qed.

Lemma ltb_connected a b :
  String.ltb b a = false -> a <> b -> String.ltb a b = true.
Proof.
  unfold String.ltb. intros H Hne.
  rewrite (String.compare_antisym a b).
  destruct (String.compare b a) eqn:E; simpl; try reflexivity; try discriminate.
  apply String.compare_eq_iff in E. congruence.
Qed.

Lemma ltb_asym a b : String.ltb a b = true -> String.ltb b a = false.
Proof.
  unfold String.ltb. rewrite (String.compare_antisym b a).
  destruct (String.compare a b); simpl; intros H; try reflexivity; discriminate.
Qed.

Lemma sortBy_byDate dailyMap :
  List.NoDup (map date dailyMap) ->
  StronglySorted (fun a b => String.ltb (date a) (date b) = true)
    (sortBy byDate dailyMap).
Proof.
  intros Hnd.
  assert (Hnd' : List.NoDup (map date (sortBy byDate dailyMap))).
  { eapply Permutation_NoDup; [|exact Hnd].
    apply Permutation_map, SortFacts.sortBy_perm. }
  assert (Hs : Sorted (fun a b => (byDate a b <= 0)%Q) (sortBy byDate dailyMap)).
  { apply SortFacts.sortBy_sorted. intros a b. unfold byDate.
    destruct (String.ltb (date b) (date a)) eqn:E.
    - right. rewrite (ltb_asym _ _ E). discriminate.
    - left. discriminate. }
  revert Hnd' Hs. generalize (sortBy byDate dailyMap). intros l Hnd' Hs.
  apply Sorted_StronglySorted.
  - intros a b c. apply ltb_trans.
  - induction Hs as [|a l Hs IH Hd]; [constructor|].
    simpl in Hnd'. inversion Hnd' as [|? ? Hn Hnd'']; subst.
    constructor; [apply IH, Hnd''|].
    destruct Hd as [|b l Hab]; constructor.
    apply ltb_connected.
    + unfold byDate in Hab. destruct (String.ltb (date b) (date a)); [|reflexivity].
      exfalso. apply Hab. reflexivity.
    + intros E. apply Hn. left. symmetry. exact E.
Qed.


(** The entries of the window before they are sorted. *)
Lemma daily_spec parseDateOnly toISOString days startDate games daily :
  getScheduleWindow_daily parseDateOnly toISOString days startDate games = Some daily ->
  exists dailyMap,
    daily = sortBy byDate dailyMap /\
    loopInv parseDateOnly toISOString (toStartOfDayUTC startDate)
      (toStartOfDayUTC startDate + days * DAY_MS) games dailyMap.
Proof.
  unfold getScheduleWindow_daily. cbv zeta. intros H.
  assert (Hspec := collectDays_spec parseDateOnly toISOString
                     (toStartOfDayUTC startDate)
                     (toStartOfDayUTC startDate + days * DAY_MS) games [] []
                     (loopInv_nil _ _ _ _)).
  destruct (collectDays _ _ _ _ [] games) as [dailyMap|]; [|discriminate H].
  injection H as <-. exists dailyMap. split; [reflexivity|]. apply Hspec.
Qed.

Lemma daily_entry parseDateOnly toISOString days startDate games daily e :
  getScheduleWindow_daily parseDateOnly toISOString days startDate games = Some daily ->
  In e daily ->
  entryOk parseDateOnly toISOString (toStartOfDayUTC startDate)
    (toStartOfDayUTC startDate + days * DAY_MS) games e.
Proof.
  intros H He. destruct (daily_spec _ _ _ _ _ _ H) as (dailyMap & -> & _ & Hall & _).
  apply SortFacts.sortBy_In in He. rewrite List.Forall_forall in Hall.
  apply Hall, He.
Qed.

Lemma inWindow_spec parseDateOnly days startDate game :
  inWindow parseDateOnly days startDate game = true <->
  exists t, parseDateOnly (gameDate game) = Some t /\
            toStartOfDayUTC startDate <= t < toStartOfDayUTC startDate + days * DAY_MS.
Proof.
  unfold inWindow. destruct (parseDateOnly (gameDate game)) as [t|].
  - rewrite andb_true_iff, Z.leb_le, Z.ltb_lt. split.
    + intros H. exists t. tauto.
    + intros (t' & [= <-] & H). exact H.
  - split; [discriminate|]. intros (t & Ht & _). discriminate Ht.
Qed.

(** X24.  The [daily] list of a schedule window is in strictly
    ascending order of date, so no date occurs twice; its dates are the
    dates of the games whose day lies in the window; and the entry of a
    date holds all games of that date, in the order of the schedule,
    with the ISO form of the day. *)
Theorem X24_window_days parseDateOnly toISOString days startDate games daily :
  getScheduleWindow_daily parseDateOnly toISOString days startDate games = Some daily ->
  StronglySorted (fun a b => String.ltb (date a) (date b) = true) daily /\
  (forall d,
     In d (map date daily) <->
     exists game,
       In game games /\ inWindow parseDateOnly days startDate game = true /\
       gameDate game = d) /\
  (forall dayEntry,
     In dayEntry daily ->
     Streaming.games dayEntry
     = List.filter (fun game => String.eqb (gameDate game) (date dayEntry)) games /\
     exists t, parseDateOnly (date dayEntry) = Some t /\
               isoDate dayEntry = toISOString t).
Proof.
  intros H. split; [|split].
  - destruct (daily_spec _ _ _ _ _ _ H) as (dailyMap & -> & Hnd & _).
    apply sortBy_byDate, Hnd.
  - intros d. split.
    + intros Hd. apply in_map_iff in Hd. destruct Hd as (e & <- & He).
      destruct (daily_entry _ _ _ _ _ _ _ H He) as (Hg & Hne & (t & Hp & Hw & _) & _).
      destruct (Streaming.games e) as [|game l] eqn:Eg; [contradiction Hne; reflexivity|].
      assert (Hin : In game (List.filter
                (fun game => String.eqb (gameDate game) (date e)) games)).
      { rewrite <- Hg. left. reflexivity. }
      apply filter_In in Hin. destruct Hin as [Hin Ed].
      apply String.eqb_eq in Ed. exists game. split; [exact Hin|].
      split; [|exact Ed]. apply inWindow_spec. exists t. rewrite Ed. tauto.
    + intros (game & Hin & Hw & <-).
      destruct (daily_spec _ _ _ _ _ _ H) as (dailyMap & -> & _ & _ & Hseen).
      destruct (Hseen game Hin) as (t & Hp & Hd).
      apply inWindow_spec in Hw. destruct Hw as (t' & Hp' & Hw).
      rewrite Hp in Hp'. injection Hp' as <-.
      eapply Permutation_in; [|apply Hd, Hw].
      apply Permutation_map, SortFacts.sortBy_perm.
  - intros e He.
    destruct (daily_entry _ _ _ _ _ _ _ H He) as (Hg & _ & (t & Hp & _ & Hiso) & _).
    split; [exact Hg|]. exists t. tauto.
Qed.

Lemma X24_window_days_witness :
  exists daily,
    getScheduleWindow_daily MoreSamples.parseSample MoreSamples.isoSample 7
      MoreSamples.oneAM MoreSamples.sampleGames = Some daily /\
    StronglySorted (fun a b => String.ltb (date a) (date b) = true) daily.
Proof.
  destruct (getScheduleWindow_daily MoreSamples.parseSample MoreSamples.isoSample 7
              MoreSamples.oneAM MoreSamples.sampleGames) as [daily|] eqn:E;
    [|vm_compute in E; discriminate E].
  exists daily. split; [reflexivity|].
  apply (X24_window_days MoreSamples.parseSample MoreSamples.isoSample 7
           MoreSamples.oneAM MoreSamples.sampleGames daily E).
Defined.

(** X25.  The teams of a day entry are the non-empty home and away
    teams of the games of its date, each once. *)
Theorem X25_teams_playing parseDateOnly toISOString days startDate games daily
    dayEntry :
  getScheduleWindow_daily parseDateOnly toISOString days startDate games = Some daily ->
  In dayEntry daily ->
  List.NoDup (teamsPlaying dayEntry) /\
  forall team,
    In team (teamsPlaying dayEntry) <->
    team <> ""%string /\
    exists game,
      In game games /\ gameDate game = date dayEntry /\
      (team = homeTeam game \/ team = awayTeam game).
Proof.
  intros H He.
  destruct (daily_entry _ _ _ _ _ _ _ H He) as (Hg & _ & _ & Hnd & Hteams).
  split; [exact Hnd|]. intros team. rewrite Hteams, Hg. split.
  - intros (game & Hin & Hteam). apply filter_In in Hin.
    destruct Hin as [Hin Ed]. apply String.eqb_eq in Ed.
    apply teamsOf_In in Hteam. split; [tauto|]. exists game. tauto.
  - intros (Hne & game & Hin & Ed & Hteam). exists game. split.
    + apply filter_In. split; [exact Hin|]. apply String.eqb_eq, Ed.
    + apply teamsOf_In. tauto.
Qed.

Lemma X25_teams_playing_witness :
  exists dayEntry,
    getScheduleWindow_daily MoreSamples.parseSample MoreSamples.isoSample 7
      MoreSamples.oneAM MoreSamples.sampleGames ≫= head = Some dayEntry /\
    List.NoDup (teamsPlaying dayEntry).
Proof.
  destruct (getScheduleWindow_daily MoreSamples.parseSample MoreSamples.isoSample 7
              MoreSamples.oneAM MoreSamples.sampleGames) as [daily|] eqn:E;
    [|vm_compute in E; discriminate E].
  destruct daily as [|dayEntry daily]; [vm_compute in E; discriminate E|].
  exists dayEntry. split; [reflexivity|].
  apply (X25_teams_playing MoreSamples.parseSample MoreSamples.isoSample 7
           MoreSamples.oneAM MoreSamples.sampleGames (dayEntry :: daily) dayEntry E).
  left. reflexivity.
Defined.

(** X26.  The call fails exactly when some game of the schedule has a
    date that is not read as a day, wherever that game lies: the window
    does not protect against it. *)
Theorem X26_invalid_date_fails parseDateOnly toISOString days startDate games :
  getScheduleWindow_daily parseDateOnly toISOString days startDate games = None <->
  exists game, In game games /\ parseDateOnly (gameDate game) = None.
Proof.
  unfold getScheduleWindow_daily. cbv zeta.
  assert (Hspec := collectDays_spec parseDateOnly toISOString
                     (toStartOfDayUTC startDate)
                     (toStartOfDayUTC startDate + days * DAY_MS) games [] []
                     (loopInv_nil _ _ _ _)).
  destruct (collectDays _ _ _ _ [] games) as [dailyMap|].
  - split; [discriminate|]. intros (game & Hin & Hp).
    destruct Hspec as [_ Hvalid]. contradiction (Hvalid game Hin Hp).
  - split; [intros _; exact Hspec|reflexivity].
Qed.

(** X27.  A streaming plan built over the days of a schedule window has
    its days in strictly ascending order of date, every day has at least
    one game, and the team of every own player and of every
    recommendation of a day is the home or the away team of a game of
    that date. *)
Theorem X27_plan_over_window parseDateOnly toISOString window startDate games input :
  getScheduleWindow_daily parseDateOnly toISOString window startDate games
  = Some (dailySchedule input) ->
  StronglySorted (fun a b => String.ltb (dayDate a) (dayDate b) = true)
    (days (buildStreamingPlan input)) /\
  forall dp,
    In dp (days (buildStreamingPlan input)) ->
    (1 <= nbaGames dp)%nat /\
    forall player,
      In player (ownPlayers dp) \/ In player (recommendations dp) ->
      exists game,
        In game games /\ gameDate game = dayDate dp /\
        (team player = homeTeam game \/ team player = awayTeam game).
Proof.
  intros H.
  assert (Hsorted : StronglySorted
            (fun a b => String.ltb (date a) (date b) = true) (dailySchedule input)).
  { destruct (daily_spec _ _ _ _ _ _ H) as (dailyMap & -> & Hnd & _).
    apply sortBy_byDate, Hnd. }
  cbn [days buildStreamingPlan]. split.
  - eapply StreamingFacts.StronglySorted_map; [|exact Hsorted].
    intros a b Hab. exact Hab.
  - intros dp Hdp. apply in_map_iff in Hdp. destruct Hdp as (day & <- & Hday).
    unfold dayPlan. cbn [nbaGames ownPlayers recommendations dayDate].
    destruct (daily_entry _ _ _ _ _ _ _ H Hday) as (Hg & Hne & _ & _ & Hteams).
    split; [destruct (Streaming.games day); [contradiction Hne; reflexivity|simpl; lia]|].
    assert (Hplays : forall entries limit player,
      In player (enrichWithUpcomingGames
                   (List.filter (playsOn (list_to_set (teamsPlaying day))) entries)
                   (teamGameMap input) (date day) limit) ->
      exists game,
        In game games /\ gameDate game = date day /\
        (team player = homeTeam game \/ team player = awayTeam game)).
    { intros entries limit player Hin. unfold enrichWithUpcomingGames in Hin.
      apply in_map_iff in Hin. destruct Hin as (e & <- & He).
      cbn [team withGames]. apply filter_In in He. destruct He as [_ Hp].
      rewrite StreamingFacts.playsOn_spec in Hp. apply andb_true_iff in Hp.
      destruct Hp as [_ Hp]. apply bool_decide_eq_true in Hp.
      apply list_elem_of_In in Hp.
      apply Hteams in Hp. destruct Hp as (game & Hin & Hteam).
      rewrite Hg in Hin. apply filter_In in Hin. destruct Hin as [Hin Ed].
      apply String.eqb_eq in Ed. apply teamsOf_In in Hteam.
      exists game. tauto. }
    intros player [Hin|Hin].
    + apply SortFacts.sortBy_In in Hin. apply (Hplays _ _ _ Hin).
    + destruct (0 <? _)%Z; [|destruct Hin].
      apply SortFacts.firstn_In, in_map_iff in Hin.
      destruct Hin as (e & <- & He). cbn [team withReason].
      apply (Hplays _ _ _ He).
Qed.

Lemma X27_plan_over_window_witness :
  exists daily,
    getScheduleWindow_daily MoreSamples.parseSample MoreSamples.isoSample 7
      MoreSamples.oneAM MoreSamples.sampleGames = Some daily /\
    StronglySorted (fun a b => String.ltb (dayDate a) (dayDate b) = true)
      (days (buildStreamingPlan (MoreSamples.scheduledInput daily))).
Proof.
  destruct (getScheduleWindow_daily MoreSamples.parseSample MoreSamples.isoSample 7
              MoreSamples.oneAM MoreSamples.sampleGames) as [daily|] eqn:E;
    [|vm_compute in E; discriminate E].
  exists daily. split; [reflexivity|].
  apply (X27_plan_over_window MoreSamples.parseSample MoreSamples.isoSample 7
           MoreSamples.oneAM MoreSamples.sampleGames
           (MoreSamples.scheduledInput daily) E).
Defined.

End ScheduleFacts.
